(** * Freight rate determination: a shallow embedding of the fulfillment
      service and controller, with the properties of its specification.

    Two copies of the service live in the repository: the one under
    [src/api/fulfillment/services/fulfillment.ts] (module [Service] below),
    which takes box dimensions in millimetres and weights in grams, and a
    refactored copy (module [Refactored]) which takes inches and pounds.

    JavaScript numbers are embedded as exact rationals [Q]: every finite
    double is a rational and the comparisons [<], [<=], [>=] agree with
    the rational order.  The arithmetic of the services is idealised as
    exact, a rational standing for the double nearest to it.  The price
    that the controllers make of the rate API's total, where the floor of
    a product shows the rounding of the doubles, is computed as the
    doubles give it: every operation there is followed by [JS.double],
    the rounding to the nearest double; so is the number [parseInt]
    reads.  [NaN] and the infinities are not numbers of the model; where
    the source can produce [NaN] by parsing, the result is an
    [option]. *)

From Stdlib Require Import ZArith QArith Qround Qabs List String Ascii Bool Lia Lqa.
From Stdlib Require Import Sorting.Sorted Sorting.Permutation.
Import ListNotations.

Open Scope string_scope.
Open Scope Q_scope.

(** ** Built-ins of the host language *)

Module JS.

Definition ltb (x y : Q) : bool := negb (Qle_bool y x).
Definition geb (x y : Q) : bool := Qle_bool y x.
Definition eqb (x y : Q) : bool := Qeq_bool x y.

(** A number is truthy unless it is zero; [!x] is the negation. *)
Definition truthy (x : Q) : bool := negb (Qeq_bool x 0).

(** [Math.round]: nearest integer, halves towards plus infinity. *)
Definition Math_round (x : Q) : Q := inject_Z (Qfloor (x + (1 # 2))).

Definition Math_floor (x : Q) : Q := inject_Z (Qfloor x).

Definition Math_abs (x : Q) : Q := Qabs x.

Definition Math_max (x y : Q) : Q := if Qle_bool x y then y else x.

(** [x % 1 !== 0]: the number has a fractional part. *)
Definition fractional (x : Q) : bool := negb (Qeq_bool x (inject_Z (Qfloor x))).

(** [parseFloat(x.toFixed(k))]: the closest multiple of [10^-k] to the
    value of [x], the one of larger magnitude when two are equally close.
    This is the rounding of the language when [x] is the value of a
    double; on a result of the idealised arithmetic it rounds that
    result. *)
Definition toFixed (k : nat) (x : Q) : Q :=
  let s := inject_Z (10 ^ Z.of_nat k) in
  let n := inject_Z (Qfloor (Qabs x * s + (1 # 2))) in
  if Qle_bool 0 x then n / s else - (n / s).

(** *** Doubles

    [double x] is the double nearest to [x], the one of even significand
    when two are equally near: what an arithmetic operation returns when
    its exact result is [x].  Significands have 53 bits; the exponent is
    not bounded, which is the arithmetic of the doubles as long as no
    result leaves their normal range. *)

(** The exponent [e] with [2^e <= |x| < 2^(e+1)], for [x] not zero. *)
Definition binade (x : Q) : Z :=
  let e := (Z.log2 (Z.abs (Qnum x)) - Z.log2 (Zpos (Qden x)))%Z in
  if Qle_bool (2 ^ e) (Qabs x) then e else (e - 1)%Z.

(** The integer nearest to [y], the even one of two equally near. *)
Definition halfEven (y : Q) : Z :=
  let f := Qfloor y in
  let r := y - inject_Z f in
  if Qle_bool r (1 # 2)
  then if Qeq_bool r (1 # 2) then (if Z.even f then f else f + 1)%Z else f
  else (f + 1)%Z.

Definition double (x : Q) : Q :=
  if Qeq_bool x 0 then 0
  else
    let ulp := 2 ^ (binade x - 52) in
    let n := inject_Z (halfEven (Qabs x / ulp)) * ulp in
    if Qle_bool 0 x then n else - n.

(** *** Strings *)

Fixpoint chars (s : string) : list ascii :=
  match s with
  | EmptyString => []
  | String c s' => c :: chars s'
  end.

Fixpoint unchars (l : list ascii) : string :=
  match l with
  | [] => EmptyString
  | c :: l' => String c (unchars l')
  end.

(** [s.startsWith(p)] *)
Definition startsWith (s p : string) : bool := String.prefix p s.

(** [s.includes(p)] *)
Fixpoint includes (s p : string) : bool :=
  String.prefix p s ||
  match s with
  | EmptyString => false
  | String _ s' => includes s' p
  end.

(** [s.split(sep)] for a non-empty separator: [skip] counts the characters
    of a separator occurrence still to be dropped, [cur] is the current
    piece, reversed. *)
Fixpoint split_go (sep : string) (skip : nat) (cur : list ascii) (s : string)
  : list string :=
  match s with
  | EmptyString => [unchars (rev cur)]
  | String c s' =>
      match skip with
      | S k => split_go sep k cur s'
      | O =>
          if String.prefix sep s
          then unchars (rev cur) :: split_go sep (String.length sep - 1) [] s'
          else split_go sep 0 (c :: cur) s'
      end
  end.

Definition split (s sep : string) : list string := split_go sep 0 [] s.

(** The white space removed by [trim] and skipped by [parseFloat], within
    ASCII. *)
Definition isWhiteSpace (c : ascii) : bool :=
  let n := nat_of_ascii c in
  (n =? 32)%nat || (n =? 9)%nat || (n =? 10)%nat || (n =? 11)%nat
  || (n =? 12)%nat || (n =? 13)%nat.

Fixpoint dropWhile {A} (f : A -> bool) (l : list A) : list A :=
  match l with
  | [] => []
  | x :: l' => if f x then dropWhile f l' else l
  end.

Definition trimStart (l : list ascii) : list ascii := dropWhile isWhiteSpace l.

Definition trim (s : string) : string :=
  unchars (rev (trimStart (rev (trimStart (chars s))))).

(** *** [parseFloat]

    The longest prefix, after leading white space, that is a decimal
    literal: an optional sign, digits with an optional fraction, and an
    optional exponent.  [None] stands for [NaN]; the literal [Infinity]
    is not read, the infinities being no numbers of the model. *)

Definition digit (c : ascii) : option Z :=
  let n := nat_of_ascii c in
  if ((48 <=? n)%nat && (n <=? 57)%nat)%bool then Some (Z.of_nat (n - 48)) else None.

(** Reads digits: the value read so far, how many digits, and the rest. *)
Fixpoint readDigits (acc : Z) (count : nat) (l : list ascii) : Z * nat * list ascii :=
  match l with
  | [] => (acc, count, [])
  | c :: l' =>
      match digit c with
      | Some d => readDigits (10 * acc + d)%Z (S count) l'
      | None => (acc, count, l)
      end
  end.

Definition pow10 (e : Z) : Q :=
  if (0 <=? e)%Z then inject_Z (10 ^ e) else / inject_Z (10 ^ (- e)).

Definition readExponent (l : list ascii) : Z :=
  match l with
  | c :: l' =>
      if (Ascii.eqb c "e" || Ascii.eqb c "E")%bool then
        let '(neg, l'') :=
          match l' with
          | s :: r =>
              if Ascii.eqb s "-" then (true, r)
              else if Ascii.eqb s "+" then (false, r) else (false, l')
          | [] => (false, l')
          end in
        let '(e, n, _) := readDigits 0 0 l'' in
        match n with
        | O => 0%Z
        | S _ => if neg then (- e)%Z else e
        end
      else 0%Z
  | [] => 0%Z
  end.

Definition parseUnsigned (l : list ascii) : option Q :=
  let '(ip, ni, r) := readDigits 0 0 l in
  let '(m, nf, r') :=
    match r with
    | c :: r1 =>
        if Ascii.eqb c "." then
          let '(m, nf, r2) := readDigits ip 0 r1 in
          match ni, nf with
          | O, O => (ip, O, r)
          | _, _ => (m, nf, r2)
          end
        else (ip, O, r)
    | [] => (ip, O, r)
    end in
  match ni, nf with
  | O, O => None
  | _, _ => Some (inject_Z m * pow10 (readExponent r' - Z.of_nat nf))
  end.

Definition parseFloat (s : string) : option Q :=
  match trimStart (chars s) with
  | c :: l =>
      if Ascii.eqb c "-" then option_map Qopp (parseUnsigned l)
      else if Ascii.eqb c "+" then parseUnsigned l
      else parseUnsigned (c :: l)
  | [] => None
  end.

(** [parseInt] without a radix: leading white space, an optional sign,
    then the digits, hexadecimal ones after [0x] or [0X] and decimal ones
    otherwise; the number read is a double; [None] stands for [NaN]. *)

Definition hexDigit (c : ascii) : option Z :=
  let n := nat_of_ascii c in
  if ((48 <=? n)%nat && (n <=? 57)%nat)%bool then Some (Z.of_nat (n - 48))
  else if ((97 <=? n)%nat && (n <=? 102)%nat)%bool then Some (Z.of_nat (n - 87))
  else if ((65 <=? n)%nat && (n <=? 70)%nat)%bool then Some (Z.of_nat (n - 55))
  else None.

Fixpoint readHexDigits (acc : Z) (count : nat) (l : list ascii) : Z * nat :=
  match l with
  | [] => (acc, count)
  | c :: l' =>
      match hexDigit c with
      | Some d => readHexDigits (16 * acc + d)%Z (S count) l'
      | None => (acc, count)
      end
  end.

Definition parseInt (s : string) : option Z :=
  let number (read : Z * nat) :=
    match snd read with
    | O => None
    | S _ => Some (Qfloor (double (inject_Z (fst read))))
    end in
  let decimal (l : list ascii) :=
    let '(v, n, _) := readDigits 0 0 l in number (v, n) in
  let read (l : list ascii) :=
    match l with
    | zero :: x :: l' =>
        if (Ascii.eqb zero "0" && (Ascii.eqb x "x" || Ascii.eqb x "X"))%bool
        then number (readHexDigits 0 0 l')
        else decimal l
    | _ => decimal l
    end in
  match trimStart (chars s) with
  | c :: l =>
      if Ascii.eqb c "-" then option_map Z.opp (read l)
      else if Ascii.eqb c "+" then read l
      else read (c :: l)
  | [] => None
  end.

(** *** [Array.prototype.sort] with the comparator [(a, b) => key(a) - key(b)]

    The sort is stable; a stable sort by a total preorder has exactly one
    result, here computed by insertion. *)
Section Sort.
Context {A : Type} (key : A -> Q).

Fixpoint insert (x : A) (l : list A) : list A :=
  match l with
  | [] => [x]
  | y :: l' => if Qle_bool (key x) (key y) then x :: l else y :: insert x l'
  end.

Fixpoint sortBy (l : list A) : list A :=
  match l with
  | [] => []
  | x :: l' => insert x (sortBy l')
  end.

End Sort.

(** [l[l.length - 1]] *)
Definition lastOf {A} (l : list A) : option A := List.last (map Some l) None.

End JS.

(** ** Reference data and requests

    The document store is a collaborator: each collection is a list of
    rows in the order queries return them, and [findMany] with a filter
    keeps the rows whose attributes equal the filter's values. *)

(** A row of [api::freight-calculation.freight-calculation]. *)
Module Calc.
Record t := mk { sub : Q; densityRange : string; assignedFreightClass : Q }.
End Calc.

(** A row of [api::freight-class-pricing.freight-class-pricing].  An
    absent [distance] or [breakpointValue] is [None]; [price] is a decimal
    attribute, which [parseFloat] returns unchanged. *)
Module Pricing.
Record t := mk {
  freightClass : Q;
  distance : option string;
  breakpointValue : option Q;
  price : Q }.
End Pricing.

(** A row of [api::warehouse.warehouse]. *)
Module Warehouse.
Record t := mk {
  documentId : Z;
  name : string;
  postalCode : option string;
  salesChannelId : option string }.
End Warehouse.

(** The single record of [api::discount-settings.discount-setting]. *)
Module Settings.
Record t := mk { isDiscountEnabled : bool; discountPercentage : Q }.
End Settings.

(** A box of the request; a field the request leaves out is [None]. *)
Module Box.
Record t := mk {
  length : option Q;
  width : option Q;
  height : option Q;
  weight : option Q }.
End Box.

(** [warehouse_id] of the request: a number or a string. *)
Inductive WarehouseId :=
| IdNumber (n : Z)
| IdString (s : string).

(** A cart line: its own measurements and those of its variant and
    product, each possibly absent. *)
Module Item.
Record t := mk {
  quantity : option Q;
  own : Box.t;
  variant : option Box.t;
  product : option Box.t }.
End Item.

Module Address.
Record t := mk { postal_code : option string; country_code : option string }.
End Address.

(** The cart of a request, typed as the signature of the service has it:
    [items] and [boxes] are absent or arrays, and a measurement is absent
    or a number.  A body that breaks these types, a text as [boxes] for
    one, is no cart of the model. *)
Module Cart.
Record t := mk {
  sales_channel_id : option string;
  warehouse_id : option WarehouseId;
  items : option (list Item.t);
  boxes : option (list Box.t);
  shipping_address : option Address.t }.
End Cart.

Record Strapi := {
  freightCalculations : list Calc.t;
  freightClassPricings : list Pricing.t;
  warehouses : list Warehouse.t;
  discountSetting : option Settings.t;
  medusaDiscountSetting : option Settings.t }.

(** A string that may be absent is truthy unless it is [null] or empty;
    [!s] is the negation. *)
Definition present (s : option string) : bool :=
  match s with
  | Some s' => negb (s' =? EmptyString)%string
  | None => false
  end.

(** A number that may be absent is truthy unless it is [null] or zero;
    [!x] is the negation. *)
Definition nonzero (x : option Q) : bool :=
  match x with
  | Some q => JS.truthy q
  | None => false
  end.

(** A value inside a template literal. *)
Definition text (s : option string) : string :=
  match s with
  | Some s' => s'
  | None => "null"
  end.

(** *** Thrown errors, by the data their messages carry *)

Inductive error :=
| TypeError
| BoxMissingFields
| ItemMissingFields
| ItemsOrBoxesRequired
| MissingDestination
| DistanceFailed
| NoWarehouses
| FailedOrigin (cause : error)
| NoFreightClass (density : Q)
| NoPricingData
| NoPricingFound (freightClass nearest distanceKm : Q)
                 (distanceRange : string) (weight : Q).

Inductive result (A : Type) :=
| Ok (a : A)
| Throw (e : error).
Arguments Ok {A} a.
Arguments Throw {A} e.

Definition bind {A B} (r : result A) (k : A -> result B) : result B :=
  match r with
  | Ok a => k a
  | Throw e => Throw e
  end.

Notation "x <- r ;; k" := (bind r (fun x => k))
  (at level 61, r at next level, right associativity).

(** *** The quote *)

Record PricingResult := { price : Q; ratePerCwt : Q }.

Record BoxQuote := {
  bq_weightLbs : Q;
  bq_cubicFeet : Q;
  bq_densityPcf : Q;
  bq_freightClass : Q;
  bq_distanceKm : Q;
  bq_rateSource : string;
  bq_ratePerCwt : Q;
  bq_currency : string;
  bq_price : Q;
  bq_lengthIn : Q;
  bq_widthIn : Q;
  bq_heightIn : Q }.

Record Quote := {
  q_destinationPostalCode : string;
  q_destinationCountry : string;
  q_warehouseId : Z;
  q_warehouseName : string;
  q_warehousePostalCode : option string;
  q_distanceKm : Q;
  q_boxes : list BoxQuote;
  q_subtotal : Q;
  q_discountPercent : Q;
  q_total : Q;
  q_currency : string }.

(** [[...new Set(l)]]: first occurrences, in order. *)
Fixpoint distinct (seen l : list Q) : list Q :=
  match l with
  | [] => []
  | x :: l' =>
      if existsb (JS.eqb x) seen then distinct seen l'
      else x :: distinct (x :: seen) l'
  end.

(** The rows that have a breakpoint, each with its breakpoint. *)
Definition withBreakpoint (pricings : list Pricing.t) : list (Q * Pricing.t) :=
  flat_map (fun p => match Pricing.breakpointValue p with
                     | Some b => [(b, p)]
                     | None => []
                     end) pricings.

(** The loop over the sorted breakpoints: the first row at or below the
    weight whose successor, if any, is above it. *)
Fixpoint matchingBreakpoint (weight : Q) (sorted : list (Q * Pricing.t))
  : option Pricing.t :=
  match sorted with
  | [] => None
  | (b, current) :: rest =>
      if (JS.geb weight b &&
          match rest with
          | [] => true
          | (next, _) :: _ => JS.ltb weight next
          end)%bool
      then Some current
      else matchingBreakpoint weight rest
  end.

(** [pDistance]: [p.distance?.toString() || ''] *)
Definition pDistance (p : Pricing.t) : string :=
  match Pricing.distance p with
  | Some s => s
  | None => EmptyString
  end.

(** The filter of the second lookup. *)
Definition rangeFilter (distance : string) (p : Pricing.t) : bool :=
  let rangeStart := JS.trim (nth 0 (JS.split distance "-") EmptyString) in
  ((pDistance p =? distance)%string
   || JS.startsWith (pDistance p) rangeStart
   || (pDistance p =? rangeStart)%string)%bool.

(** [if (warehouseId)] *)
Definition idGiven (warehouseId : option WarehouseId) : bool :=
  match warehouseId with
  | Some (IdNumber n) => negb (n =? 0)%Z
  | Some (IdString s) => negb (s =? EmptyString)%string
  | None => false
  end.

(** [typeof warehouseId === 'string' ? parseInt(warehouseId) : warehouseId] *)
Definition idNumber (warehouseId : option WarehouseId) : option Z :=
  match warehouseId with
  | Some (IdNumber n) => Some n
  | Some (IdString s) => JS.parseInt s
  | None => None
  end.

(** [findOne({ documentId })] on the warehouses. *)
Definition findWarehouse (strapi : Strapi) (documentId : option Z)
  : option Warehouse.t :=
  match documentId with
  | Some n => find (fun w => (Warehouse.documentId w =? n)%Z) (warehouses strapi)
  | None => None
  end.

(** [findMany({ filters: { salesChannelId } })] on the warehouses. *)
Definition warehousesOfChannel (strapi : Strapi) (salesChannelId : string)
  : list Warehouse.t :=
  filter (fun w => match Warehouse.salesChannelId w with
                   | Some c => (c =? salesChannelId)%string
                   | None => false
                   end) (warehouses strapi).

(** [findMany({ filters: { postalCode } })] on the warehouses. *)
Definition warehousesAt (strapi : Strapi) (postalCode : option string)
  : list Warehouse.t :=
  filter (fun w => match Warehouse.postalCode w, postalCode with
                   | Some a, Some b => (a =? b)%string
                   | None, None => true
                   | _, _ => false
                   end) (warehouses strapi).

(** The loop that looks for the closest warehouse, the same in both
    copies: the state is [(closestWarehouse, minDistance)], and [None] as
    [minDistance] is [Infinity].  A warehouse without a postal code and a
    warehouse whose distance request throws are passed over. *)
Fixpoint closestLoop (calculateDistance : string -> string -> option Q)
  (destAddress : string) (ws : list Warehouse.t)
  (closestWarehouse : Warehouse.t) (minDistance : option Q) : Warehouse.t :=
  match ws with
  | [] => closestWarehouse
  | warehouse :: rest =>
      if negb (present (Warehouse.postalCode warehouse))
      then closestLoop calculateDistance destAddress rest closestWarehouse minDistance
      else
        let originAddress := text (Warehouse.postalCode warehouse) ++ " CA" in
        match calculateDistance originAddress destAddress with
        | Some distance =>
            if match minDistance with
               | Some m => JS.ltb distance m
               | None => true
               end
            then closestLoop calculateDistance destAddress rest warehouse (Some distance)
            else closestLoop calculateDistance destAddress rest closestWarehouse minDistance
        | None =>
            closestLoop calculateDistance destAddress rest closestWarehouse minDistance
        end
  end.

(** [a || b || c || 0] on numbers that may be absent. *)
Fixpoint firstTruthy (l : list (option Q)) : Q :=
  match l with
  | [] => 0
  | x :: l' => if nonzero x then match x with Some q => q | None => 0 end
               else firstTruthy l'
  end.

(** How often [for (let i = 0; i < quantity; i++)] runs. *)
Definition iterations (quantity : Q) : nat := Z.to_nat (Qceiling quantity).

(** [item.quantity || 1] *)
Definition quantityOf (item : Item.t) : Q :=
  if nonzero (Item.quantity item)
  then match Item.quantity item with Some q => q | None => 1 end
  else 1.

(** [settings?.isDiscountEnabled && settings?.discountPercentage
     ? settings.discountPercentage : 0] *)
Definition discountPercentOf (settings : option Settings.t) : Q :=
  match settings with
  | Some s =>
      if (Settings.isDiscountEnabled s
          && JS.truthy (Settings.discountPercentage s))%bool
      then Settings.discountPercentage s
      else 0
  | None => 0
  end.

(** ** The service of services/fulfillment.ts *)

Module Service.

(** [mapDistanceToRange]: a chain of upper-bound tests. *)
Definition mapDistanceToRange (distanceKm : Q) : string :=
  if JS.ltb distanceKm 100 then "0-99km"
  else if JS.ltb distanceKm 200 then "100-199km"
  else if JS.ltb distanceKm 300 then "200-299km"
  else if JS.ltb distanceKm 400 then "300-399km"
  else if JS.ltb distanceKm 500 then "400-499km"
  else if JS.ltb distanceKm 600 then "500-599km"
  else if JS.ltb distanceKm 700 then "600-699km"
  else if JS.ltb distanceKm 800 then "700-799km"
  else if JS.ltb distanceKm 900 then "800-899km"
  else if JS.ltb distanceKm 1000 then "900-999km"
  else "1000+km".

Definition mmToInches (mm : Q) : Q := mm * (393701 # 10000000).

Definition gramsToPounds (grams : Q) : Q := grams * (220462 # 100000000).

(** The boxes that reach [calculateDensity] have non-zero dimensions, so
    the divisor is not zero. *)
Definition calculateDensity (lengthMm widthMm heightMm weightGrams : Q) : Q :=
  if Qle_bool weightGrams 0 then 0
  else
    let lengthInches := mmToInches lengthMm in
    let widthInches := mmToInches widthMm in
    let heightInches := mmToInches heightMm in
    let weightPounds := gramsToPounds weightGrams in
    let cubicFeet := (lengthInches * widthInches * heightInches) / 1728 in
    weightPounds / cubicFeet.

Definition calculateCubicFeet (lengthMm widthMm heightMm : Q) : Q :=
  let lengthInches := mmToInches lengthMm in
  let widthInches := mmToInches widthMm in
  let heightInches := mmToInches heightMm in
  (lengthInches * widthInches * heightInches) / 1728.

Section WithStore.
Variable strapi : Strapi.
(** The distance collaborator: kilometres, or [None] when the request
    throws. *)
Variable calculateDistance : string -> string -> option Q.

(** The body of the loop of [findFreightClassByDensity]: whether the row
    returns. *)
Definition rowReturns (density : Q) (calc : Calc.t) : bool :=
  let range := Calc.densityRange calc in
  if ((range =? "Less than 1")%string && JS.ltb density 1)%bool then true
  else if JS.includes range "but less than" then
    let parts := JS.split range "but less than" in
    let min := JS.parseFloat (JS.trim (nth 0 parts EmptyString)) in
    let max := JS.parseFloat (JS.trim (nth 1 parts EmptyString)) in
    match min, max with
    | Some min, Some max => (JS.geb density min && JS.ltb density max)%bool
    | _, _ => false
    end
  else if ((range =? "50 or greater")%string && JS.geb density 50)%bool then true
  else false.

Fixpoint firstReturn (density : Q) (sorted : list Calc.t) : option Q :=
  match sorted with
  | [] => None
  | calc :: rest =>
      if rowReturns density calc then Some (Calc.assignedFreightClass calc)
      else firstReturn density rest
  end.

(** [None] is [null]. *)
Definition findFreightClassByDensity (density : Q) : option Q :=
  let calculations := freightCalculations strapi in
  let sorted := JS.sortBy Calc.sub calculations in
  match firstReturn density sorted with
  | Some c => Some c
  | None =>
      match JS.lastOf sorted with
      | Some calc =>
          if JS.truthy (Calc.assignedFreightClass calc)
          then Some (Calc.assignedFreightClass calc)
          else None
      | None => None
      end
  end.

(** Lines 174-202 of [findPriceAndRateByClassAndDistance]: the three
    lookups, each run when the one before returned no row. *)
Definition lookupPricings (freightClass : Q) (distance : string)
  : list Pricing.t :=
  let freightClassInt := JS.Math_round freightClass in
  let byClass :=
    filter (fun p => JS.eqb (Pricing.freightClass p) freightClassInt)
           (freightClassPricings strapi) in
  let pricings :=
    filter (fun p => match Pricing.distance p with
                     | Some d => (d =? distance)%string
                     | None => false
                     end) byClass in
  let pricings :=
    if ((List.length pricings =? 0)%nat && JS.includes distance "-")%bool
    then filter (rangeFilter distance) byClass
    else pricings in
  let pricings :=
    if (List.length pricings =? 0)%nat then byClass else pricings in
  pricings.

(** Lines 208-233: the choice of the row by weight. *)
Definition selectedPricing (pricings : list Pricing.t) (weight : Q)
  : option Pricing.t :=
  let sorted := JS.sortBy fst (withBreakpoint pricings) in
  let selectedPricing := matchingBreakpoint weight sorted in
  let selectedPricing :=
    match selectedPricing with
    | Some p => Some p
    | None => option_map snd (JS.lastOf sorted)
    end in
  match selectedPricing with
  | Some p => Some p
  | None => find (fun p => negb (nonzero (Pricing.breakpointValue p))) pricings
  end.

Definition findPriceAndRateByClassAndDistance
  (freightClass : Q) (distance : string) (weight : Q) : option PricingResult :=
  let pricings := lookupPricings freightClass distance in
  if (List.length pricings =? 0)%nat then None
  else
    match selectedPricing pricings weight with
    | None => None
    | Some selected =>
        let ratePerCwt := Pricing.price selected in
        let totalPrice := ratePerCwt * (weight / 100) in
        Some {| price := totalPrice; ratePerCwt := ratePerCwt |}
    end.

(** The nearest-class loop: the state is [(nearestClass, minDiff)]. *)
Fixpoint nearestLoop (calculatedFreightClass : Q) (availableClasses : list Q)
  (nearestClass minDiff : Q) : Q :=
  match availableClasses with
  | [] => nearestClass
  | availableClass :: rest =>
      let diff := JS.Math_abs (calculatedFreightClass - availableClass) in
      if JS.ltb diff minDiff
      then nearestLoop calculatedFreightClass rest availableClass diff
      else nearestLoop calculatedFreightClass rest nearestClass minDiff
  end.

(** Lines 635-677 of [calculateShippingForBoxes]: the price of a box of the
    class computed, then of the class rounded, then of the nearest class
    of the table; with the price comes the class it was found for. *)
Definition resolvePrice (calculatedFreightClass distanceKm : Q)
  (distanceRange : string) (weightPounds : Q) : result (PricingResult * Q) :=
  let freightClassUsed := calculatedFreightClass in
  let priceResult :=
    findPriceAndRateByClassAndDistance
      calculatedFreightClass distanceRange weightPounds in
  let '(priceResult, freightClassUsed) :=
    match priceResult with
    | None =>
        if JS.fractional calculatedFreightClass then
          let roundedClass := JS.Math_round calculatedFreightClass in
          match findPriceAndRateByClassAndDistance
                  roundedClass distanceRange weightPounds with
          | Some r => (Some r, roundedClass)
          | None => (None, freightClassUsed)
          end
        else (None, freightClassUsed)
    | Some r => (Some r, freightClassUsed)
    end in
  match priceResult with
  | Some r => Ok (r, freightClassUsed)
  | None =>
      let allPricings := freightClassPricings strapi in
      let availableClasses :=
        JS.sortBy (fun c => c)
          (distinct [] (map Pricing.freightClass allPricings)) in
      match availableClasses with
      | [] => Throw NoPricingData
      | first :: _ =>
          let nearestClass :=
            nearestLoop calculatedFreightClass availableClasses first
              (JS.Math_abs (calculatedFreightClass - first)) in
          match findPriceAndRateByClassAndDistance
                  nearestClass distanceRange weightPounds with
          | None =>
              Throw (NoPricingFound calculatedFreightClass nearestClass
                       distanceKm distanceRange weightPounds)
          | Some r => Ok (r, nearestClass)
          end
      end
  end.

(** The body of the loop over the boxes: the box's quote and its
    unrounded price. *)
Definition quoteBox (distanceKm : Q) (distanceRange : string) (box : Box.t)
  : result (BoxQuote * Q) :=
  match Box.length box, Box.width box, Box.height box, Box.weight box with
  | Some length, Some width, Some height, Some weight =>
    if negb (JS.truthy length && JS.truthy width
             && JS.truthy height && JS.truthy weight)
    then Throw BoxMissingFields
    else
      let lengthInches := mmToInches length in
      let widthInches := mmToInches width in
      let heightInches := mmToInches height in
      let cubicFeet := calculateCubicFeet length width height in
      let density := calculateDensity length width height weight in
      let weightPounds := gramsToPounds weight in
      match findFreightClassByDensity density with
      | None => Throw (NoFreightClass density)
      | Some calculatedFreightClass =>
        if negb (JS.truthy calculatedFreightClass)
        then Throw (NoFreightClass density)
        else
          r <- resolvePrice calculatedFreightClass distanceKm distanceRange
                            weightPounds ;;
          let '(priceResult, freightClassUsed) := r in
          Ok ({| bq_weightLbs := JS.toFixed 2 weightPounds;
                 bq_cubicFeet := JS.toFixed 14 cubicFeet;
                 bq_densityPcf := JS.toFixed 14 density;
                 bq_freightClass := freightClassUsed;
                 bq_distanceKm := JS.toFixed 3 distanceKm;
                 bq_rateSource := "STRAPI_TABLE";
                 bq_ratePerCwt := JS.toFixed 1 (ratePerCwt priceResult);
                 bq_currency := "CAD";
                 bq_price := JS.toFixed 2 (price priceResult);
                 bq_lengthIn := JS.toFixed 2 lengthInches;
                 bq_widthIn := JS.toFixed 2 widthInches;
                 bq_heightIn := JS.toFixed 2 heightInches |},
              price priceResult)
      end
  | _, _, _, _ => Throw BoxMissingFields
  end.

(** The loop over the boxes: the state is [(boxResults, subtotal)]. *)
Fixpoint forBoxes (distanceKm : Q) (distanceRange : string) (boxes : list Box.t)
  (boxResults : list BoxQuote) (subtotal : Q) : result (list BoxQuote * Q) :=
  match boxes with
  | [] => Ok (boxResults, subtotal)
  | box :: rest =>
      r <- quoteBox distanceKm distanceRange box ;;
      forBoxes distanceKm distanceRange rest
               (boxResults ++ [fst r]) (subtotal + snd r)
  end.

Definition calculateShippingForBoxes (boxes : list Box.t) (distanceKm : Q)
  (distanceRange : string) (originPostalCode : option string)
  (destinationPostalCode destinationCountry : string) : result Quote :=
  let found := warehousesAt strapi originPostalCode in
  let warehouse := hd_error found in
  r <- forBoxes distanceKm distanceRange boxes [] 0 ;;
  let '(boxResults, subtotal) := r in
  let settings := discountSetting strapi in
  let discountPercent := discountPercentOf settings in
  let discountAmount := subtotal * (discountPercent / 100) in
  let total := JS.toFixed 3 (subtotal - discountAmount) in
  Ok {| q_destinationPostalCode := destinationPostalCode;
        q_destinationCountry := destinationCountry;
        q_warehouseId :=
          match warehouse with Some w => Warehouse.documentId w | None => 0%Z end;
        q_warehouseName :=
          match warehouse with
          | Some w => if (Warehouse.name w =? EmptyString)%string
                      then "Unknown Warehouse" else Warehouse.name w
          | None => "Unknown Warehouse"
          end;
        q_warehousePostalCode := originPostalCode;
        q_distanceKm := JS.toFixed 3 distanceKm;
        q_boxes := boxResults;
        q_subtotal := JS.toFixed 3 subtotal;
        q_discountPercent := discountPercent;
        q_total := total;
        q_currency := "CAD" |}.

(** [getOriginPostalCode]; the postal code returned may be [null]. *)
Definition getOriginPostalCode (salesChannelId destinationPostalCode : option string)
  (warehouseId : option WarehouseId) : result (option string) :=
  let attempt : result (option string) :=
    let byId :=
      if idGiven warehouseId then
        match findWarehouse strapi (idNumber warehouseId) with
        | Some warehouse =>
            if present (Warehouse.postalCode warehouse)
            then Some (Warehouse.postalCode warehouse) else None
        | None => None
        end
      else None in
    match byId with
    | Some postalCode => Ok postalCode
    | None =>
      let byChannel :=
        if present salesChannelId then
          match warehousesOfChannel strapi (text salesChannelId) with
          | first :: _ => Some (Warehouse.postalCode first)
          | [] => None
          end
        else None in
      match byChannel with
      | Some postalCode => Ok postalCode
      | None =>
        let byDistance :=
          if present destinationPostalCode then
            match warehouses strapi with
            | [] => None
            | [only] => Some (Warehouse.postalCode only)
            | first :: _ =>
                let destAddress := text destinationPostalCode ++ " CA" in
                let closestWarehouse :=
                  closestLoop calculateDistance destAddress (warehouses strapi)
                              first None in
                Some (Warehouse.postalCode closestWarehouse)
            end
          else None in
        match byDistance with
        | Some postalCode => Ok postalCode
        | None =>
            match warehouses strapi with
            | first :: _ => Ok (Warehouse.postalCode first)
            | [] => Throw NoWarehouses
            end
        end
      end
    end in
  match attempt with
  | Ok postalCode => Ok postalCode
  | Throw e => Throw (FailedOrigin e)
  end.

(** The loop over the cart lines of [calculateShipping]. *)
Fixpoint itemsToBoxes (items : list Item.t) (boxes : list Box.t)
  : result (list Box.t) :=
  match items with
  | [] => Ok boxes
  | item :: rest =>
      let quantity := quantityOf item in
      let dimension (f : Box.t -> option Q) :=
        firstTruthy [f (Item.own item);
                     match Item.variant item with Some v => f v | None => None end;
                     match Item.product item with Some v => f v | None => None end] in
      let length := dimension Box.length in
      let width := dimension Box.width in
      let height := dimension Box.height in
      let weight := dimension Box.weight in
      if negb (JS.truthy length && JS.truthy width
               && JS.truthy height && JS.truthy weight)
      then Throw ItemMissingFields
      else
        itemsToBoxes rest
          (boxes ++ repeat (Box.mk (Some length) (Some width)
                                   (Some height) (Some weight))
                           (iterations quantity))
  end.

Definition calculateShipping (cart : Cart.t) : result Quote :=
  match Cart.shipping_address cart with
  | None => Throw TypeError
  | Some address =>
    let destinationPostalCode := Address.postal_code address in
    if negb (present destinationPostalCode) then Throw MissingDestination
    else
      originPostalCode <-
        getOriginPostalCode (Cart.sales_channel_id cart) destinationPostalCode
                            (Cart.warehouse_id cart) ;;
      let originAddress := text originPostalCode ++ " CA" in
      let destinationAddress := text destinationPostalCode ++ " CA" in
      match calculateDistance originAddress destinationAddress with
      | None => Throw DistanceFailed
      | Some distanceKm =>
        let distanceRange := mapDistanceToRange distanceKm in
        let destinationCountry :=
          if present (Address.country_code address)
          then text (Address.country_code address) else "CA" in
        match Cart.boxes cart with
        | Some (box :: more) =>
            calculateShippingForBoxes (box :: more) distanceKm distanceRange
              originPostalCode (text destinationPostalCode) destinationCountry
        | _ =>
            match Cart.items cart with
            | Some (item :: more) =>
                boxes <- itemsToBoxes (item :: more) [] ;;
                calculateShippingForBoxes boxes distanceKm distanceRange
                  originPostalCode (text destinationPostalCode) destinationCountry
            | _ => Throw ItemsOrBoxesRequired
            end
        end
      end
  end.

End WithStore.

End Service.

(** ** The refactored copy of the service *)

Module Refactored.

(** The table of [mapDistanceToRange]. *)
Definition ranges : list (Q * Q * string) :=
  [ (0, 99, "0-99km"); (100, 199, "100-199km"); (200, 299, "200-299km");
    (300, 399, "300-399km"); (400, 499, "400-499km"); (500, 599, "500-599km");
    (600, 699, "600-699km"); (700, 799, "700-799km"); (800, 899, "800-899km");
    (900, 999, "900-999km") ].

Fixpoint firstRange (rs : list (Q * Q * string)) (distanceKm : Q) : string :=
  match rs with
  | [] => "1000+km"
  | (min, max, range) :: rs' =>
      if (JS.geb distanceKm min && JS.ltb distanceKm max)%bool then range
      else firstRange rs' distanceKm
  end.

Definition mapDistanceToRange (distanceKm : Q) : string :=
  firstRange ranges distanceKm.

Definition calculateCubicFeet (lengthIn widthIn heightIn : Q) : Q :=
  (lengthIn * widthIn * heightIn) / 1728.

Definition calculateDensity (lengthIn widthIn heightIn weightLb : Q) : Q :=
  if Qle_bool weightLb 0 then 0
  else weightLb / calculateCubicFeet lengthIn widthIn heightIn.

Section WithStore.
Variable strapi : Strapi.
Variable calculateDistance : string -> string -> option Q.

(** The body of the loop of [findFreightClassByDensity]: three tests in a
    row, each returning when it holds. *)
Definition rowReturns (density : Q) (calc : Calc.t) : bool :=
  let range := Calc.densityRange calc in
  if ((range =? "Less than 1")%string && JS.ltb density 1)%bool then true
  else if (JS.includes range "but less than" &&
           let parts := JS.split range "but less than" in
           let min := JS.parseFloat (JS.trim (nth 0 parts EmptyString)) in
           let max := JS.parseFloat (JS.trim (nth 1 parts EmptyString)) in
           match min, max with
           | Some min, Some max => JS.geb density min && JS.ltb density max
           | _, _ => false
           end)%bool then true
  else if ((range =? "50 or greater")%string && JS.geb density 50)%bool then true
  else false.

Fixpoint firstReturn (density : Q) (sorted : list Calc.t) : option Q :=
  match sorted with
  | [] => None
  | calc :: rest =>
      if rowReturns density calc then Some (Calc.assignedFreightClass calc)
      else firstReturn density rest
  end.

Definition findFreightClassByDensity (density : Q) : option Q :=
  let calculations := freightCalculations strapi in
  let sorted := JS.sortBy Calc.sub calculations in
  match firstReturn density sorted with
  | Some c => Some c
  | None =>
      match JS.lastOf sorted with
      | Some calc =>
          if JS.truthy (Calc.assignedFreightClass calc)
          then Some (Calc.assignedFreightClass calc)
          else None
      | None => None
      end
  end.

Definition findPricingEntries (freightClass : Q) (distance : string)
  : list Pricing.t :=
  let freightClassInt := JS.Math_round freightClass in
  let byClass :=
    filter (fun p => JS.eqb (Pricing.freightClass p) freightClassInt)
           (freightClassPricings strapi) in
  let pricings :=
    filter (fun p => match Pricing.distance p with
                     | Some d => (d =? distance)%string
                     | None => false
                     end) byClass in
  let pricings :=
    if ((List.length pricings =? 0)%nat && JS.includes distance "-")%bool
    then filter (rangeFilter distance) byClass
    else pricings in
  if (List.length pricings =? 0)%nat then byClass else pricings.

Definition selectPricingByWeight (pricings : list Pricing.t) (weight : Q)
  : option Pricing.t :=
  let sorted := JS.sortBy fst (withBreakpoint pricings) in
  match matchingBreakpoint weight sorted with
  | Some current => Some current
  | None =>
      match JS.lastOf sorted with
      | Some last => Some (snd last)
      | None =>
          find (fun p => negb (nonzero (Pricing.breakpointValue p))) pricings
      end
  end.

Definition findPriceAndRateByClassAndDistance
  (freightClass : Q) (distance : string) (weight : Q) : option PricingResult :=
  let pricings := findPricingEntries freightClass distance in
  if (List.length pricings =? 0)%nat then None
  else
    match selectPricingByWeight pricings weight with
    | None => None
    | Some selectedPricing =>
        let ratePerCwt := Pricing.price selectedPricing in
        Some {| price := ratePerCwt * (weight / 100); ratePerCwt := ratePerCwt |}
    end.

Definition getAllWarehouses : list Warehouse.t := warehouses strapi.

Definition findClosestWarehouse (destinationPostalCode : string)
  : option Warehouse.t :=
  match getAllWarehouses with
  | [] => None
  | [only] => Some only
  | first :: _ =>
      let destAddress := destinationPostalCode ++ " CA" in
      Some (closestLoop calculateDistance destAddress getAllWarehouses first None)
  end.

Definition getOriginPostalCode (salesChannelId destinationPostalCode : option string)
  (warehouseId : option WarehouseId) : result (option string) :=
  let byId :=
    if idGiven warehouseId then
      match findWarehouse strapi (idNumber warehouseId) with
      | Some warehouse =>
          if present (Warehouse.postalCode warehouse)
          then Some (Warehouse.postalCode warehouse) else None
      | None => None
      end
    else None in
  match byId with
  | Some postalCode => Ok postalCode
  | None =>
    let byChannel :=
      if present salesChannelId then
        match warehousesOfChannel strapi (text salesChannelId) with
        | first :: _ =>
            if present (Warehouse.postalCode first)
            then Some (Warehouse.postalCode first) else None
        | [] => None
        end
      else None in
    match byChannel with
    | Some postalCode => Ok postalCode
    | None =>
      let byDistance :=
        if present destinationPostalCode then
          match findClosestWarehouse (text destinationPostalCode) with
          | Some closestWarehouse =>
              if present (Warehouse.postalCode closestWarehouse)
              then Some (Warehouse.postalCode closestWarehouse) else None
          | None => None
          end
        else None in
      match byDistance with
      | Some postalCode => Ok postalCode
      | None =>
          match getAllWarehouses with
          | first :: _ =>
              if present (Warehouse.postalCode first)
              then Ok (Warehouse.postalCode first)
              else Throw NoWarehouses
          | [] => Throw NoWarehouses
          end
      end
    end
  end.

Fixpoint convertItemsToBoxes (items : list Item.t) (boxes : list Box.t)
  : result (list Box.t) :=
  match items with
  | [] => Ok boxes
  | item :: rest =>
      let quantity := quantityOf item in
      let product :=
        match Item.product item, Item.variant item with
        | Some p, _ => p
        | None, Some v => v
        | None, None => Item.own item
        end in
      if negb (nonzero (Box.length product) && nonzero (Box.width product)
               && nonzero (Box.height product) && nonzero (Box.weight product))
      then Throw ItemMissingFields
      else convertItemsToBoxes rest (boxes ++ repeat product (iterations quantity))
  end.

(** Lines 658-696 of [calculateShippingForBoxes]: the price of a box of the
    class computed, then of the class rounded, then of the nearest class
    of the table; with the price comes the class it was found for. *)
Definition resolvePrice (freightClass distanceKm : Q)
  (distanceRange : string) (weight : Q) : result (PricingResult * Q) :=
  let priceResult :=
    findPriceAndRateByClassAndDistance freightClass distanceRange weight in
  let freightClassUsed := freightClass in
  let '(priceResult, freightClassUsed) :=
    match priceResult with
    | None =>
        if JS.fractional freightClass then
          let roundedClass := JS.Math_round freightClass in
          match findPriceAndRateByClassAndDistance
                  roundedClass distanceRange weight with
          | Some r => (Some r, roundedClass)
          | None => (None, freightClassUsed)
          end
        else (None, freightClassUsed)
    | Some r => (Some r, freightClassUsed)
    end in
  match priceResult with
  | Some r => Ok (r, freightClassUsed)
  | None =>
      let allPricings := freightClassPricings strapi in
      let availableClasses :=
        JS.sortBy (fun c => c)
          (distinct [] (map Pricing.freightClass allPricings)) in
      match availableClasses with
      | [] => Throw NoPricingData
      | first :: _ =>
          let nearestClass :=
            fold_left
              (fun nearest current =>
                 if JS.ltb (JS.Math_abs (current - freightClass))
                           (JS.Math_abs (nearest - freightClass))
                 then current else nearest)
              availableClasses first in
          match findPriceAndRateByClassAndDistance
                  nearestClass distanceRange weight with
          | None =>
              Throw (NoPricingFound freightClass nearestClass
                       distanceKm distanceRange weight)
          | Some r => Ok (r, nearestClass)
          end
      end
  end.

(** The body of the loop over the boxes: the box's quote and its
    unrounded price. *)
Definition quoteBox (distanceKm : Q) (distanceRange : string) (box : Box.t)
  : result (BoxQuote * Q) :=
  match Box.length box, Box.width box, Box.height box, Box.weight box with
  | Some length, Some width, Some height, Some weight =>
    if negb (JS.truthy length && JS.truthy width
             && JS.truthy height && JS.truthy weight)
    then Throw BoxMissingFields
    else
      let cubicFeet := calculateCubicFeet length width height in
      let density := calculateDensity length width height weight in
      match findFreightClassByDensity density with
      | None => Throw (NoFreightClass density)
      | Some freightClass =>
        if negb (JS.truthy freightClass)
        then Throw (NoFreightClass density)
        else
          r <- resolvePrice freightClass distanceKm distanceRange weight ;;
          let '(priceResult, freightClassUsed) := r in
          Ok ({| bq_weightLbs := JS.toFixed 2 weight;
                 bq_cubicFeet := JS.toFixed 14 cubicFeet;
                 bq_densityPcf := JS.toFixed 14 density;
                 bq_freightClass := freightClassUsed;
                 bq_distanceKm := JS.toFixed 3 distanceKm;
                 bq_rateSource := "STRAPI_TABLE";
                 bq_ratePerCwt := JS.toFixed 1 (ratePerCwt priceResult);
                 bq_currency := "CAD";
                 bq_price := JS.toFixed 2 (price priceResult);
                 bq_lengthIn := JS.toFixed 2 length;
                 bq_widthIn := JS.toFixed 2 width;
                 bq_heightIn := JS.toFixed 2 height |},
              price priceResult)
      end
  | _, _, _, _ => Throw BoxMissingFields
  end.

Fixpoint forBoxes (distanceKm : Q) (distanceRange : string) (boxes : list Box.t)
  (boxResults : list BoxQuote) (subtotal : Q) : result (list BoxQuote * Q) :=
  match boxes with
  | [] => Ok (boxResults, subtotal)
  | box :: rest =>
      r <- quoteBox distanceKm distanceRange box ;;
      forBoxes distanceKm distanceRange rest
               (boxResults ++ [fst r]) (subtotal + snd r)
  end.

Definition calculateShippingForBoxes (boxes : list Box.t) (distanceKm : Q)
  (distanceRange : string) (originPostalCode : option string)
  (destinationPostalCode destinationCountry : string) : result Quote :=
  let found := warehousesAt strapi originPostalCode in
  let warehouse := hd_error found in
  r <- forBoxes distanceKm distanceRange boxes [] 0 ;;
  let '(boxResults, subtotal) := r in
  let settings := discountSetting strapi in
  let discountPercent := discountPercentOf settings in
  let discountAmount := subtotal * (discountPercent / 100) in
  let total := JS.toFixed 3 (subtotal - discountAmount) in
  Ok {| q_destinationPostalCode := destinationPostalCode;
        q_destinationCountry := destinationCountry;
        q_warehouseId :=
          match warehouse with Some w => Warehouse.documentId w | None => 0%Z end;
        q_warehouseName :=
          match warehouse with
          | Some w => if (Warehouse.name w =? EmptyString)%string
                      then "Unknown Warehouse" else Warehouse.name w
          | None => "Unknown Warehouse"
          end;
        q_warehousePostalCode := originPostalCode;
        q_distanceKm := JS.toFixed 3 distanceKm;
        q_boxes := boxResults;
        q_subtotal := JS.toFixed 3 subtotal;
        q_discountPercent := discountPercent;
        q_total := total;
        q_currency := "CAD" |}.

Definition calculateShipping (cart : Cart.t) : result Quote :=
  match Cart.shipping_address cart with
  | None => Throw TypeError
  | Some address =>
    let destinationPostalCode := Address.postal_code address in
    if negb (present destinationPostalCode) then Throw MissingDestination
    else
      originPostalCode <-
        getOriginPostalCode (Cart.sales_channel_id cart) destinationPostalCode
                            (Cart.warehouse_id cart) ;;
      let originAddress := text originPostalCode ++ " CA" in
      let destinationAddress := text destinationPostalCode ++ " CA" in
      match calculateDistance originAddress destinationAddress with
      | None => Throw DistanceFailed
      | Some distanceKm =>
        let distanceRange := mapDistanceToRange distanceKm in
        let destinationCountry :=
          if present (Address.country_code address)
          then text (Address.country_code address) else "CA" in
        boxes <-
          match Cart.boxes cart with
          | Some (box :: more) => Ok (box :: more)
          | _ =>
              convertItemsToBoxes
                (match Cart.items cart with Some items => items | None => [] end) []
          end ;;
        match boxes with
        | [] => Throw ItemsOrBoxesRequired
        | _ :: _ =>
            calculateShippingForBoxes boxes distanceKm distanceRange
              originPostalCode (text destinationPostalCode) destinationCountry
        end
      end
  end.

End WithStore.

End Refactored.

(** ** The rate API and the controllers

    The rate API is a collaborator; a session records what it answers to
    the requests of one call of the controller. *)

Module Medusa.

(** A rate of the reply: [total] absent is [None]; a [total] whose [value]
    is absent is [Some None]. *)
Record Rate := { total : option (option Q) }.

(** The reply to one [GET /rate/:id]. *)
Inductive Poll :=
| PollThrows
| PollNoStatus
| PollPending
| PollDone (rates : list Rate).

(** What the rate API does in one call of the controller: whether the
    key is configured, the services it lists, whether the rate request
    succeeds, and the polling.  The timer of the polling sends a request
    at every tick and does not wait for the reply: [polls n] is the reply
    to the request of the [n]-th tick, counted from one, and [ticks]
    tells when the replies come in: its [n]-th entry lists the requests
    whose replies come in after the [n]-th tick and before the next, in
    the order they come in.  A reply that never comes in is listed
    nowhere; after the last entry no reply comes in. *)
Record Session := {
  apiKey : bool;
  services : option (list string);
  rateRequest : bool;
  polls : nat -> Poll;
  ticks : list (list nat) }.

Definition maxAttempts : nat := 30.

(** [Math.floor(medusaPriceInCents * 1.15) / 100]: the floor is taken of
    the product as the doubles give it, which can lie just below the
    exact product (114.99999999999999 for 100 cents). *)
Definition markup (medusaPriceInCents : Q) : Q :=
  JS.double
    (JS.Math_floor (JS.double (medusaPriceInCents * JS.double (115 # 100)))
     / 100).

End Medusa.

(** How the [try] block of a controller goes: it never ends, the polling
    promise not resolving; or it ends, and leaves [medusaPrice] as
    [null], having thrown, or leaves a price, [None] for [NaN], and a
    discount percentage. *)
Inductive Attempt :=
| AttemptWaits
| AttemptEnds (medusa : option (option Q * Q)).

Inductive BadRequestReason :=
| CartRequired
| ItemsOrBoxesArrayRequired
| BoxIsMissingFields (number : nat)
| AddressRequired
| PostalCodeRequired.

(** The body of a reply; a price that is [NaN] is [None]. *)
Record MedusaBody := {
  mb_destinationPostalCode : string;
  mb_destinationCountry : string;
  mb_warehouseId : Z;
  mb_warehouseName : string;
  mb_warehousePostalCode : option string;
  mb_distanceKm : Q;
  mb_subtotal : option Q;
  mb_source : string;
  mb_discountPercent : Q;
  mb_total : option Q;
  mb_currency : string }.

(** What the handler does with a request; [Unanswered]: it never
    answers. *)
Inductive Response :=
| BadRequest (reason : BadRequestReason)
| InternalError (e : error)
| FromMedusa (body : MedusaBody)
| FromStrapi (quote : Quote) (source : string)
| Unanswered.

(** [!box.length || !box.width || !box.height || !box.weight] *)
Definition boxIncomplete (box : Box.t) : bool :=
  negb (nonzero (Box.length box) && nonzero (Box.width box)
        && nonzero (Box.height box) && nonzero (Box.weight box)).

(** The loop over [cart.boxes] of the controllers: the number, counted
    from [i + 1], of the first box that is rejected. *)
Fixpoint firstIncomplete (i : nat) (boxes : list Box.t) : option nat :=
  match boxes with
  | [] => None
  | box :: rest =>
      if boxIncomplete box then Some (i + 1)%nat
      else firstIncomplete (S i) rest
  end.

(** Whether [!l || !Array.isArray(l) || l.length === 0]. *)
Definition noEntries {A} (l : option (list A)) : bool :=
  match l with
  | Some (_ :: _) => false
  | _ => true
  end.

(** The discount of the rate API's price, each operation giving a
    double; [None] is [NaN]. *)
Definition medusaDiscount (settings : option Settings.t) (medusaPrice : option Q)
  : option Q * Q :=
  match settings with
  | Some s =>
      if (Settings.isDiscountEnabled s
          && JS.truthy (Settings.discountPercentage s))%bool
      then
        let medusaDiscountPercent := Settings.discountPercentage s in
        (option_map
           (fun medusaPrice =>
              let discountAmount :=
                JS.double (medusaPrice * JS.double (medusaDiscountPercent / 100)) in
              JS.Math_max 0 (JS.double (medusaPrice - discountAmount)))
           medusaPrice,
         medusaDiscountPercent)
      else (medusaPrice, 0)
  | None => (medusaPrice, 0)
  end.

(** The last statement of both controllers. *)
Definition respond (medusa : option (option Q * Q)) (strapiResult : Quote)
  : Response :=
  match medusa with
  | Some (medusaPrice, medusaDiscountPercent) =>
      FromMedusa
        {| mb_destinationPostalCode := q_destinationPostalCode strapiResult;
           mb_destinationCountry := q_destinationCountry strapiResult;
           mb_warehouseId := q_warehouseId strapiResult;
           mb_warehouseName := q_warehouseName strapiResult;
           mb_warehousePostalCode := q_warehousePostalCode strapiResult;
           mb_distanceKm := q_distanceKm strapiResult;
           mb_subtotal := option_map (JS.toFixed 3) medusaPrice;
           mb_source := "MEDUSA_API";
           mb_discountPercent := medusaDiscountPercent;
           mb_total := option_map (JS.toFixed 3) medusaPrice;
           mb_currency := "CAD" |}
  | None => FromStrapi strapiResult "STRAPI_TABLE"
  end.

(** *** The controller of controllers/fulfillment.ts *)

Module Controller.

Definition SALES_CHANNEL_POSTAL_CODES : list (string * string) :=
  [ ("sc_01GY1TR8XSSA865FXVJDQR9XCZ", "H2K 4P5");
    ("sc_01H54KV0V84HGG6PZD06T3J8C4", "L0L 1P0");
    ("sc_01H54KTSHXG7TYSRN9XND4HHQB", "J3E 0C4") ].

Definition channelPostalCode (salesChannelId : string) : option string :=
  option_map snd
    (find (fun e => (fst e =? salesChannelId)%string) SALES_CHANNEL_POSTAL_CODES).

Section WithWorld.
Variable strapi : Strapi.
Variable calculateDistance : string -> string -> option Q.
Variable medusa : Medusa.Session.

(** Lines 49-69: the origin sent to the rate API. *)
Definition originPostalCode (cart : Cart.t) : result (option string) :=
  if idGiven (Cart.warehouse_id cart) then
    match findWarehouse strapi (idNumber (Cart.warehouse_id cart)) with
    | Some warehouse =>
        if present (Warehouse.postalCode warehouse)
        then Ok (Warehouse.postalCode warehouse)
        else
          match channelPostalCode
                  (match Cart.sales_channel_id cart with
                   | Some c => c | None => EmptyString end) with
          | Some pc => Ok (Some pc)
          | None => Ok (Some "H2K 4P5")
          end
    | None =>
        match channelPostalCode
                (match Cart.sales_channel_id cart with
                 | Some c => c | None => EmptyString end) with
        | Some pc => Ok (Some pc)
        | None => Ok (Some "H2K 4P5")
        end
    end
  else
    match (if present (Cart.sales_channel_id cart)
           then channelPostalCode (text (Cart.sales_channel_id cart))
           else None) with
    | Some pc => Ok (Some pc)
    | None =>
        Service.getOriginPostalCode strapi calculateDistance
          (Cart.sales_channel_id cart)
          (match Cart.shipping_address cart with
           | Some a => Address.postal_code a | None => None end)
          (Cart.warehouse_id cart)
    end.

(** The callback of the timer after its [await], run on the replies that
    come in while [attempts] ticks have been counted, in their order: the
    rates the promise is resolved with by the first reply that resolves
    it, [None] when none of them does.  A reply without a status makes
    [response.status.done] throw, which the [catch] turns into no rates. *)
Fixpoint settle (attempts : nat) (arrived : list nat)
  : option (list Medusa.Rate) :=
  match arrived with
  | [] => None
  | request :: later =>
      match Medusa.polls medusa request with
      | Medusa.PollDone rates => Some rates
      | Medusa.PollPending =>
          if (Medusa.maxAttempts <=? attempts)%nat then Some []
          else settle attempts later
      | Medusa.PollNoStatus => Some []
      | Medusa.PollThrows => Some []
      end
  end.

(** The polling promise, [attempts] ticks counted so far: every tick adds
    one to [attempts], and the replies that come in before the next tick
    are handled; [None] when the promise is never resolved. *)
Fixpoint poll (ticks : list (list nat)) (attempts : nat)
  : option (list Medusa.Rate) :=
  match ticks with
  | [] => None
  | arrived :: later =>
      let attempts := S attempts in
      match settle attempts arrived with
      | Some rates => Some rates
      | None => poll later attempts
      end
  end.

(** The [try] block.  Of the request sent only its success matters
    here. *)
Definition medusaAttempt : Attempt :=
  if negb (Medusa.apiKey medusa) then AttemptEnds None
  else
    match Medusa.services medusa with
    | None => AttemptEnds None
    | Some [] => AttemptEnds None
    | Some (_ :: _) =>
        if negb (Medusa.rateRequest medusa) then AttemptEnds None
        else
          match poll (Medusa.ticks medusa) 0 with
          | None => AttemptWaits
          | Some [] => AttemptEnds None
          | Some (rate :: _) =>
              match Medusa.total rate with
              | None => AttemptEnds None
              | Some value =>
                  let medusaPrice := option_map Medusa.markup value in
                  AttemptEnds
                    (Some (medusaDiscount (medusaDiscountSetting strapi)
                                          medusaPrice))
              end
          end
    end.

Definition calculateShipping (cart : option Cart.t) : Response :=
  match cart with
  | None => BadRequest CartRequired
  | Some cart =>
    if (noEntries (Cart.items cart) && noEntries (Cart.boxes cart))%bool
    then BadRequest ItemsOrBoxesArrayRequired
    else
      match (match Cart.boxes cart with
             | Some boxes => firstIncomplete 0 boxes
             | None => None
             end) with
      | Some number => BadRequest (BoxIsMissingFields number)
      | None =>
        match Cart.shipping_address cart with
        | None => BadRequest AddressRequired
        | Some address =>
          if negb (present (Address.postal_code address))
          then BadRequest PostalCodeRequired
          else
            match originPostalCode cart with
            | Throw e => InternalError e
            | Ok _ =>
                match medusaAttempt with
                | AttemptWaits => Unanswered
                | AttemptEnds medusaResult =>
                    match Service.calculateShipping strapi calculateDistance cart with
                    | Throw e => InternalError e
                    | Ok strapiResult => respond medusaResult strapiResult
                    end
                end
            end
        end
      end
  end.

End WithWorld.

End Controller.

(** *** The controller that goes with the refactored service *)

Module RefactoredController.

Section WithWorld.
Variable strapi : Strapi.
Variable calculateDistance : string -> string -> option Q.
Variable medusa : Medusa.Session.

(** The callback of the timer after its [await]: here a reply without a
    status is one that is not done, [response.status?.done] being
    [undefined]. *)
Fixpoint settle (attempts : nat) (arrived : list nat)
  : option (list Medusa.Rate) :=
  match arrived with
  | [] => None
  | request :: later =>
      match Medusa.polls medusa request with
      | Medusa.PollDone rates => Some rates
      | Medusa.PollPending | Medusa.PollNoStatus =>
          if (Medusa.maxAttempts <=? attempts)%nat then Some []
          else settle attempts later
      | Medusa.PollThrows => Some []
      end
  end.

Fixpoint poll (ticks : list (list nat)) (attempts : nat)
  : option (list Medusa.Rate) :=
  match ticks with
  | [] => None
  | arrived :: later =>
      let attempts := S attempts in
      match settle attempts arrived with
      | Some rates => Some rates
      | None => poll later attempts
      end
  end.

Definition medusaAttempt : Attempt :=
  if negb (Medusa.apiKey medusa) then AttemptEnds None
  else if negb (Medusa.rateRequest medusa) then AttemptEnds None
  else
    match poll (Medusa.ticks medusa) 0 with
    | None => AttemptWaits
    | Some [] => AttemptEnds None
    | Some (rate :: _) =>
        match Medusa.total rate with
        | Some (Some value) =>
            if JS.truthy value
            then AttemptEnds
                   (Some (medusaDiscount (medusaDiscountSetting strapi)
                                         (Some (Medusa.markup value))))
            else AttemptEnds None
        | _ => AttemptEnds None
        end
    end.

Definition calculateShipping (cart : option Cart.t) : Response :=
  match cart with
  | None => BadRequest CartRequired
  | Some cart =>
    if (noEntries (Cart.items cart) && noEntries (Cart.boxes cart))%bool
    then BadRequest ItemsOrBoxesArrayRequired
    else
      match (match Cart.boxes cart with
             | Some boxes => firstIncomplete 0 boxes
             | None => None
             end) with
      | Some number => BadRequest (BoxIsMissingFields number)
      | None =>
        let destinationPostalCode :=
          match Cart.shipping_address cart with
          | Some address => Address.postal_code address
          | None => None
          end in
        if negb (present destinationPostalCode)
        then BadRequest PostalCodeRequired
        else
          match Refactored.getOriginPostalCode strapi calculateDistance
                  (Cart.sales_channel_id cart) destinationPostalCode
                  (Cart.warehouse_id cart) with
          | Throw e => InternalError e
          | Ok _ =>
              match medusaAttempt with
              | AttemptWaits => Unanswered
              | AttemptEnds medusaResult =>
                  match Refactored.calculateShipping strapi calculateDistance cart with
                  | Throw e => InternalError e
                  | Ok strapiResult => respond medusaResult strapiResult
                  end
              end
          end
      end
  end.

End WithWorld.

End RefactoredController.

(** ** The specification's side *)

(** The intervals that the labels of the classification table denote. *)
Inductive Interval :=
| LessThan (bound : Q)
| Between (min max : Q)
| OrGreater (bound : Q).

(** The label grammar of the specification: "A but less than B",
    "Less than X" and "X or greater". *)
Definition labelInterval (label : string) : option Interval :=
  if JS.includes label "but less than" then
    let parts := JS.split label "but less than" in
    match JS.parseFloat (JS.trim (nth 0 parts EmptyString)),
          JS.parseFloat (JS.trim (nth 1 parts EmptyString)) with
    | Some a, Some b => Some (Between a b)
    | _, _ => None
    end
  else if JS.startsWith label "Less than" then
    option_map LessThan
      (JS.parseFloat (nth 1 (JS.split label "Less than") EmptyString))
  else if JS.includes label "or greater" then
    option_map OrGreater
      (JS.parseFloat (nth 0 (JS.split label "or greater") EmptyString))
  else None.

Definition member (density : Q) (i : Interval) : bool :=
  match i with
  | LessThan bound => JS.ltb density bound
  | Between min max => JS.geb density min && JS.ltb density max
  | OrGreater bound => JS.geb density bound
  end.

(** The density lies in the interval the row's label denotes. *)
Definition inRange (density : Q) (calc : Calc.t) : bool :=
  match labelInterval (Calc.densityRange calc) with
  | Some i => member density i
  | None => false
  end.


(** Decimal numerals: digits, with an optional fraction. *)
Definition isDigit (c : ascii) : bool :=
  let n := nat_of_ascii c in ((48 <=? n)%nat && (n <=? 57)%nat)%bool.

Fixpoint allDigits (s : string) : bool :=
  match s with
  | EmptyString => true
  | String c s' => isDigit c && allDigits s'
  end.

Definition wholeNumeral (s : string) : Prop :=
  s <> EmptyString /\ allDigits s = true.

Definition decimalNumeral (s : string) : Prop :=
  wholeNumeral s
  \/ exists whole fraction,
       wholeNumeral whole /\ wholeNumeral fraction
       /\ s = whole ++ "." ++ fraction.

(** The labels whose bounds the code knows: "Less than 1", "50 or
    greater", and "A but less than B" for decimal numerals A and B. *)
Definition knownLabel (label : string) : Prop :=
  label = "Less than 1" \/ label = "50 or greater"
  \/ exists a b,
       decimalNumeral a /\ decimalNumeral b
       /\ label = a ++ " but less than " ++ b.

(** The classification table of the seed script. *)
Definition seedCalculations : list Calc.t :=
  [ Calc.mk 1 "Less than 1" 400;
    Calc.mk 2 "1 but less than 2" 300;
    Calc.mk 3 "2 but less than 4" 250;
    Calc.mk 4 "4 but less than 6" 175;
    Calc.mk 5 "6 but less than 8" 125;
    Calc.mk 6 "8 but less than 10" 100;
    Calc.mk 7 "10 but less than 12" (925 # 10);
    Calc.mk 8 "12 but less than 15" 85;
    Calc.mk 9 "15 but less than 22.5" 70;
    Calc.mk 10 "22.5 but less than 30" 65;
    Calc.mk 11 "30 but less than 35" 60;
    Calc.mk 12 "35 but less than 50" 55;
    Calc.mk 13 "50 or greater" 50 ].


Definition storeOf (calculations : list Calc.t) (pricings : list Pricing.t)
  (ws : list Warehouse.t) (settings : option Settings.t) : Strapi :=
  {| freightCalculations := calculations;
     freightClassPricings := pricings;
     warehouses := ws;
     discountSetting := settings;
     medusaDiscountSetting := None |}.

(** The tiers of price resolution, as the specification words them. *)
Definition ofClass (freightClass : Q) (p : Pricing.t) : bool :=
  JS.eqb (Pricing.freightClass p) (JS.Math_round freightClass).

(** The lower-bound token of a ranged band: what stands before its first
    dash, without the white space around it. *)
Fixpoint beforeDash (s : string) : string :=
  match s with
  | EmptyString => EmptyString
  | String c s' =>
      if Ascii.eqb c "-" then EmptyString else String c (beforeDash s')
  end.

Definition lowerToken (band : string) : string := JS.trim (beforeDash band).

Definition tier1 (table : list Pricing.t) (freightClass : Q) (band : string)
  : list Pricing.t :=
  filter (fun p => ofClass freightClass p
                   && match Pricing.distance p with
                      | Some d => (d =? band)%string
                      | None => false
                      end) table.

(** The rows stored at the band, at its lower-bound token, or at a text
    that starts with the token; a row without a distance counts as
    stored at the empty text. *)
Definition tier2 (table : list Pricing.t) (freightClass : Q) (band : string)
  : list Pricing.t :=
  filter (fun p => ofClass freightClass p
                   && match Pricing.distance p with
                      | Some d =>
                          (d =? band)%string
                          || (d =? lowerToken band)%string
                          || String.prefix (lowerToken band) d
                      | None => (lowerToken band =? EmptyString)%string
                      end) table.

Definition tier3 (table : list Pricing.t) (freightClass : Q) : list Pricing.t :=
  filter (ofClass freightClass) table.

Definition resolveBySpec (table : list Pricing.t) (freightClass : Q)
  (band : string) : list Pricing.t :=
  match tier1 table freightClass band with
  | (_ :: _) as rows => rows
  | [] =>
      if JS.includes band "-" then
        match tier2 table freightClass band with
        | (_ :: _) as rows => rows
        | [] => tier3 table freightClass
        end
      else tier3 table freightClass
  end.

(** The total of a quote as the specification words it: the discount
    applies when enabled with a positive percentage, and the total is
    clamped at zero. *)
Definition totalBySpec (subtotal : Q) (settings : option Settings.t) : Q :=
  match settings with
  | Some s =>
      if (Settings.isDiscountEnabled s
          && JS.ltb 0 (Settings.discountPercentage s))%bool
      then JS.Math_max 0 (subtotal * (1 - Settings.discountPercentage s / 100))
      else subtotal
  | None => subtotal
  end.

(** A price table of class 50 whose distances are stored the older way,
    as a number or a wider range, beside a row of class 70. *)
Definition storedAt (freightClass : Q) (distance : option string) (price : Q)
  : Pricing.t :=
  Pricing.mk freightClass distance None price.

Definition legacyPricings : list Pricing.t :=
  [ storedAt 50 (Some "0") 10;
    storedAt 50 (Some "0-499") 11;
    storedAt 50 (Some "100") 12;
    storedAt 50 None 13;
    storedAt 70 (Some "0") 14;
    storedAt 50 (Some "1000+km") 15 ].

Definition legacyStore : Strapi := storeOf [] legacyPricings [] None.

(** The pallet of the end-to-end scenario: 120 by 80 by 60 inches, 500
    pounds, of density 1.5 and so of class 300; and a price table with one
    row for that class at 200-299 km, 20 per hundredweight. *)
Definition pallet : Box.t := Box.mk (Some 120) (Some 80) (Some 60) (Some 500).

Definition palletPricings : list Pricing.t :=
  [Pricing.mk 300 (Some "200-299km") None 20].

Definition palletStore (percentage : Q) : Strapi :=
  storeOf seedCalculations palletPricings [] (Some (Settings.mk true percentage)).

(** The same pallet with its length negated. *)
Definition mirroredPallet : Box.t :=
  Box.mk (Some (-120)) (Some 80) (Some 60) (Some 500).

(** The box as the specification wants it: four measurements, all
    positive. *)
Definition positiveBox (box : Box.t) : Prop :=
  exists l w h wt,
    box = Box.mk (Some l) (Some w) (Some h) (Some wt)
    /\ 0 < l /\ 0 < w /\ 0 < h /\ 0 < wt.

(** A box in millimetres and grams, in inches and pounds. *)
Definition toImperial (box : Box.t) : Box.t :=
  Box.mk (option_map Service.mmToInches (Box.length box))
         (option_map Service.mmToInches (Box.width box))
         (option_map Service.mmToInches (Box.height box))
         (option_map Service.gramsToPounds (Box.weight box)).

(** The steps of origin resolution, as the specification words them. *)

(** Step 1: the warehouse of the explicit id, the first of the list
    whose document id is the number the id names: a number other than
    zero names itself, and a text names the number it is read as. *)
Definition namedId (warehouseId : option WarehouseId) : option Z :=
  match warehouseId with
  | Some (IdNumber n) => if (n =? 0)%Z then None else Some n
  | Some (IdString s) => JS.parseInt s
  | None => None
  end.

Definition warehouseById (strapi : Strapi) (warehouseId : option WarehouseId)
  : option Warehouse.t :=
  match namedId warehouseId with
  | Some n => find (fun w => (Warehouse.documentId w =? n)%Z) (warehouses strapi)
  | None => None
  end.

(** Step 2: the first warehouse of the sales channel, for a channel that
    is given and not the empty text. *)
Definition warehouseByChannel (strapi : Strapi) (salesChannelId : option string)
  : option Warehouse.t :=
  match salesChannelId with
  | Some c =>
      if (c =? EmptyString)%string then None
      else find (fun w => match Warehouse.salesChannelId w with
                          | Some c' => (c' =? c)%string
                          | None => false
                          end) (warehouses strapi)
  | None => None
  end.

(** The distance from a warehouse to the destination, for a warehouse
    with a postal code whose lookup succeeds. *)
Definition distanceFrom (calculateDistance : string -> string -> option Q)
  (destAddress : string) (w : Warehouse.t) : option Q :=
  if present (Warehouse.postalCode w)
  then calculateDistance (text (Warehouse.postalCode w) ++ " CA") destAddress
  else None.

(** Step 3: [w] is at the least distance, and the first such in [ws]. *)
Definition firstClosest (calculateDistance : string -> string -> option Q)
  (destAddress : string) (ws : list Warehouse.t) (w : Warehouse.t) : Prop :=
  exists before after d,
    ws = (before ++ w :: after)%list
    /\ distanceFrom calculateDistance destAddress w = Some d
    /\ (forall w' d', In w' before ->
          distanceFrom calculateDistance destAddress w' = Some d' -> d < d')
    /\ (forall w' d', In w' after ->
          distanceFrom calculateDistance destAddress w' = Some d' -> d <= d').

(** The origin scenario: two warehouses, 50 km and 30 km from the
    destination, and a third, as far as the second, whose lookup comes
    later. *)
Definition eastWarehouse : Warehouse.t :=
  Warehouse.mk 1 "East" (Some "A1A 1A1") None.
Definition westWarehouse : Warehouse.t :=
  Warehouse.mk 2 "West" (Some "B2B 2B2") None.
Definition northWarehouse : Warehouse.t :=
  Warehouse.mk 3 "North" (Some "C3C 3C3") None.

Definition scenarioDistance (origin destination : string) : option Q :=
  if (origin =? "A1A 1A1 CA")%string then Some 50
  else if (origin =? "B2B 2B2 CA")%string then Some 30
  else if (origin =? "C3C 3C3 CA")%string then Some 30
  else None.

Definition scenarioStore : Strapi :=
  storeOf seedCalculations palletPricings
          [eastWarehouse; westWarehouse; northWarehouse] None.

(** Four warehouses, two of them of the sales channel "sc_west". *)
Definition annexWarehouse : Warehouse.t :=
  Warehouse.mk 17 "Annex" (Some "D4D 4D4") (Some "sc_west").

Definition channelStore : Strapi :=
  storeOf seedCalculations palletPricings
          [ eastWarehouse;
            Warehouse.mk 2 "West" (Some "B2B 2B2") (Some "sc_west");
            Warehouse.mk 16 "North" (Some "C3C 3C3") (Some "sc_north");
            annexWarehouse ] None.

(** A store whose only warehouse has no postal code. *)
Definition unaddressedStore : Strapi :=
  storeOf seedCalculations palletPricings
          [Warehouse.mk 1 "Depot" None None] None.

(** A store that has warehouses and the seed classification table, and
    no price. *)
Definition unpricedStore : Strapi :=
  storeOf seedCalculations []
          [eastWarehouse; westWarehouse; northWarehouse] None.

(** The same store with the pallet's price. *)
Definition pricedStore : Strapi :=
  storeOf seedCalculations palletPricings
          [eastWarehouse; westWarehouse; northWarehouse] None.

(** A cart with one box for a destination, and nothing else. *)
Definition cartOf (box : Box.t) : Cart.t :=
  Cart.mk None None None (Some [box])
          (Some (Address.mk (Some "M5V 2T6") None)).

(** A session of the rate API with credentials, a service and a rate
    request that succeeds. *)
Definition answering (polls : nat -> Medusa.Poll) (ticks : list (list nat))
  : Medusa.Session :=
  {| Medusa.apiKey := true;
     Medusa.services := Some ["carrier.standard"];
     Medusa.rateRequest := true;
     Medusa.polls := polls;
     Medusa.ticks := ticks |}.

(** A reply with one rate, of so many cents. *)
Definition rateOf (cents : Q) : Medusa.Poll :=
  Medusa.PollDone [{| Medusa.total := Some (Some cents) |}].

(** Every reply comes in before the next tick, for [n] ticks. *)
Definition prompt (n : nat) : list (list nat) :=
  map (fun request => [request]) (seq 1 n).

(** A session of the rate API that succeeds: two polls pending, then one
    rate of 10000 cents, every reply coming in before the next tick. *)
Definition readySession : Medusa.Session :=
  answering (fun n => if (n <? 3)%nat then Medusa.PollPending else rateOf 10000)
            (prompt 30).

(** The same with a rate of so many cents. *)
Definition sessionAt (cents : Q) : Medusa.Session :=
  answering (fun n => if (n <? 3)%nat then Medusa.PollPending else rateOf cents)
            (prompt 30).

(** Replies that take more than two seconds and come in out of order: the
    second before the first, both pending, then the third, a rate of 100
    cents. *)
Definition lateSession : Medusa.Session :=
  answering (fun n => if (n <? 3)%nat then Medusa.PollPending else rateOf 100)
            [[]; []; [2%nat]; [1%nat; 3%nat]].

(** No reply comes in during the first 34 seconds; then the first does,
    a rate of 10000 cents. *)
Definition slowSession : Medusa.Session :=
  answering (fun _ => rateOf 10000) (repeat [] 34 ++ [[1%nat]])%list.

(** Every reply says pending, and takes 25 seconds: the first to come in
    at or after the thirtieth tick is the fifth. *)
Definition pendingSession : Medusa.Session :=
  answering (fun _ => Medusa.PollPending)
            (repeat [] 25 ++ map (fun request => [request]) (seq 1 10))%list.

(** No reply ever comes in. *)
Definition silentSession : Medusa.Session :=
  answering (fun _ => Medusa.PollPending) [].

(** A session of the rate API without credentials. *)
Definition keylessSession : Medusa.Session :=
  {| Medusa.apiKey := false;
     Medusa.services := None;
     Medusa.rateRequest := false;
     Medusa.polls := fun _ => Medusa.PollThrows;
     Medusa.ticks := [] |}.

(** The rates of a reply: those of a reply that is done, and none
    otherwise. *)
Definition ratesOf (p : Medusa.Poll) : list Medusa.Rate :=
  match p with
  | Medusa.PollDone rates => rates
  | _ => []
  end.

(** The store of the scenario with the rate API's discount enabled. *)
Definition discountedStore (percentage : Q) : Strapi :=
  {| freightCalculations := seedCalculations;
     freightClassPricings := palletPricings;
     warehouses := [eastWarehouse; westWarehouse; northWarehouse];
     discountSetting := None;
     medusaDiscountSetting := Some (Settings.mk true percentage) |}.

(** The reply carries the rate API's price, with this total. *)
Definition quotes (r : Response) (total : Q) : bool :=
  match r with
  | FromMedusa body =>
      match mb_total body with
      | Some t => Qeq_bool t total && (mb_source body =? "MEDUSA_API")%string
      | None => false
      end
  | _ => false
  end.

(** The reply is a local quote, tagged as such. *)
Definition tabled (r : Response) : bool :=
  match r with
  | FromStrapi _ source => (source =? "STRAPI_TABLE")%string
  | _ => false
  end.

(** The boxes of a cart line, in the words of the conversion.  A
    measurement counts when it is present and not zero; the measurement
    of a line is its own when that counts, else its variant's when that
    counts, else its product's. *)
Definition counts (x : option Q) (v : Q) : Prop := x = Some v /\ ~ v == 0.

Definition blank (x : option Q) : Prop :=
  x = None \/ exists v, x = Some v /\ v == 0.

Definition blankIn (f : Box.t -> option Q) (b : option Box.t) : Prop :=
  match b with
  | Some b => blank (f b)
  | None => True
  end.

Definition lineMeasure (f : Box.t -> option Q) (item : Item.t) (v : Q) : Prop :=
  counts (f (Item.own item)) v
  \/ (blank (f (Item.own item))
      /\ exists b, Item.variant item = Some b /\ counts (f b) v)
  \/ (blank (f (Item.own item)) /\ blankIn f (Item.variant item)
      /\ exists b, Item.product item = Some b /\ counts (f b) v).

(** The number of boxes of a line: one when the quantity is missing or
    zero, none when it is negative, and else the quantity rounded up. *)
Definition lineCount (item : Item.t) (n : nat) : Prop :=
  match Item.quantity item with
  | None => n = 1%nat
  | Some q =>
      (q == 0 /\ n = 1%nat)
      \/ (q < 0 /\ n = 0%nat)
      \/ (0 < q /\ inject_Z (Z.of_nat n) - 1 < q <= inject_Z (Z.of_nat n))
  end.

(** The boxes of a line: so many copies of the box of its measurements. *)
Definition lineBoxes (item : Item.t) (group : list Box.t) : Prop :=
  exists l w h wt n,
    lineMeasure Box.length item l /\ lineMeasure Box.width item w
    /\ lineMeasure Box.height item h /\ lineMeasure Box.weight item wt
    /\ lineCount item n
    /\ group = repeat (Box.mk (Some l) (Some w) (Some h) (Some wt)) n.

(** The replies that keep a controller polling: the one that says
    pending, and for the refactored controller the one without a status
    too. *)
Definition pending (p : Medusa.Poll) : Prop := p = Medusa.PollPending.

Definition unfinished (p : Medusa.Poll) : Prop :=
  p = Medusa.PollPending \/ p = Medusa.PollNoStatus.

(** The reply to request [request] is the first to settle the polling of
    the session, [waiting] being the replies that keep it going: the replies
    that come in before it are of those and come in before the thirtieth
    tick, and it is itself not of those or comes in after the thirtieth
    tick. *)
Definition firstSettling (waiting : Medusa.Poll -> Prop) (m : Medusa.Session)
  (request : nat) : Prop :=
  exists before pre post later,
    Medusa.ticks m = (before ++ (pre ++ request :: post) :: later)%list
    /\ Forall (fun r => waiting (Medusa.polls m r)) (List.concat before ++ pre)%list
    /\ List.concat (skipn 29 before) = []
    /\ ((29 <= List.length before)%nat -> pre = [])
    /\ (~ waiting (Medusa.polls m request) \/ (29 <= List.length before)%nat).

(** No reply settles the polling: all that come in are of those that keep
    it going and come in before the thirtieth tick. *)
Definition neverSettling (waiting : Medusa.Poll -> Prop) (m : Medusa.Session)
  : Prop :=
  Forall (fun r => waiting (Medusa.polls m r)) (List.concat (Medusa.ticks m))
  /\ List.concat (skipn 29 (Medusa.ticks m)) = [].

(** The order a sort by [key] establishes. *)
Definition keyLe {A} (key : A -> Q) (x y : A) : Prop := key x <= key y.

(** A ladder of weight tiers at the breakpoints 0, 500 and 1000; the rate
    of a tier is its breakpoint plus one. *)
Definition tier (b : Q) : Pricing.t :=
  Pricing.mk 100 (Some "0-99km") (Some b) (b + 1).

Definition ladder : list Pricing.t := [tier 0; tier 500; tier 1000].

(** A store with the seed classification table and the ladder of weight
    tiers, all of class 100 in the band 0-99km. *)
Definition ladderStore : Strapi := storeOf seedCalculations ladder [] None.

(** The ten 100 km wide buckets of the specification, as half-open
    intervals with their labels. *)
Definition buckets : list (Q * Q * string) :=
  [ (0, 100, "0-99km"); (100, 200, "100-199km"); (200, 300, "200-299km");
    (300, 400, "300-399km"); (400, 500, "400-499km"); (500, 600, "500-599km");
    (600, 700, "600-699km"); (700, 800, "700-799km"); (800, 900, "800-899km");
    (900, 1000, "900-999km") ]%string.

(** What the specification asks of a banding function at distance [d]. *)
Definition bandsCorrectly (band : Q -> string) (d : Q) : Prop :=
  (d < 1000 ->
   exists lo hi lbl, In (lo, hi, lbl) buckets /\ lo <= d /\ d < hi /\ band d = lbl)
  /\ (band d = "1000+km"%string <-> 1000 <= d).

(** ** More of the code *)

(** *** [findPriceByClassAndDistance] of services/fulfillment.ts

    The second lookup of the service, which returns the price alone. *)

Module ServicePrice.

Section WithStore.
Variable strapi : Strapi.

Definition findPriceByClassAndDistance
  (freightClass : Q) (distance : string) (weight : Q) : option Q :=
  let freightClassInt := JS.Math_round freightClass in
  let pricings :=
    filter (fun p => JS.eqb (Pricing.freightClass p) freightClassInt
                     && match Pricing.distance p with
                        | Some d => (d =? distance)%string
                        | None => false
                        end)%bool
           (freightClassPricings strapi) in
  let pricings :=
    if ((List.length pricings =? 0)%nat && JS.includes distance "-")%bool
    then
      let rangeStart := JS.trim (nth 0 (JS.split distance "-") EmptyString) in
      let allPricings :=
        filter (fun p => JS.eqb (Pricing.freightClass p) freightClassInt)
               (freightClassPricings strapi) in
      filter (fun p =>
                ((pDistance p =? distance)%string
                 || JS.startsWith (pDistance p) rangeStart
                 || (pDistance p =? rangeStart)%string)%bool) allPricings
    else pricings in
  let pricings :=
    if (List.length pricings =? 0)%nat
    then filter (fun p => JS.eqb (Pricing.freightClass p) freightClassInt)
                (freightClassPricings strapi)
    else pricings in
  if (List.length pricings =? 0)%nat then None
  else
    let sorted := JS.sortBy fst (withBreakpoint pricings) in
    let selectedPricing := matchingBreakpoint weight sorted in
    let selectedPricing :=
      match selectedPricing with
      | Some p => Some p
      | None =>
          match sorted with
          | [] => None
          | _ :: _ => option_map snd (JS.lastOf sorted)
          end
      end in
    let selectedPricing :=
      match selectedPricing with
      | Some p => Some p
      | None => find (fun p => negb (nonzero (Pricing.breakpointValue p))) pricings
      end in
    match selectedPricing with
    | Some selected =>
        let pricePer100Lbs := Pricing.price selected in
        let totalPrice := pricePer100Lbs * (weight / 100) in
        Some totalPrice
    | None => None
    end.

End WithStore.

End ServicePrice.

(** *** [calculateDistance], in both copies

    The reply of the distance matrix API is a collaborator's: its rows,
    each with its elements, an element with its status and the metres of
    its distance; [None] as reply is a request that throws. *)

Module Distance.

Record Element := { status : string; value : Q }.

Record Matrix := { rows : list (list Element) }.

Inductive Failure :=
| KeyNotSet
| NoRows
| ApiError (status : string)
| RequestThrew
| Failed (cause : Failure).

Inductive outcome :=
| Km (distance : Q)
| Thrown (e : Failure).

(** [catch (error) { throw new Error(`Failed to calculate distance: ...`) }] *)
Definition wrap (r : outcome) : outcome :=
  match r with
  | Km d => Km d
  | Thrown e => Thrown (Failed e)
  end.

Section WithApi.
Variable GOOGLE_API_KEY : bool.
Variable reply : option Matrix.

(** services/fulfillment.ts, lines 10-70. *)
Definition calculateDistance : outcome :=
  wrap
    (if negb GOOGLE_API_KEY then Thrown KeyNotSet
     else
       match reply with
       | None => Thrown RequestThrew
       | Some distanceMatrix =>
           match rows distanceMatrix with
           | [] => Thrown NoRows
           | elements :: _ =>
               match elements with
               | [] => Thrown (ApiError "No element returned")
               | element :: _ =>
                   if negb (status element =? "OK")%string
                   then Thrown (ApiError
                                  (if (status element =? EmptyString)%string
                                   then "No element returned"
                                   else status element))
                   else
                     let distanceMeters := value element in
                     Km (distanceMeters / 1000)
               end
           end
       end).

(** The refactored copy, lines 271-302: the key is tested before the
    [try]. *)
Definition calculateDistanceRefactored : outcome :=
  if negb GOOGLE_API_KEY then Thrown KeyNotSet
  else
    wrap
      (match reply with
       | None => Thrown RequestThrew
       | Some response =>
           match rows response with
           | [] => Thrown NoRows
           | [] :: _ => Thrown NoRows
           | (element :: _) :: _ =>
               if negb (status element =? "OK")%string
               then Thrown (ApiError (status element))
               else Km (value element / 1000)
           end
       end).

End WithApi.

End Distance.

(** *** The controller of freight-class-pricing

    [super.find] and [super.findOne] are the framework's: what they
    return is given. *)

Module PricingController.

(** The [data] of the framework's reply. *)
Inductive Data :=
| NoData
| Many (items : list Pricing.t)
| One (item : Pricing.t).

(** A row with its discounted price beside the original. *)
Record Discounted := {
  item : Pricing.t;
  originalPrice : Q;
  price : Q;
  discountApplied : Q }.

Inductive Reply :=
| Untouched (data : Data)
| DiscountedMany (items : list Discounted)
| DiscountedOne (item : Discounted).

Definition discount (discountPercentage : Q) (item : Pricing.t) : Discounted :=
  let discountMultiplier := 1 - (discountPercentage / 100) in
  {| item := item;
     originalPrice := Pricing.price item;
     price := JS.Math_max 0 (Pricing.price item * discountMultiplier);
     discountApplied := discountPercentage |}.

Definition applyDiscount (settings : option Settings.t) : bool :=
  match settings with
  | Some s => (Settings.isDiscountEnabled s
               && JS.truthy (Settings.discountPercentage s))%bool
  | None => false
  end.

Definition percentage (settings : option Settings.t) : Q :=
  match settings with
  | Some s => Settings.discountPercentage s
  | None => 0
  end.

Definition find (strapi : Strapi) (data : Data) : Reply :=
  let settings := discountSetting strapi in
  if applyDiscount settings then
    match data with
    | NoData => Untouched data
    | Many items => DiscountedMany (map (discount (percentage settings)) items)
    | One item => DiscountedOne (discount (percentage settings) item)
    end
  else Untouched data.

(** [findOne]: its [data] is one row or none. *)
Definition findOne (strapi : Strapi) (data : option Pricing.t) : Reply :=
  let settings := discountSetting strapi in
  match data with
  | Some item =>
      if applyDiscount settings
      then DiscountedOne (discount (percentage settings) item)
      else Untouched (One item)
  | None => Untouched NoData
  end.

End PricingController.

(** *** The seed script

    The database is the list of its rows; [create] appends one.  The
    [publishedAt] stamp of a created row is no attribute of the model. *)

Module Seed.

Definition freightCalculations : list Calc.t :=
  [ Calc.mk 1 "Less than 1" 400;
    Calc.mk 2 "1 but less than 2" 300;
    Calc.mk 3 "2 but less than 4" 250;
    Calc.mk 4 "4 but less than 6" 175;
    Calc.mk 5 "6 but less than 8" 125;
    Calc.mk 6 "8 but less than 10" 100;
    Calc.mk 7 "10 but less than 12" (925 # 10);
    Calc.mk 8 "12 but less than 15" 85;
    Calc.mk 9 "15 but less than 22.5" 70;
    Calc.mk 10 "22.5 but less than 30" 65;
    Calc.mk 11 "30 but less than 35" 60;
    Calc.mk 12 "35 but less than 50" 55;
    Calc.mk 13 "50 or greater" 50 ].

(** [findMany({ filters: { sub } })] *)
Definition withSub (db : list Calc.t) (sub : Q) : list Calc.t :=
  filter (fun row => JS.eqb (Calc.sub row) sub) db.

(** The loop of [seedFreightCalculations], over the rows still to seed. *)
Fixpoint seedRows (calculations : list Calc.t) (db : list Calc.t) : list Calc.t :=
  match calculations with
  | [] => db
  | calculation :: rest =>
      let existing := withSub db (Calc.sub calculation) in
      if (List.length existing =? 0)%nat
      then seedRows rest (db ++ [calculation])
      else seedRows rest db
  end.

Definition seedFreightCalculations (db : list Calc.t) : list Calc.t :=
  seedRows freightCalculations db.

(** A permission of the users-permissions plugin. *)
Record Permission := { action : string; role : Z }.

Definition uid : string := "api::freight-calculation.freight-calculation".

(** [setPublicPermissions]: [publicRole] is the id of the public role,
    if there is one. *)
Definition setPublicPermissions (publicRole : option Z)
  (permissions : list Permission) : list Permission :=
  match publicRole with
  | None => permissions
  | Some id =>
      let existingPermissions :=
        filter (fun p => (role p =? id)%Z && JS.includes (action p) uid)%bool
               permissions in
      if (List.length existingPermissions =? 0)%nat
      then
        (permissions
         ++ map (fun action => {| action := uid ++ "." ++ action; role := id |})
                ["find"; "findOne"])%list
      else permissions
  end.

End Seed.

(** *** The pallets of the rate request

    Both controllers build the pallets they send to the rate API from the
    cart: lines 83-120 of controllers/fulfillment.ts, in millimetres and
    grams, and lines 69-96 of the refactored controller, in inches and
    pounds.  A pallet is its two units and its measurements: the cuboid's
    [l], [w], [h] and the weight's [value]. *)

Module RateRequest.

Record Pallet := {
  weightUnit : string;
  cuboidUnit : string;
  measurements : Box.t }.

Section WithUnits.
Variable weightUnit' : string.
Variable cuboidUnit' : string.

(** The pallet pushed for a box of [cart.boxes]. *)
Definition ofBox (box : Box.t) : Pallet :=
  {| weightUnit := weightUnit';
     cuboidUnit := cuboidUnit';
     measurements :=
       Box.mk (Box.length box) (Box.width box) (Box.height box) (Box.weight box) |}.

(** The pallets pushed for a line of [cart.items]. *)
Definition ofItem (item : Item.t) : list Pallet :=
  let product :=
    match Item.product item, Item.variant item with
    | Some p, _ => p
    | None, Some v => v
    | None, None => Box.mk None None None None
    end in
  let quantity := quantityOf item in
  repeat
    {| weightUnit := weightUnit';
       cuboidUnit := cuboidUnit';
       measurements :=
         Box.mk (Some (firstTruthy [Box.length product]))
                (Some (firstTruthy [Box.width product]))
                (Some (firstTruthy [Box.height product]))
                (Some (firstTruthy [Box.weight product])) |}
    (iterations quantity).

Definition items (cart : Cart.t) : list Pallet :=
  match Cart.boxes cart with
  | Some boxes => map ofBox boxes
  | None =>
      flat_map ofItem
        (match Cart.items cart with Some items => items | None => [] end)
  end.

End WithUnits.

(** controllers/fulfillment.ts *)
Definition ofController (cart : Cart.t) : list Pallet := items "g" "mm" cart.

(** The refactored controller. *)
Definition ofRefactoredController (cart : Cart.t) : list Pallet :=
  items "lb" "in" cart.

End RateRequest.

(* ------------------------------------------------------------------ *)
(** * Properties *)

Lemma ltb_lt x y : JS.ltb x y = true <-> x < y.
Proof.
  unfold JS.ltb. rewrite negb_true_iff.
  destruct (Qle_bool y x) eqn:E.
  - apply Qle_bool_iff in E. split; [discriminate|].
    intro H. exfalso. apply (Qlt_not_le _ _ H E).
  - split; [intros _|reflexivity].
    apply Qnot_le_lt. intro H. apply Qle_bool_iff in H. congruence.
Qed.

Lemma ltb_ge x y : JS.ltb x y = false <-> y <= x.
Proof.
  unfold JS.ltb. rewrite negb_false_iff. apply Qle_bool_iff.
Qed.

Lemma geb_ge x y : JS.geb x y = true <-> y <= x.
Proof. apply Qle_bool_iff. Qed.

(** The banding of services/fulfillment.ts meets the specification at
    every non-negative distance. *)
Lemma Service_mapDistanceToRange_correct (d : Q) :
  0 <= d -> bandsCorrectly Service.mapDistanceToRange d.
Proof.
  intros Hd. unfold bandsCorrectly, Service.mapDistanceToRange.
  repeat match goal with
  | |- context [JS.ltb d ?b] =>
      let E := fresh "E" in
      destruct (JS.ltb d b) eqn:E;
      [apply ltb_lt in E | apply ltb_ge in E]
  end.
  all: split;
    [ intros Hlt;
      first
        [ exfalso; apply (Qlt_not_le _ _ Hlt); assumption
        | refine (ex_intro _ _ (ex_intro _ _ (ex_intro _ _
                   (conj _ (conj _ (conj _ eq_refl))))));
          [ unfold buckets; simpl;
            repeat (first [left; reflexivity | right])
          | assumption | assumption ] ]
    | split;
      [ first [discriminate | intros _; assumption]
      | intros Hge; first [reflexivity | exfalso;
          match goal with
          | H : _ < _ |- _ =>
              apply (Qlt_not_le _ _ H); eapply Qle_trans; [|exact Hge];
              apply Qle_bool_iff; reflexivity
          end ] ] ].
Qed.

(** C2: at 99 km, and from 99 km to 100 km, the refactored copy answers
    with the open-ended top band, where the bucket [0, 100) and the other
    copy give "0-99km". *)
Theorem C2_refactored_band_at_99 :
  Refactored.mapDistanceToRange 99 = "1000+km"
  /\ Service.mapDistanceToRange 99 = "0-99km"
  /\ ~ bandsCorrectly Refactored.mapDistanceToRange 99
  /\ (forall d, 99 <= d -> d < 100 ->
        Refactored.mapDistanceToRange d = "1000+km"
        /\ Service.mapDistanceToRange d = "0-99km").
Proof.
  split; [reflexivity|]. split; [reflexivity|]. split.
  { intros [_ [H _]].
    assert (E : Refactored.mapDistanceToRange 99 = "1000+km") by reflexivity.
    apply H in E. revert E. apply Qlt_not_le. reflexivity. }
  intros d Hlo Hhi.
  assert (const_le : forall a b, Qle_bool a b = true -> a <= b)
    by (intros; now apply Qle_bool_iff).
  unfold Refactored.mapDistanceToRange, Service.mapDistanceToRange,
    Refactored.ranges, Refactored.firstRange.
  repeat match goal with
  | |- context [JS.ltb d ?k] =>
      first
        [ replace (JS.ltb d k) with true
            by (symmetry; apply ltb_lt; eapply Qlt_le_trans;
                [exact Hhi|apply const_le; reflexivity])
        | replace (JS.ltb d k) with false
            by (symmetry; apply ltb_ge; eapply Qle_trans;
                [|exact Hlo]; apply const_le; reflexivity) ]
  | |- context [JS.geb d ?k] =>
      first
        [ replace (JS.geb d k) with true
            by (symmetry; apply geb_ge; eapply Qle_trans;
                [|exact Hlo]; apply const_le; reflexivity)
        | replace (JS.geb d k) with false
            by (symmetry; unfold JS.geb;
                destruct (Qle_bool k d) eqn:E; [|reflexivity];
                apply Qle_bool_iff in E; exfalso;
                apply (Qlt_not_le _ _ Hhi); eapply Qle_trans; [|exact E];
                apply const_le; reflexivity) ]
  end.
  split; reflexivity.
Qed.

(** ** Sorting *)

Section SortFacts.
Context {A : Type} (key : A -> Q).

Lemma insert_perm (x : A) (l : list A) : Permutation (JS.insert key x l) (x :: l).
Proof.
  induction l as [|y l IH]; simpl; [reflexivity|].
  destruct (Qle_bool (key x) (key y)); [reflexivity|].
  rewrite IH. apply perm_swap.
Qed.

Lemma sortBy_perm (l : list A) : Permutation (JS.sortBy key l) l.
Proof.
  induction l as [|x l IH]; simpl; [reflexivity|].
  rewrite insert_perm. now constructor.
Qed.

Lemma sortBy_In (l : list A) (x : A) : In x (JS.sortBy key l) <-> In x l.
Proof.
  split; apply Permutation_in; [|symmetry]; apply sortBy_perm.
Qed.

Lemma insert_sorted (x : A) (l : list A) :
  StronglySorted (keyLe key) l -> StronglySorted (keyLe key) (JS.insert key x l).
Proof.
  induction 1 as [|y l Hs IH Hall]; simpl.
  - constructor; constructor.
  - destruct (Qle_bool (key x) (key y)) eqn:E.
    + apply Qle_bool_iff in E.
      constructor; [now constructor|].
      constructor; [exact E|].
      rewrite Forall_forall in *. intros z Hz.
      unfold keyLe in *. eapply Qle_trans; [exact E|]. now apply Hall.
    + assert (Hyx : key y <= key x).
      { apply Qlt_le_weak, Qnot_le_lt. intro H. apply Qle_bool_iff in H. congruence. }
      constructor; [exact IH|].
      rewrite Forall_forall in *. intros z Hz.
      apply (Permutation_in _ (insert_perm x l)) in Hz.
      destruct Hz as [<-|Hz]; [exact Hyx|now apply Hall].
Qed.

Lemma sortBy_sorted (l : list A) : StronglySorted (keyLe key) (JS.sortBy key l).
Proof.
  induction l; simpl; [constructor|now apply insert_sorted].
Qed.

Lemma lastOf_In (l : list A) (x : A) : JS.lastOf l = Some x -> In x l.
Proof.
  unfold JS.lastOf. induction l as [|y l IH]; simpl; [discriminate|].
  destruct l as [|z l]; simpl in *.
  - intros [= <-]. now left.
  - intros H. right. now apply IH.
Qed.

Lemma lastOf_nil (l : list A) : JS.lastOf l = None <-> l = [].
Proof.
  unfold JS.lastOf. split; [|now intros ->].
  induction l as [|y l IH]; simpl; [reflexivity|].
  destruct l as [|z l]; simpl in *; [discriminate|].
  intros H. specialize (IH H). discriminate.
Qed.

Lemma lastOf_max (l : list A) (x : A) :
  StronglySorted (keyLe key) l -> JS.lastOf l = Some x ->
  forall y, In y l -> key y <= key x.
Proof.
  unfold JS.lastOf. induction 1 as [|z l Hs IH Hall]; simpl; [discriminate|].
  destruct l as [|z' l].
  - simpl. intros [= <-] y [<-|[]]. apply Qle_refl.
  - intros Hlast y [<-|Hy].
    + rewrite Forall_forall in Hall. apply Hall.
      apply lastOf_In. exact Hlast.
    + now apply IH.
Qed.

End SortFacts.

(** ** Weight tiers *)

Lemma withBreakpoint_In (pricings : list Pricing.t) (b : Q) (p : Pricing.t) :
  In (b, p) (withBreakpoint pricings)
  <-> In p pricings /\ Pricing.breakpointValue p = Some b.
Proof.
  unfold withBreakpoint. rewrite in_flat_map. split.
  - intros [q [Hq Hin]]. destruct (Pricing.breakpointValue q) eqn:E.
    + destruct Hin as [[= <- <-]|[]]. auto.
    + destruct Hin.
  - intros [Hp E]. exists p. split; [exact Hp|]. rewrite E. now left.
Qed.

Lemma withBreakpoint_nil (pricings : list Pricing.t) :
  withBreakpoint pricings = [] ->
  forall p, In p pricings -> Pricing.breakpointValue p = None.
Proof.
  intros H p Hp. destruct (Pricing.breakpointValue p) as [b|] eqn:E; [|reflexivity].
  assert (Hin : In (b, p) (withBreakpoint pricings)) by now apply withBreakpoint_In.
  rewrite H in Hin. destruct Hin.
Qed.

(** What the loop returns is a row at or below the weight. *)
Lemma matchingBreakpoint_some (weight : Q) (sorted : list (Q * Pricing.t))
  (sel : Pricing.t) :
  matchingBreakpoint weight sorted = Some sel ->
  exists b, In (b, sel) sorted /\ b <= weight.
Proof.
  induction sorted as [|[b cur] rest IH]; simpl; [discriminate|].
  destruct (JS.geb weight b) eqn:E; simpl.
  - destruct (match rest with [] => true | (next, _) :: _ => JS.ltb weight next end).
    + intros [= <-]. exists b. split; [now left|now apply geb_ge].
    + intros H. destruct (IH H) as [b' [Hin Hle]]. exists b'. auto.
  - intros H. destruct (IH H) as [b' [Hin Hle]]. exists b'. auto.
Qed.

(** On a sorted ladder with a breakpoint at or below the weight, the loop
    returns a row whose breakpoint is the greatest of those. *)
Lemma matchingBreakpoint_greatest (weight : Q) (sorted : list (Q * Pricing.t)) :
  StronglySorted (keyLe fst) sorted ->
  (exists b p, In (b, p) sorted /\ b <= weight) ->
  exists bs sel,
    matchingBreakpoint weight sorted = Some sel
    /\ In (bs, sel) sorted /\ bs <= weight
    /\ forall b p, In (b, p) sorted -> b <= weight -> b <= bs.
Proof.
  induction 1 as [|[b cur] rest Hs IH Hall]; intros [b0 [p0 [Hin0 Hle0]]].
  - destruct Hin0.
  - rewrite Forall_forall in Hall. unfold keyLe in Hall. simpl in Hall.
    assert (Hb : b <= weight).
    { destruct Hin0 as [[= <- <-]|Hin0]; [exact Hle0|].
      eapply Qle_trans; [|exact Hle0]. apply (Hall (b0, p0) Hin0). }
    simpl. assert (E : JS.geb weight b = true) by now apply geb_ge.
    rewrite E. simpl.
    destruct rest as [|[next pn] rest'].
    + exists b, cur. split; [reflexivity|]. split; [now left|]. split; [exact Hb|].
      intros b' p' [[= <- <-]|[]] _. apply Qle_refl.
    + destruct (JS.ltb weight next) eqn:En.
      * apply ltb_lt in En.
        exists b, cur. split; [reflexivity|]. split; [now left|]. split; [exact Hb|].
        intros b' p' [[= <- <-]|Hin'] Hle'; [apply Qle_refl|].
        exfalso. apply (Qlt_not_le _ _ En).
        eapply Qle_trans; [|exact Hle'].
        inversion Hs as [|? ? Hs' Hall']; subst.
        destruct Hin' as [[= <- <-]|Hin']; [apply Qle_refl|].
        rewrite Forall_forall in Hall'. apply (Hall' (b', p') Hin').
      * apply ltb_ge in En.
        destruct IH as [bs [sel [Hm [Hin [Hle Hmax]]]]].
        { exists next, pn. split; [now left|exact En]. }
        exists bs, sel. split; [exact Hm|]. split; [now right|]. split; [exact Hle|].
        intros b' p' [[= <- <-]|Hin'] Hle'; [|now apply (Hmax b' p')].
        eapply Qle_trans; [apply (Hall (next, pn)); now left|].
        apply (Hmax next pn); [now left|exact En].
Qed.

Lemma selectedPricing_same (pricings : list Pricing.t) (weight : Q) :
  Service.selectedPricing pricings weight
  = Refactored.selectPricingByWeight pricings weight.
Proof.
  unfold Service.selectedPricing, Refactored.selectPricingByWeight.
  destruct (matchingBreakpoint weight _); [reflexivity|].
  destruct (JS.lastOf _); reflexivity.
Qed.

(** C1: the rows with a breakpoint are sorted ascending; the row chosen
    has the greatest breakpoint not exceeding the weight, which is the
    highest breakpoint when the weight exceeds them all; with no breakpoint
    at all the catch-all row is chosen; on the ladder 0, 500, 1000 the
    weights 750, 1000 and 10000 choose the tiers 500, 1000 and 1000.  Both
    copies of the service choose the same row. *)
Theorem C1_weight_tier_selection (pricings : list Pricing.t) (weight : Q) :
  let sorted := JS.sortBy fst (withBreakpoint pricings) in
  let chosen := Refactored.selectPricingByWeight pricings weight in
  Service.selectedPricing pricings weight = chosen
  /\ StronglySorted (keyLe fst) sorted
  /\ Permutation sorted (withBreakpoint pricings)
  /\ ((exists p b, In p pricings /\ Pricing.breakpointValue p = Some b /\ b <= weight) ->
      exists sel bs,
        chosen = Some sel /\ In sel pricings
        /\ Pricing.breakpointValue sel = Some bs /\ bs <= weight
        /\ forall p b, In p pricings -> Pricing.breakpointValue p = Some b ->
                       b <= weight -> b <= bs)
  /\ (withBreakpoint pricings <> [] ->
      (forall p b, In p pricings -> Pricing.breakpointValue p = Some b -> b < weight) ->
      exists sel bs,
        chosen = Some sel /\ In sel pricings
        /\ Pricing.breakpointValue sel = Some bs
        /\ forall p b, In p pricings -> Pricing.breakpointValue p = Some b -> b <= bs)
  /\ (pricings <> [] ->
      (forall p, In p pricings -> Pricing.breakpointValue p = None) ->
      exists sel,
        chosen = Some sel /\ In sel pricings /\ Pricing.breakpointValue sel = None)
  /\ Refactored.selectPricingByWeight ladder 750 = Some (tier 500)
  /\ Refactored.selectPricingByWeight ladder 1000 = Some (tier 1000)
  /\ Refactored.selectPricingByWeight ladder 10000 = Some (tier 1000).
Proof.
  intros sorted chosen.
  assert (Hsorted : StronglySorted (keyLe fst) sorted) by apply sortBy_sorted.
  assert (Hgreatest :
    (exists p b, In p pricings /\ Pricing.breakpointValue p = Some b /\ b <= weight) ->
    exists sel bs,
      chosen = Some sel /\ In sel pricings
      /\ Pricing.breakpointValue sel = Some bs /\ bs <= weight
      /\ forall p b, In p pricings -> Pricing.breakpointValue p = Some b ->
                     b <= weight -> b <= bs).
  { intros [p [b [Hp [Hb Hle]]]].
    destruct (matchingBreakpoint_greatest weight sorted Hsorted)
      as [bs [sel [Hm [Hin [Hbs Hmax]]]]].
    { exists b, p. split; [|exact Hle].
      apply sortBy_In. now apply withBreakpoint_In. }
    apply sortBy_In, withBreakpoint_In in Hin. destruct Hin as [Hsel Hselb].
    exists sel, bs. split.
    { unfold chosen, Refactored.selectPricingByWeight. fold sorted. now rewrite Hm. }
    repeat split; try assumption.
    intros p' b' Hp' Hb' Hle'. apply (Hmax b' p'); [|exact Hle'].
    apply sortBy_In. now apply withBreakpoint_In. }
  split; [apply selectedPricing_same|].
  split; [exact Hsorted|].
  split; [apply sortBy_perm|].
  split; [exact Hgreatest|].
  split.
  { intros Hne Hall.
    destruct (withBreakpoint pricings) as [|[b p] rest] eqn:E; [congruence|].
    assert (Hin : In (b, p) (withBreakpoint pricings)) by (rewrite E; now left).
    apply withBreakpoint_In in Hin. destruct Hin as [Hp Hb].
    destruct Hgreatest as [sel [bs [Hc [Hsel [Hselb [_ Hmax]]]]]].
    { exists p, b. repeat split; try assumption.
      apply Qlt_le_weak. now apply (Hall p). }
    exists sel, bs. repeat split; try assumption.
    intros p' b' Hp' Hb'. apply (Hmax p' b' Hp' Hb').
    apply Qlt_le_weak. now apply (Hall p'). }
  split.
  { intros Hne Hall.
    assert (E : withBreakpoint pricings = []).
    { destruct (withBreakpoint pricings) as [|[b p] rest] eqn:E; [reflexivity|].
      assert (Hin : In (b, p) (withBreakpoint pricings)) by (rewrite E; now left).
      apply withBreakpoint_In in Hin. destruct Hin as [Hp Hb].
      rewrite (Hall p Hp) in Hb. discriminate. }
    destruct pricings as [|p rest]; [congruence|].
    assert (Hp : Pricing.breakpointValue p = None) by (apply Hall; now left).
    exists p. split; [|split; [now left|exact Hp]].
    unfold chosen, Refactored.selectPricingByWeight.
    rewrite E. simpl. now rewrite Hp. }
  repeat split; reflexivity.
Qed.

(** ** Classification by density *)

Lemma rowReturns_same (density : Q) (calc : Calc.t) :
  Refactored.rowReturns density calc = Service.rowReturns density calc.
Proof.
  unfold Refactored.rowReturns, Service.rowReturns.
  destruct (_ && JS.ltb density 1)%bool; [reflexivity|].
  destruct (JS.includes _ _) eqn:I; simpl; [|reflexivity].
  assert (N : (Calc.densityRange calc =? "50 or greater")%string = false).
  { destruct (String.eqb_spec (Calc.densityRange calc) "50 or greater") as [E|];
      [|reflexivity].
    rewrite E in I. discriminate I. }
  rewrite N. simpl.
  destruct (JS.parseFloat _) as [a|]; [|reflexivity].
  destruct (JS.parseFloat _) as [b|]; [|reflexivity].
  destruct (JS.geb density a && JS.ltb density b)%bool; reflexivity.
Qed.

Lemma findFreightClassByDensity_same (strapi : Strapi) (density : Q) :
  Refactored.findFreightClassByDensity strapi density
  = Service.findFreightClassByDensity strapi density.
Proof.
  unfold Refactored.findFreightClassByDensity, Service.findFreightClassByDensity.
  assert (E : forall l, Refactored.firstReturn density l = Service.firstReturn density l).
  { induction l as [|c l IH]; simpl; [reflexivity|].
    rewrite rowReturns_same, IH. reflexivity. }
  now rewrite E.
Qed.

(** On a label the code knows, its test is membership in the interval the
    label denotes. *)
Lemma prefix_app (p s : string) : String.prefix p (p ++ s) = true.
Proof.
  induction p as [|c p IH]; simpl; [now destruct s|].
  destruct (ascii_dec c c); [exact IH|congruence].
Qed.

Lemma includes_app (a p b : string) : JS.includes (a ++ p ++ b) p = true.
Proof.
  induction a as [|c a IH].
  - change (EmptyString ++ p ++ b)%string with (p ++ b)%string.
    assert (H := prefix_app p b).
    destruct (p ++ b)%string; cbn [JS.includes]; rewrite H; reflexivity.
  - change (String c a ++ p ++ b)%string with (String c (a ++ p ++ b)).
    cbn [JS.includes]. rewrite IH. apply orb_true_r.
Qed.

Lemma string_app_assoc (a b c : string) :
  ((a ++ b) ++ c = a ++ b ++ c)%string.
Proof. induction a as [|x a IH]; simpl; [reflexivity|now rewrite IH]. Qed.

(** A label of two bounds holds the words that the code looks for. *)
Lemma knownLabel_ranged (a b : string) :
  JS.includes (a ++ " but less than " ++ b) "but less than" = true.
Proof.
  change (a ++ " but less than " ++ b)%string
    with (a ++ " " ++ "but less than" ++ " " ++ b)%string.
  rewrite <- string_app_assoc. apply includes_app.
Qed.

Lemma rowReturns_inRange (density : Q) (calc : Calc.t) :
  knownLabel (Calc.densityRange calc) ->
  Service.rowReturns density calc = inRange density calc.
Proof.
  destruct calc as [sub range cls]. unfold knownLabel. simpl.
  unfold Service.rowReturns, inRange. simpl.
  intros [-> | [-> | [lo [hi [_ [_ E]]]]]];
    [| |assert (H : JS.includes range "but less than" = true)
          by (rewrite E; apply knownLabel_ranged)].
  - assert (E : labelInterval "Less than 1" = Some (LessThan 1)) by reflexivity.
    rewrite E. simpl member.
    assert (I : JS.includes "Less than 1" "but less than" = false) by reflexivity.
    rewrite I. rewrite String.eqb_refl.
    destruct (JS.ltb density 1); reflexivity.
  - assert (E : labelInterval "50 or greater" = Some (OrGreater 50)) by reflexivity.
    rewrite E. simpl member.
    assert (I : JS.includes "50 or greater" "but less than" = false) by reflexivity.
    rewrite I. rewrite String.eqb_refl.
    assert (N : ("50 or greater" =? "Less than 1")%string = false) by reflexivity.
    rewrite N. simpl. destruct (JS.geb density 50); reflexivity.
  - assert (N : (range =? "Less than 1")%string = false).
    { destruct (String.eqb_spec range "Less than 1") as [->|]; [|reflexivity].
      discriminate H. }
    rewrite N. simpl andb. cbv iota.
    unfold labelInterval. rewrite H.
    destruct (JS.parseFloat _) as [a|]; [|reflexivity].
    destruct (JS.parseFloat _) as [b|]; reflexivity.
Qed.


Lemma find_first {A} (f : A -> bool) (before after : list A) (x : A) :
  Forall (fun y => f y = false) before -> f x = true ->
  find f (before ++ x :: after)%list = Some x.
Proof.
  induction 1 as [|y before Hy _ IH]; simpl; intros Hx.
  - now rewrite Hx.
  - rewrite Hy. now apply IH.
Qed.


Lemma truthy_false (x : Q) : JS.truthy x = false <-> x == 0.
Proof.
  unfold JS.truthy. rewrite negb_false_iff. apply Qeq_bool_iff.
Qed.

Lemma truthy_true (x : Q) : JS.truthy x = true <-> ~ x == 0.
Proof.
  unfold JS.truthy. rewrite negb_true_iff. split.
  - intros H E. apply Qeq_bool_iff in E. congruence.
  - intros H. destruct (Qeq_bool x 0) eqn:E; [|reflexivity].
    apply Qeq_bool_iff in E. contradiction.
Qed.



(** The labels of the seed table are known ones. *)
Ltac numeral :=
  first [ left; split; [discriminate|reflexivity]
        | right; exists "22", "5";
          repeat split; first [discriminate|reflexivity] ].

Ltac ranged a b := exists a, b; split; [numeral|split; [numeral|reflexivity]].

Ltac seed_label :=
  cbn [Calc.densityRange]; unfold knownLabel;
  first [ left; reflexivity
        | right; left; reflexivity
        | right; right;
          first [ ranged "1" "2" | ranged "2" "4" | ranged "4" "6"
                | ranged "6" "8" | ranged "8" "10" | ranged "10" "12"
                | ranged "12" "15" | ranged "15" "22.5" | ranged "22.5" "30"
                | ranged "30" "35" | ranged "35" "50" ] ].


(** ** The tiers of price resolution *)

Lemma filter_filter {A} (f g : A -> bool) (l : list A) :
  filter f (filter g l) = filter (fun x => g x && f x)%bool l.
Proof.
  induction l as [|x l IH]; simpl; [reflexivity|].
  destruct (g x); simpl; [destruct (f x)|]; now rewrite IH.
Qed.

Lemma length_zero {A} (l : list A) :
  (List.length l =? 0)%nat = match l with [] => true | _ :: _ => false end.
Proof. destruct l; reflexivity. Qed.

Lemma lookupPricings_same (strapi : Strapi) (freightClass : Q) (band : string) :
  Refactored.findPricingEntries strapi freightClass band
  = Service.lookupPricings strapi freightClass band.
Proof. reflexivity. Qed.

Lemma prefix_inv (p s : string) :
  String.prefix p s = true <-> exists rest, s = (p ++ rest)%string.
Proof.
  split.
  - revert s. induction p as [|c p IH]; intros s H.
    + exists s. reflexivity.
    + destruct s as [|c' s]; [discriminate|]. simpl in H.
      destruct (ascii_dec c c') as [<-|]; [|discriminate].
      destruct (IH s H) as [rest ->]. exists rest. reflexivity.
  - intros [rest ->]. apply prefix_app.
Qed.

Lemma prefix_dash (c : ascii) (s : string) :
  String.prefix "-" (String c s) = Ascii.eqb c "-".
Proof.
  change (String.prefix "-" (String c s))
    with (if ascii_dec "-" c then String.prefix EmptyString s else false).
  destruct (ascii_dec "-" c) as [<-|N].
  - now destruct s.
  - symmetry. apply Ascii.eqb_neq. congruence.
Qed.

(** A band with a dash, as the code asks and as a text. *)
Lemma includes_dash (band : string) :
  JS.includes band "-" = true <-> exists a b, band = (a ++ "-" ++ b)%string.
Proof.
  split.
  - induction band as [|c s IH]; [discriminate|].
    cbn [JS.includes]. rewrite prefix_dash.
    destruct (Ascii.eqb_spec c "-") as [->|N].
    + intros _. exists EmptyString, s. reflexivity.
    + simpl. intros H. destruct (IH H) as [a [b ->]].
      exists (String c a), b. reflexivity.
  - intros [a [b ->]]. apply includes_app.
Qed.

(** The first piece of the band split at its dashes. *)
Lemma split_first (cur : list ascii) (s : string) :
  nth 0 (JS.split_go "-" 0 cur s) EmptyString
  = (JS.unchars (rev cur) ++ beforeDash s)%string.
Proof.
  revert cur. induction s as [|c s IH]; intros cur.
  - simpl. generalize (JS.unchars (rev cur)). intros t.
    induction t as [|x t IHt]; simpl; congruence.
  - cbn [JS.split_go beforeDash]. rewrite prefix_dash.
    destruct (Ascii.eqb c "-").
    + simpl. generalize (JS.unchars (rev cur)). intros t.
      induction t as [|x t IHt]; simpl; congruence.
    + rewrite IH. simpl rev.
      assert (U : forall l l', JS.unchars (l ++ l')
                               = (JS.unchars l ++ JS.unchars l')%string).
      { intros l l'. induction l as [|x l IHl]; simpl; congruence. }
      rewrite U. simpl. now rewrite string_app_assoc.
Qed.

Lemma rangeStart_lowerToken (band : string) :
  JS.trim (nth 0 (JS.split band "-") EmptyString) = lowerToken band.
Proof. unfold JS.split, lowerToken. now rewrite split_first. Qed.

(** The filter of the second lookup, on a band that is not empty. *)
Lemma rangeFilter_tier2 (band : string) (p : Pricing.t) :
  band <> EmptyString ->
  rangeFilter band p
  = match Pricing.distance p with
    | Some d =>
        ((d =? band)%string || (d =? lowerToken band)%string
         || String.prefix (lowerToken band) d)%bool
    | None => (lowerToken band =? EmptyString)%string
    end.
Proof.
  intros Hne. unfold rangeFilter, pDistance, JS.startsWith.
  rewrite rangeStart_lowerToken.
  destruct (Pricing.distance p) as [d|].
  - destruct (d =? band)%string; simpl; [reflexivity|apply orb_comm].
  - assert (N : (EmptyString =? band)%string = false).
    { apply String.eqb_neq. congruence. }
    rewrite N. now destruct (lowerToken band).
Qed.

Lemma lookupPricings_resolveBySpec (strapi : Strapi) (freightClass : Q)
  (band : string) :
  Service.lookupPricings strapi freightClass band
  = resolveBySpec (freightClassPricings strapi) freightClass band.
Proof.
  unfold Service.lookupPricings, resolveBySpec, tier1, tier2, tier3.
  rewrite !filter_filter.
  set (table := freightClassPricings strapi).
  unfold ofClass.
  rewrite !length_zero.
  set (rows1 := filter _ table).
  destruct rows1 as [|r1 rows1]; simpl; [|reflexivity].
  destruct (JS.includes band "-") eqn:Hi; [|reflexivity].
  assert (Hne : band <> EmptyString) by (intros ->; discriminate Hi).
  assert (E2 : forall g : Pricing.t -> bool,
            filter (fun x => g x && rangeFilter band x)%bool table
            = filter (fun x => g x && match Pricing.distance x with
                                      | Some d =>
                                          (d =? band)%string
                                          || (d =? lowerToken band)%string
                                          || String.prefix (lowerToken band) d
                                      | None =>
                                          (lowerToken band =? EmptyString)%string
                                      end)%bool table).
  { intros g. apply filter_ext. intros p.
    now rewrite (rangeFilter_tier2 band p Hne). }
  rewrite E2.
  match goal with |- context [filter ?f table] => destruct (filter f table) end;
    reflexivity.
Qed.

(** C4: both copies resolve the rows tier by tier.  The first tier is the
    rows of the rounded class stored at exactly the band.  When there is
    none and the band has a dash, the second tier is the rows of the
    class stored at a text that starts with the band's lower-bound token
    (the token itself included), a row without a distance counting as
    stored at the empty text.  When that tier is empty too, or the band
    has no dash, all rows of the class are returned.  The rows come in
    the order of the table.  On the table of older distances the bands
    "0-99km" and "100 - 199km" are answered from the second tier (the
    latter with the row stored at "1000+km", which starts with its token
    "100"), "200-299km" from the third and "1000+km" from the first. *)
Theorem C4_tiers_in_order (strapi : Strapi) (freightClass : Q) (band : string) :
  let table := freightClassPricings strapi in
  let rows := Service.lookupPricings strapi freightClass band in
  let token := lowerToken band in
  let ofTheClass p :=
    In p table /\ Pricing.freightClass p == JS.Math_round freightClass in
  let exact p := ofTheClass p /\ Pricing.distance p = Some band in
  let ranged p :=
    ofTheClass p
    /\ ((exists rest, Pricing.distance p = Some (token ++ rest)%string)
        \/ (Pricing.distance p = None /\ token = EmptyString)) in
  let dashed := exists a b, band = (a ++ "-" ++ b)%string in
  Refactored.findPricingEntries strapi freightClass band = rows
  /\ rows = resolveBySpec table freightClass band
  /\ (tier1 table freightClass band <> [] -> rows = tier1 table freightClass band)
  /\ ((exists p, exact p) -> forall p, In p rows <-> exact p)
  /\ (tier1 table freightClass band = [] -> JS.includes band "-" = true ->
      tier2 table freightClass band <> [] ->
      rows = tier2 table freightClass band)
  /\ (tier1 table freightClass band = [] ->
      JS.includes band "-" = false \/ tier2 table freightClass band = [] ->
      rows = tier3 table freightClass)
  /\ (forall p, In p rows -> ofTheClass p)
  /\ ((forall p, ~ exact p) -> dashed -> (exists p, ranged p) ->
      forall p, In p rows <-> ranged p)
  /\ ((forall p, ~ exact p) -> ~ dashed \/ (forall p, ~ ranged p) ->
      forall p, In p rows <-> ofTheClass p)
  /\ Service.lookupPricings legacyStore 50 "0-99km"
     = [storedAt 50 (Some "0") 10; storedAt 50 (Some "0-499") 11]
  /\ Service.lookupPricings legacyStore 50 "100 - 199km"
     = [storedAt 50 (Some "100") 12; storedAt 50 (Some "1000+km") 15]
  /\ Service.lookupPricings legacyStore 50 "200-299km"
     = [storedAt 50 (Some "0") 10; storedAt 50 (Some "0-499") 11;
        storedAt 50 (Some "100") 12; storedAt 50 None 13;
        storedAt 50 (Some "1000+km") 15]
  /\ Service.lookupPricings legacyStore 50 "1000+km"
     = [storedAt 50 (Some "1000+km") 15]
  /\ Service.lookupPricings legacyStore 70 "-5"
     = [storedAt 70 (Some "0") 14]
  /\ Service.lookupPricings legacyStore 50 "-5" = tier3 legacyPricings 50.
Proof.
  intros table rows token ofTheClass exact ranged dashed.
  assert (E : rows = resolveBySpec table freightClass band)
    by apply lookupPricings_resolveBySpec.
  assert (H1 : forall p, In p (tier1 table freightClass band) <-> exact p).
  { intros p. unfold tier1, exact, ofTheClass.
    rewrite filter_In, andb_true_iff.
    unfold ofClass, JS.eqb. rewrite Qeq_bool_iff.
    destruct (Pricing.distance p) as [d|].
    - rewrite String.eqb_eq. split.
      + intros [? [? ->]]. auto.
      + intros [[? ?] [= ->]]. auto.
    - split; [intros [? [? ?]]; discriminate|intros [? ?]; discriminate]. }
  assert (H3 : forall p, In p (tier3 table freightClass) <-> ofTheClass p).
  { intros p. unfold tier3, ofTheClass, ofClass, JS.eqb.
    now rewrite filter_In, Qeq_bool_iff. }
  assert (H2 : (forall p, ~ exact p) ->
               forall p, In p (tier2 table freightClass band) <-> ranged p).
  { intros Hno p. unfold tier2, ranged. fold token.
    rewrite filter_In, andb_true_iff.
    assert (Hc : ofClass freightClass p = true
                 <-> Pricing.freightClass p == JS.Math_round freightClass).
    { unfold ofClass, JS.eqb. apply Qeq_bool_iff. }
    rewrite Hc. unfold ofTheClass.
    destruct (Pricing.distance p) as [d|] eqn:Ed.
    - rewrite !orb_true_iff, !String.eqb_eq, prefix_inv. split.
      + intros [Hin [Hcl [[->| ->]|[rest ->]]]].
        * exfalso. apply (Hno p). unfold exact, ofTheClass. auto.
        * split; [auto|]. left. exists EmptyString.
          f_equal. clear. induction token as [|c t IH]; simpl; congruence.
        * split; [auto|]. left. now exists rest.
      + intros [[Hin Hcl] [[rest [= ->]]|[[=] _]]].
        split; [exact Hin|]. split; [exact Hcl|]. right. now exists rest.
    - rewrite String.eqb_eq. split.
      + intros [Hin [Hcl Ht]]. split; [auto|]. right. auto.
      + intros [[Hin Hcl] [[rest [=]]|[_ Ht]]]. auto. }
  assert (N1 : (forall p, ~ exact p) -> tier1 table freightClass band = []).
  { intros Hno. destruct (tier1 table freightClass band) as [|r rs] eqn:E1;
      [reflexivity|].
    exfalso. apply (Hno r). apply (proj1 (H1 r)). now left. }
  split; [apply lookupPricings_same|].
  split; [exact E|].
  split.
  { intros Hne. rewrite E. unfold resolveBySpec.
    destruct (tier1 table freightClass band); [congruence|reflexivity]. }
  split.
  { intros [p0 Hp0] p. apply H1 in Hp0. rewrite E. unfold resolveBySpec.
    destruct (tier1 table freightClass band) as [|r rs]; [destruct Hp0|].
    apply H1. }
  split.
  { intros E1 Hi Hne. rewrite E. unfold resolveBySpec. rewrite E1, Hi.
    destruct (tier2 table freightClass band); [congruence|reflexivity]. }
  split.
  { intros E1 [Hi|E2]; rewrite E; unfold resolveBySpec; rewrite E1.
    - now rewrite Hi.
    - rewrite E2. now destruct (JS.includes band "-"). }
  split.
  { intros p. rewrite E. unfold resolveBySpec.
    assert (T : forall f,
              In p (filter (fun p => ofClass freightClass p && f p)%bool table) ->
              ofTheClass p).
    { intros f Hin. apply filter_In in Hin. destruct Hin as [Hin Hp].
      apply andb_true_iff in Hp. destruct Hp as [Hp _].
      split; [exact Hin|]. now apply Qeq_bool_iff. }
    destruct (tier1 table freightClass band) as [|r rs] eqn:E1.
    - destruct (JS.includes band "-"); [|apply H3].
      destruct (tier2 table freightClass band) as [|r2 rs2] eqn:E2; [apply H3|].
      rewrite <- E2. apply T.
    - rewrite <- E1. apply T. }
  split.
  { intros Hno Hd [p0 Hp0] p. apply includes_dash in Hd.
    apply (proj2 (H2 Hno p0)) in Hp0.
    rewrite E. unfold resolveBySpec. rewrite (N1 Hno), Hd.
    destruct (tier2 table freightClass band) as [|r2 rs2] eqn:E2;
      [destruct Hp0|].
    apply (H2 Hno). }
  split.
  { intros Hno Hor p. rewrite E. unfold resolveBySpec. rewrite (N1 Hno).
    destruct Hor as [Hd|Hnone].
    - destruct (JS.includes band "-") eqn:Hi; [|apply H3].
      exfalso. apply Hd. now apply includes_dash.
    - destruct (JS.includes band "-"); [|apply H3].
      destruct (tier2 table freightClass band) as [|r2 rs2] eqn:E2; [apply H3|].
      exfalso. apply (Hnone r2). apply (proj1 (H2 Hno r2)). now left. }
  repeat split; vm_compute; reflexivity.
Qed.

(** ** The nearest class *)

Lemma Math_round_idem (x : Q) : JS.Math_round (JS.Math_round x) = JS.Math_round x.
Proof.
  unfold JS.Math_round. f_equal.
  generalize (Qfloor (x + (1 # 2))). intros z.
  unfold Qfloor, inject_Z, Qplus. simpl.
  rewrite Z.div_add_l by discriminate.
  change (1 / 2)%Z with 0%Z. apply Z.add_0_r.
Qed.

Lemma findPrice_same (strapi : Strapi) (freightClass : Q) (band : string)
  (weight : Q) :
  Service.findPriceAndRateByClassAndDistance strapi freightClass band weight
  = Refactored.findPriceAndRateByClassAndDistance strapi freightClass band weight.
Proof.
  unfold Service.findPriceAndRateByClassAndDistance,
         Refactored.findPriceAndRateByClassAndDistance.
  cbv zeta. rewrite <- lookupPricings_same, selectedPricing_same. reflexivity.
Qed.

(** The lookup rounds the class itself, so the class rounded finds what
    the class found. *)
Lemma findPrice_rounded (strapi : Strapi) (freightClass : Q) (band : string)
  (weight : Q) :
  Refactored.findPriceAndRateByClassAndDistance strapi
    (JS.Math_round freightClass) band weight
  = Refactored.findPriceAndRateByClassAndDistance strapi freightClass band weight.
Proof.
  unfold Refactored.findPriceAndRateByClassAndDistance, Refactored.findPricingEntries.
  rewrite Math_round_idem. reflexivity.
Qed.

Lemma nearestLoop_fold (c : Q) (l : list Q) (nearest : Q) :
  Service.nearestLoop c l nearest (JS.Math_abs (c - nearest))
  = fold_left
      (fun nearest current =>
         if JS.ltb (JS.Math_abs (current - c)) (JS.Math_abs (nearest - c))
         then current else nearest) l nearest.
Proof.
  revert nearest. induction l as [|a l IH]; intros nearest;
    cbn [Service.nearestLoop fold_left]; [reflexivity|].
  unfold JS.Math_abs in *.
  rewrite (Qabs_Qminus a c), (Qabs_Qminus nearest c).
  destruct (JS.ltb (Qabs (c - a)) (Qabs (c - nearest))); apply IH.
Qed.

Lemma resolvePrice_same (strapi : Strapi) (c distanceKm : Q) (band : string)
  (weight : Q) :
  Service.resolvePrice strapi c distanceKm band weight
  = Refactored.resolvePrice strapi c distanceKm band weight.
Proof.
  unfold Service.resolvePrice, Refactored.resolvePrice.
  rewrite !findPrice_same.
  destruct (Refactored.findPriceAndRateByClassAndDistance strapi c band weight);
    [reflexivity|].
  destruct (JS.fractional c).
  - destruct (Refactored.findPriceAndRateByClassAndDistance strapi
                (JS.Math_round c) band weight); [reflexivity|].
    destruct (JS.sortBy _ _) as [|first rest]; [reflexivity|].
    rewrite nearestLoop_fold, ?findPrice_same. reflexivity.
  - destruct (JS.sortBy _ _) as [|first rest]; [reflexivity|].
    rewrite nearestLoop_fold, ?findPrice_same. reflexivity.
Qed.

Section Nearest.
Variable c : Q.

(** The fold keeps an element of least distance to [c], and on an
    ascending list the least of those. *)
Lemma fold_nearest (l : list Q) (acc : Q) :
  forall n,
  n = fold_left
        (fun nearest current =>
           if JS.ltb (JS.Math_abs (current - c)) (JS.Math_abs (nearest - c))
           then current else nearest) l acc ->
  In n (acc :: l)
  /\ (forall x, In x (acc :: l) -> Qabs (n - c) <= Qabs (x - c))
  /\ (StronglySorted Qle (acc :: l) ->
      forall x, In x (acc :: l) -> Qabs (x - c) == Qabs (n - c) -> n <= x).
Proof.
  revert acc. induction l as [|y l IH]; intros acc n ->; cbn [fold_left].
  - split; [now left|]. split.
    + intros x [<-|[]]. apply Qle_refl.
    + intros _ x [<-|[]] _. apply Qle_refl.
  - change (JS.ltb (JS.Math_abs (y - c)) (JS.Math_abs (acc - c)))
      with (JS.ltb (Qabs (y - c)) (Qabs (acc - c))).
    destruct (JS.ltb (Qabs (y - c)) (Qabs (acc - c))) eqn:E.
    + apply ltb_lt in E.
      destruct (IH y _ eq_refl) as [Hin [Hmin Htie]].
      set (n := fold_left _ l y) in *.
      split; [now right|]. split.
      * intros x [<-|Hx]; [|now apply Hmin].
        apply Qlt_le_weak. eapply Qle_lt_trans; [|exact E].
        apply Hmin. now left.
      * intros Hs x [<-|Hx] Hx'.
        -- exfalso. apply (Qlt_not_le _ _ E). rewrite Hx'.
           apply Hmin. now left.
        -- apply Htie; [now inversion Hs|exact Hx|exact Hx'].
    + apply ltb_ge in E.
      destruct (IH acc _ eq_refl) as [Hin [Hmin Htie]].
      set (n := fold_left _ l acc) in *.
      assert (Hacc : Qabs (n - c) <= Qabs (acc - c))
        by (apply Hmin; now left).
      split; [destruct Hin as [Hin|Hin]; [now left|now right; right]|].
      split.
      * intros x [<-|[<-|Hx]].
        -- exact Hacc.
        -- eapply Qle_trans; [exact Hacc|exact E].
        -- apply Hmin. now right.
      * intros Hs.
        assert (Hs' : StronglySorted Qle (acc :: l)).
        { inversion Hs as [|? ? Hs1 Hall]; subst.
          inversion Hs1; subst. inversion Hall; subst.
          now constructor. }
        intros x [<-|[<-|Hx]] Hx'.
        -- apply Htie; [exact Hs'|now left|exact Hx'].
        -- apply Qle_trans with acc.
           ++ apply Htie; [exact Hs'|now left|].
              apply Qle_antisym; [|exact Hacc].
              rewrite <- Hx'. exact E.
           ++ inversion Hs as [|? ? _ Hall]; subst. now inversion Hall.
        -- apply Htie; [exact Hs'|now right|exact Hx'].
Qed.

End Nearest.

Lemma distinct_In (l seen : list Q) (x : Q) : In x (distinct seen l) -> In x l.
Proof.
  revert seen. induction l as [|a l IH]; intros seen; simpl; [tauto|].
  destruct (existsb (JS.eqb a) seen).
  - intros H. right. now apply (IH seen).
  - intros [<-|H]; [now left|]. right. now apply (IH (a :: seen)).
Qed.

Lemma distinct_complete (l seen : list Q) (x : Q) :
  In x l ->
  (exists y, In y seen /\ x == y) \/ (exists y, In y (distinct seen l) /\ x == y).
Proof.
  revert seen. induction l as [|a l IH]; intros seen; simpl; [tauto|].
  destruct (existsb (JS.eqb a) seen) eqn:E.
  - intros [<-|Hx]; [|now apply IH].
    left. apply existsb_exists in E. destruct E as [y [Hy E]].
    exists y. split; [exact Hy|]. now apply Qeq_bool_iff.
  - intros [<-|Hx].
    + right. exists a. split; [now left|reflexivity].
    + destruct (IH (a :: seen) Hx) as [[y [[<-|Hy] Hxy]]|[y [Hy Hxy]]].
      * right. exists a. split; [now left|exact Hxy].
      * left. now exists y.
      * right. exists y. split; [now right|exact Hxy].
Qed.

Lemma empty_table_no_price (strapi : Strapi) (c : Q) (band : string) (weight : Q) :
  freightClassPricings strapi = [] ->
  Refactored.findPriceAndRateByClassAndDistance strapi c band weight = None.
Proof.
  intros E. unfold Refactored.findPriceAndRateByClassAndDistance,
    Refactored.findPricingEntries. rewrite E. simpl.
  destruct (JS.includes band "-"); reflexivity.
Qed.

Lemma available_classes (table : list Pricing.t) :
  let classes :=
    JS.sortBy (fun c => c) (distinct [] (map Pricing.freightClass table)) in
  StronglySorted Qle classes
  /\ (forall n, In n classes -> exists p, In p table /\ Pricing.freightClass p = n)
  /\ (forall p, In p table -> exists n, In n classes /\ Pricing.freightClass p == n).
Proof.
  intros classes. unfold classes. clear classes.
  split; [apply (sortBy_sorted (fun c : Q => c))|]. split.
  - intros n Hn. apply (proj1 (sortBy_In (fun c : Q => c) _ _)) in Hn.
    apply distinct_In, in_map_iff in Hn. destruct Hn as [p [E Hp]]. now exists p.
  - intros p Hp.
    destruct (distinct_complete (map Pricing.freightClass table) []
                (Pricing.freightClass p)) as [[y [[] _]]|[y [Hy E]]].
    { now apply in_map. }
    exists y. split; [|exact E]. now apply (proj2 (sortBy_In (fun c : Q => c) _ _)).
Qed.

(** A box that throws stops the loop over the boxes. *)
Lemma Refactored_boxes_throw (strapi : Strapi) (distanceKm : Q) (band : string)
  (pre post : list Box.t) (box : Box.t) (e : error)
  (origin : option string) (dest country : string) :
  Forall (fun b => exists r, Refactored.quoteBox strapi distanceKm band b = Ok r) pre ->
  Refactored.quoteBox strapi distanceKm band box = Throw e ->
  Refactored.calculateShippingForBoxes strapi (pre ++ box :: post) distanceKm band
    origin dest country = Throw e.
Proof.
  intros Hpre Hbox. unfold Refactored.calculateShippingForBoxes.
  assert (E : forall acc sub,
             Refactored.forBoxes strapi distanceKm band (pre ++ box :: post) acc sub
             = Throw e).
  { induction Hpre as [|b pre [r Hb] _ IH]; intros acc sub; simpl.
    - now rewrite Hbox.
    - rewrite Hb. simpl. apply IH. }
  now rewrite E.
Qed.

Lemma Service_boxes_throw (strapi : Strapi) (distanceKm : Q) (band : string)
  (pre post : list Box.t) (box : Box.t) (e : error)
  (origin : option string) (dest country : string) :
  Forall (fun b => exists r, Service.quoteBox strapi distanceKm band b = Ok r) pre ->
  Service.quoteBox strapi distanceKm band box = Throw e ->
  Service.calculateShippingForBoxes strapi (pre ++ box :: post) distanceKm band
    origin dest country = Throw e.
Proof.
  intros Hpre Hbox. unfold Service.calculateShippingForBoxes.
  assert (E : forall acc sub,
             Service.forBoxes strapi distanceKm band (pre ++ box :: post) acc sub
             = Throw e).
  { induction Hpre as [|b pre [r Hb] _ IH]; intros acc sub; simpl.
    - now rewrite Hbox.
    - rewrite Hb. simpl. apply IH. }
  now rewrite E.
Qed.

(** A box with its four measurements, none zero, and a class: its quote
    throws what the resolution of its price throws. *)
Lemma Refactored_quoteBox_throw (strapi : Strapi) (distanceKm : Q) (band : string)
  (l w h weight c : Q) (e : error) :
  JS.truthy l = true -> JS.truthy w = true -> JS.truthy h = true ->
  JS.truthy weight = true ->
  Refactored.findFreightClassByDensity strapi
    (Refactored.calculateDensity l w h weight) = Some c ->
  JS.truthy c = true ->
  Refactored.resolvePrice strapi c distanceKm band weight = Throw e ->
  Refactored.quoteBox strapi distanceKm band
    (Box.mk (Some l) (Some w) (Some h) (Some weight)) = Throw e.
Proof.
  intros Hl Hw Hh Hwt Hc Hct Hr. unfold Refactored.quoteBox. simpl.
  rewrite Hl, Hw, Hh, Hwt, Hc, Hct, Hr. reflexivity.
Qed.

Lemma Service_quoteBox_throw (strapi : Strapi) (distanceKm : Q) (band : string)
  (l w h grams c : Q) (e : error) :
  JS.truthy l = true -> JS.truthy w = true -> JS.truthy h = true ->
  JS.truthy grams = true ->
  Service.findFreightClassByDensity strapi
    (Service.calculateDensity l w h grams) = Some c ->
  JS.truthy c = true ->
  Service.resolvePrice strapi c distanceKm band (Service.gramsToPounds grams)
  = Throw e ->
  Service.quoteBox strapi distanceKm band
    (Box.mk (Some l) (Some w) (Some h) (Some grams)) = Throw e.
Proof.
  intros Hl Hw Hh Hwt Hc Hct Hr. unfold Service.quoteBox. simpl.
  rewrite Hl, Hw, Hh, Hwt, Hc, Hct, Hr. reflexivity.
Qed.

(** C5: when the class computed finds no price, the class rounded finds
    none either; on an empty price table the resolution throws the
    no-data error; otherwise the class tried next is a class of the
    table of least absolute difference from the class computed, the
    lowest of those, and when it finds no price either the resolution
    throws the error that names the class computed, the class tried, the
    distance, the band and the weight.  Both copies resolve alike, and
    what the resolution throws for a box the shipment throws. *)
Theorem C5_nearest_class_fallback (strapi : Strapi) (c distanceKm : Q)
  (band : string) (weight : Q) :
  let find := Refactored.findPriceAndRateByClassAndDistance strapi in
  let table := freightClassPricings strapi in
  let outcome := Refactored.resolvePrice strapi c distanceKm band weight in
  find c band weight = None ->
  Service.resolvePrice strapi c distanceKm band weight = outcome
  /\ find (JS.Math_round c) band weight = None
  /\ (table = [] -> outcome = Throw NoPricingData)
  /\ (table <> [] ->
      exists p, In p table
        /\ (forall q, In q table ->
              Qabs (c - Pricing.freightClass p) <= Qabs (c - Pricing.freightClass q))
        /\ (forall q, In q table ->
              Qabs (c - Pricing.freightClass q) == Qabs (c - Pricing.freightClass p) ->
              Pricing.freightClass p <= Pricing.freightClass q)
        /\ match find (Pricing.freightClass p) band weight with
           | None =>
               outcome = Throw (NoPricingFound c (Pricing.freightClass p)
                                  distanceKm band weight)
           | Some r => outcome = Ok (r, Pricing.freightClass p)
           end)
  /\ (forall e l w h pre post origin dest country,
        outcome = Throw e ->
        JS.truthy l = true -> JS.truthy w = true -> JS.truthy h = true ->
        JS.truthy weight = true -> JS.truthy c = true ->
        Refactored.findFreightClassByDensity strapi
          (Refactored.calculateDensity l w h weight) = Some c ->
        Forall (fun b => exists r,
                  Refactored.quoteBox strapi distanceKm band b = Ok r) pre ->
        Refactored.calculateShippingForBoxes strapi
          (pre ++ Box.mk (Some l) (Some w) (Some h) (Some weight) :: post)
          distanceKm band origin dest country = Throw e)
  /\ (forall e l w h grams pre post origin dest country,
        outcome = Throw e ->
        Service.gramsToPounds grams = weight ->
        JS.truthy l = true -> JS.truthy w = true -> JS.truthy h = true ->
        JS.truthy grams = true -> JS.truthy c = true ->
        Service.findFreightClassByDensity strapi
          (Service.calculateDensity l w h grams) = Some c ->
        Forall (fun b => exists r,
                  Service.quoteBox strapi distanceKm band b = Ok r) pre ->
        Service.calculateShippingForBoxes strapi
          (pre ++ Box.mk (Some l) (Some w) (Some h) (Some grams) :: post)
          distanceKm band origin dest country = Throw e).
Proof.
  intros find table outcome Hnone.
  assert (Hround : find (JS.Math_round c) band weight = None).
  { unfold find. now rewrite findPrice_rounded. }
  assert (Hout : outcome =
    match JS.sortBy (fun c => c) (distinct [] (map Pricing.freightClass table)) with
    | [] => Throw NoPricingData
    | first :: rest =>
        let n := fold_left
                   (fun nearest current =>
                      if JS.ltb (JS.Math_abs (current - c)) (JS.Math_abs (nearest - c))
                      then current else nearest) (first :: rest) first in
        match find n band weight with
        | None => Throw (NoPricingFound c n distanceKm band weight)
        | Some r => Ok (r, n)
        end
    end).
  { unfold outcome, Refactored.resolvePrice. fold find. fold table.
    rewrite Hnone, Hround.
    destruct (JS.fractional c);
      destruct (JS.sortBy (fun c => c) (distinct [] (map Pricing.freightClass table)));
      reflexivity. }
  destruct (available_classes table) as [Hsorted [Hsound Hcomplete]].
  split; [apply resolvePrice_same|].
  split; [exact Hround|].
  split.
  { intros E. rewrite Hout, E. reflexivity. }
  split.
  { intros Hne. rewrite Hout.
    destruct (JS.sortBy (fun c => c) (distinct [] (map Pricing.freightClass table)))
      as [|first rest] eqn:EL.
    { exfalso. destruct table as [|p0 table']; [congruence|].
      destruct (Hcomplete p0 (or_introl eq_refl)) as [n [[] _]]. }
    cbv zeta.
    set (n := fold_left _ (first :: rest) first) in *.
    destruct (fold_nearest c (first :: rest) first n eq_refl) as [Hin [Hmin Htie]].
    assert (Hn : In n (first :: rest)).
    { destruct Hin as [<-|Hin]; [now left|exact Hin]. }
    clearbody n.
    destruct (Hsound n Hn) as [p [Hp En]].
    exists p. rewrite En. split; [exact Hp|]. split.
    { intros q Hq. destruct (Hcomplete q Hq) as [y [Hy Ey]].
      rewrite (Qabs_Qminus c n), (Qabs_Qminus c (Pricing.freightClass q)).
      rewrite Ey. apply Hmin. now right. }
    split; [|destruct (find n band weight); reflexivity].
    intros q Hq. destruct (Hcomplete q Hq) as [y [Hy Ey]].
    rewrite (Qabs_Qminus c n), (Qabs_Qminus c (Pricing.freightClass q)).
    rewrite Ey. intros Etie. apply Htie; [|now right|exact Etie].
    constructor; [exact Hsorted|].
    inversion Hsorted as [|? ? _ Hall]; subst.
    constructor; [apply Qle_refl|exact Hall]. }
  split.
  { intros e l w h pre post origin dest country He Hl Hw Hh Hwt Hct Hc Hpre.
    apply Refactored_boxes_throw; [exact Hpre|].
    now apply (Refactored_quoteBox_throw strapi distanceKm band l w h weight c). }
  intros e l w h grams pre post origin dest country He Hg Hl Hw Hh Hwt Hct Hc Hpre.
  apply Service_boxes_throw; [exact Hpre|].
  apply (Service_quoteBox_throw strapi distanceKm band l w h grams c); try assumption.
  rewrite Hg, resolvePrice_same. exact He.
Qed.

(** In the ladder store, which prices class 100 only, the class 85 finds
    no price. *)
Lemma C5_witness_class_85 :
  Refactored.findPriceAndRateByClassAndDistance ladderStore 85 "0-99km" 200 = None
  /\ Service.resolvePrice ladderStore 85 50 "0-99km" 200
     = Refactored.resolvePrice ladderStore 85 50 "0-99km" 200.
Proof.
  assert (H : Refactored.findPriceAndRateByClassAndDistance
                ladderStore 85 "0-99km" 200 = None) by (vm_compute; reflexivity).
  split; [exact H|].
  exact (proj1 (C5_nearest_class_fallback ladderStore 85 50 "0-99km" 200 H)).
Defined.

(** ** The quote and its total *)

Lemma Refactored_forBoxes_sum (strapi : Strapi) (distanceKm : Q) (band : string)
  (boxes : list Box.t) (acc rs : list BoxQuote) (s sub : Q) :
  Refactored.forBoxes strapi distanceKm band boxes acc s = Ok (rs, sub) ->
  exists lines,
    Forall2 (fun b line => Refactored.quoteBox strapi distanceKm band b = Ok line)
            boxes lines
    /\ rs = (acc ++ map fst lines)%list
    /\ sub = fold_left Qplus (map snd lines) s.
Proof.
  revert acc s. induction boxes as [|b boxes IH]; intros acc s; simpl.
  - intros [= <- <-]. exists []. split; [constructor|].
    split; [now rewrite app_nil_r|reflexivity].
  - destruct (Refactored.quoteBox strapi distanceKm band b) as [line|e] eqn:E;
      simpl; [|discriminate].
    intros H. destruct (IH _ _ H) as [lines [Hall [Hrs Hsub]]].
    exists (line :: lines). split; [now constructor|].
    split; [|exact Hsub]. rewrite Hrs, <- app_assoc. reflexivity.
Qed.

(** The subtotal of a quote is the sum of the unrounded prices of its
    boxes, rounded to three decimals; the total is the subtotal less the
    discount, rounded to three decimals, and is not clamped. *)
Lemma Refactored_quote_total (strapi : Strapi) (boxes : list Box.t)
  (distanceKm : Q) (band : string) (origin : option string)
  (dest country : string) (q : Quote) :
  Refactored.calculateShippingForBoxes strapi boxes distanceKm band origin dest country
  = Ok q ->
  exists lines,
    Forall2 (fun b line => Refactored.quoteBox strapi distanceKm band b = Ok line)
            boxes lines
    /\ q_boxes q = map fst lines
    /\ let subtotal := fold_left Qplus (map snd lines) 0 in
       let percent := discountPercentOf (discountSetting strapi) in
       q_subtotal q = JS.toFixed 3 subtotal
       /\ q_discountPercent q = percent
       /\ q_total q = JS.toFixed 3 (subtotal - subtotal * (percent / 100)).
Proof.
  unfold Refactored.calculateShippingForBoxes.
  destruct (Refactored.forBoxes strapi distanceKm band boxes [] 0)
    as [[rs sub]|e] eqn:E; simpl; [|discriminate].
  intros [= <-]. simpl.
  destruct (Refactored_forBoxes_sum _ _ _ _ _ _ _ _ E) as [lines [Hall [Hrs Hsub]]].
  exists lines. subst. auto.
Qed.

(** Within the bounds of the data model the clamp changes nothing: the
    total before rounding is the clamped total of the specification. *)
Lemma total_within_bounds (subtotal : Q) (s : Settings.t) :
  0 <= subtotal -> 0 <= Settings.discountPercentage s <= 100 ->
  let percent := discountPercentOf (Some s) in
  subtotal - subtotal * (percent / 100) == totalBySpec subtotal (Some s).
Proof.
  intros Hsub [Hp0 Hp100]. unfold discountPercentOf, totalBySpec.
  set (p := Settings.discountPercentage s) in *.
  assert (Hnn : 0 <= subtotal * (1 - p / 100)).
  { apply Qmult_le_0_compat; [exact Hsub|].
    setoid_replace (1 - p / 100) with ((100 - p) / 100) by field.
    apply Qle_shift_div_l; [reflexivity|].
    setoid_replace (0 * 100) with 0 by ring.
    unfold Qminus. rewrite <- (Qplus_opp_r p).
    apply Qplus_le_l. exact Hp100. }
  destruct (Settings.isDiscountEnabled s); simpl.
  - destruct (JS.truthy p) eqn:Et.
    + assert (Hpos : JS.ltb 0 p = true).
      { apply ltb_lt. apply Qle_lteq in Hp0. destruct Hp0 as [H|H]; [exact H|].
        apply truthy_true in Et. exfalso. apply Et. symmetry. exact H. }
      rewrite Hpos. unfold JS.Math_max.
      apply Qle_bool_iff in Hnn. rewrite Hnn. field.
    + apply truthy_false in Et.
      assert (Hz : JS.ltb 0 p = false) by (apply ltb_ge; rewrite Et; apply Qle_refl).
      rewrite Hz. field.
  - field.
Qed.

(** C6: with the discount enabled at 150 percent, the pallet quoted at 100
    comes out with the total -50 in both copies of the service, where the
    clamped total is 0; at 10 percent the total is 90. *)
Theorem C6_total_below_zero :
  (exists q,
     Refactored.calculateShippingForBoxes (palletStore 150) [pallet]
       250 "200-299km" (Some "H2K 4P5") "M5V 2T6" "CA" = Ok q
     /\ q_subtotal q == 100 /\ q_discountPercent q == 150 /\ q_total q == -50)
  /\ (exists q,
     Service.calculateShippingForBoxes (palletStore 150)
       [Box.mk (Some 3048) (Some 2032) (Some 1524) (Some 226796)]
       250 "200-299km" (Some "H2K 4P5") "M5V 2T6" "CA" = Ok q
     /\ q_subtotal q == 100 /\ q_discountPercent q == 150 /\ q_total q == -50)
  /\ totalBySpec 100 (discountSetting (palletStore 150)) == 0
  /\ (exists q,
     Refactored.calculateShippingForBoxes (palletStore 10) [pallet]
       250 "200-299km" (Some "H2K 4P5") "M5V 2T6" "CA" = Ok q
     /\ q_subtotal q == 100 /\ q_total q == 90).
Proof.
  split; [|split; [|split]].
  - eexists. split; [reflexivity|]. repeat split; vm_compute; reflexivity.
  - eexists. split; [reflexivity|]. repeat split; vm_compute; reflexivity.
  - vm_compute. reflexivity.
  - eexists. split; [reflexivity|]. repeat split; vm_compute; reflexivity.
Qed.

(** ** The two copies of the service *)

Lemma truthy_scale (x k : Q) : 0 < k -> JS.truthy (x * k) = JS.truthy x.
Proof.
  intros Hk. unfold JS.truthy. f_equal.
  destruct (Qeq_bool x 0) eqn:E.
  - apply Qeq_bool_iff in E. apply Qeq_bool_iff. rewrite E. ring.
  - destruct (Qeq_bool (x * k) 0) eqn:E'; [|reflexivity].
    apply Qeq_bool_iff in E'. apply Qmult_integral in E'.
    destruct E' as [E'|E'].
    + apply Qeq_bool_iff in E'. congruence.
    + exfalso. rewrite E' in Hk. revert Hk. apply Qlt_irrefl.
Qed.

Lemma nonpositive_scale (x k : Q) : 0 < k -> Qle_bool (x * k) 0 = Qle_bool x 0.
Proof.
  intros Hk. destruct (Qle_bool x 0) eqn:E.
  - apply Qle_bool_iff in E. apply Qle_bool_iff.
    setoid_replace 0 with (0 * k) by ring.
    apply Qmult_le_compat_r; [exact E|now apply Qlt_le_weak].
  - destruct (Qle_bool (x * k) 0) eqn:E'; [|reflexivity].
    apply Qle_bool_iff in E'.
    assert (H : x <= 0).
    { apply Qmult_lt_0_le_reg_r with k; [exact Hk|].
      setoid_replace (0 * k) with 0 by ring. exact E'. }
    apply Qle_bool_iff in H. congruence.
Qed.

Lemma quoteBox_toImperial (strapi : Strapi) (distanceKm : Q) (band : string)
  (box : Box.t) :
  Service.quoteBox strapi distanceKm band box
  = Refactored.quoteBox strapi distanceKm band (toImperial box).
Proof.
  destruct box as [[l|] [w|] [h|] [g|]]; try reflexivity.
  unfold Service.quoteBox, Refactored.quoteBox, toImperial. simpl.
  unfold Service.mmToInches, Service.gramsToPounds.
  rewrite !truthy_scale by reflexivity.
  destruct (JS.truthy l && JS.truthy w && JS.truthy h && JS.truthy g)%bool;
    [|reflexivity].
  simpl.
  assert (D : Service.calculateDensity l w h g
              = Refactored.calculateDensity
                  (l * (393701 # 10000000)) (w * (393701 # 10000000))
                  (h * (393701 # 10000000)) (g * (220462 # 100000000))).
  { unfold Service.calculateDensity, Refactored.calculateDensity,
      Refactored.calculateCubicFeet, Service.mmToInches, Service.gramsToPounds.
    rewrite nonpositive_scale by reflexivity. reflexivity. }
  rewrite <- D. rewrite findFreightClassByDensity_same.
  destruct (Service.findFreightClassByDensity strapi _) as [c|]; [|reflexivity].
  destruct (JS.truthy c); [|reflexivity]. simpl.
  rewrite resolvePrice_same. reflexivity.
Qed.

Lemma forBoxes_toImperial (strapi : Strapi) (distanceKm : Q) (band : string)
  (boxes : list Box.t) (acc : list BoxQuote) (s : Q) :
  Service.forBoxes strapi distanceKm band boxes acc s
  = Refactored.forBoxes strapi distanceKm band (map toImperial boxes) acc s.
Proof.
  revert acc s. induction boxes as [|b boxes IH]; intros acc s; simpl;
    [reflexivity|].
  rewrite quoteBox_toImperial.
  destruct (Refactored.quoteBox strapi distanceKm band (toImperial b)); simpl;
    [apply IH|reflexivity].
Qed.

(** C10, as the code has it: the service on boxes in millimetres and grams
    computes the quote of the refactored copy on the boxes converted to
    inches and pounds; the two bandings agree on every distance that lies
    in a row of the refactored table, and from 1000 km on. *)
Theorem C10_services_agree_up_to_units (strapi : Strapi) (boxes : list Box.t)
  (distanceKm : Q) (band : string) (origin : option string)
  (dest country : string) :
  Service.calculateShippingForBoxes strapi boxes distanceKm band origin dest country
  = Refactored.calculateShippingForBoxes strapi (map toImperial boxes)
      distanceKm band origin dest country
  /\ (forall d lo hi lbl,
        In (lo, hi, lbl) Refactored.ranges -> lo <= d -> d < hi ->
        Refactored.mapDistanceToRange d = Service.mapDistanceToRange d
        /\ Service.mapDistanceToRange d = lbl)
  /\ (forall d, 1000 <= d ->
        Refactored.mapDistanceToRange d = Service.mapDistanceToRange d).
Proof.
  split.
  { unfold Service.calculateShippingForBoxes, Refactored.calculateShippingForBoxes.
    now rewrite forBoxes_toImperial. }
  assert (const_le : forall a b, Qle_bool a b = true -> a <= b)
    by (intros; now apply Qle_bool_iff).
  split.
  - intros d lo hi lbl Hin Hlo Hhi.
    unfold Refactored.mapDistanceToRange, Service.mapDistanceToRange,
      Refactored.ranges, Refactored.firstRange.
    unfold Refactored.ranges in Hin. simpl in Hin.
    repeat (destruct Hin as [Hin|Hin];
            [injection Hin as <- <- <-|]); [..|destruct Hin].
    all: repeat match goal with
         | |- context [JS.ltb ?d ?k] =>
             first
               [ replace (JS.ltb d k) with true
                   by (symmetry; apply ltb_lt; eapply Qlt_le_trans;
                       [exact Hhi|apply const_le; reflexivity])
               | replace (JS.ltb d k) with false
                   by (symmetry; apply ltb_ge; eapply Qle_trans;
                       [|exact Hlo]; apply const_le; reflexivity) ]
         | |- context [JS.geb ?d ?k] =>
             first
               [ replace (JS.geb d k) with true
                   by (symmetry; apply geb_ge; eapply Qle_trans;
                       [|exact Hlo]; apply const_le; reflexivity)
               | replace (JS.geb d k) with false
                   by (symmetry; unfold JS.geb;
                       destruct (Qle_bool k _) eqn:E; [|reflexivity];
                       apply Qle_bool_iff in E; exfalso;
                       apply (Qlt_not_le _ _ Hhi); eapply Qle_trans; [|exact E];
                       apply const_le; reflexivity) ]
         end.
    all: split; reflexivity.
  - intros d Hd.
    unfold Refactored.mapDistanceToRange, Service.mapDistanceToRange,
      Refactored.ranges, Refactored.firstRange.
    repeat match goal with
    | |- context [JS.ltb d ?k] =>
        replace (JS.ltb d k) with false
          by (symmetry; apply ltb_ge; eapply Qle_trans;
              [|exact Hd]; apply const_le; reflexivity)
    end.
    rewrite !andb_false_r. reflexivity.
Qed.

(** C10, as stated, fails: on the pallet the two copies quote different
    totals, and at 99 km they give different bands. *)
Lemma C10_counterexample_units_and_band :
  Service.calculateShippingForBoxes (palletStore 10) [pallet]
    250 "200-299km" (Some "H2K 4P5") "M5V 2T6" "CA"
  <> Refactored.calculateShippingForBoxes (palletStore 10) [pallet]
    250 "200-299km" (Some "H2K 4P5") "M5V 2T6" "CA"
  /\ Service.mapDistanceToRange 99 <> Refactored.mapDistanceToRange 99.
Proof.
  split.
  - intros E.
    assert (H : forall r : result Quote,
              match r with Ok q => Qeq_bool (q_total q) 90 | Throw _ => false end
              = match r with Ok q => Qeq_bool (q_total q) 90 | Throw _ => false end)
      by reflexivity.
    specialize (H (Service.calculateShippingForBoxes (palletStore 10) [pallet]
                     250 "200-299km" (Some "H2K 4P5") "M5V 2T6" "CA")).
    rewrite E in H at 2. vm_compute in H. discriminate H.
  - vm_compute. discriminate.
Qed.

(** ** Origin resolution *)

Section Closest.
Variable calculateDistance : string -> string -> option Q.
Variable destAddress : string.

Lemma closestLoop_step (w : Warehouse.t) (rest : list Warehouse.t)
  (closest : Warehouse.t) (m : option Q) :
  closestLoop calculateDistance destAddress (w :: rest) closest m
  = match distanceFrom calculateDistance destAddress w with
    | Some d =>
        if match m with Some m' => JS.ltb d m' | None => true end
        then closestLoop calculateDistance destAddress rest w (Some d)
        else closestLoop calculateDistance destAddress rest closest m
    | None => closestLoop calculateDistance destAddress rest closest m
    end.
Proof.
  unfold distanceFrom. cbn [closestLoop].
  destruct (present (Warehouse.postalCode w)); reflexivity.
Qed.

(** With a least distance [m] so far, the loop keeps its warehouse unless
    a warehouse of the list is nearer, and then ends on the first of the
    nearest. *)
Lemma closestLoop_bounded (ws : list Warehouse.t) (closest : Warehouse.t) (m : Q) :
  let r := closestLoop calculateDistance destAddress ws closest (Some m) in
  (r = closest /\ forall w d, In w ws -> distanceFrom calculateDistance destAddress w = Some d -> m <= d)
  \/ (exists before after d,
        ws = (before ++ r :: after)%list /\ distanceFrom calculateDistance destAddress r = Some d /\ d < m
        /\ (forall w' d', In w' before -> distanceFrom calculateDistance destAddress w' = Some d' -> d < d')
        /\ (forall w' d', In w' after -> distanceFrom calculateDistance destAddress w' = Some d' -> d <= d')).
Proof.
  revert closest m. induction ws as [|w rest IH]; intros closest m.
  - left. split; [reflexivity|]. intros w d [].
  - cbv zeta. rewrite closestLoop_step.
    destruct (distanceFrom calculateDistance destAddress w) as [d0|] eqn:Ew.
    + destruct (JS.ltb d0 m) eqn:E.
      * apply ltb_lt in E.
        destruct (IH w d0) as [[Hr Hall]|[before [after [d [Hws [Hd [Hlt [Hb Ha]]]]]]]].
        -- right. exists [], rest, d0. cbv zeta in Hr. rewrite Hr.
           split; [reflexivity|]. split; [exact Ew|]. split; [exact E|].
           split; [intros w' d' []|exact Hall].
        -- right. exists (w :: before), after, d.
           split; [simpl; now rewrite <- Hws|]. split; [exact Hd|].
           split; [now apply Qlt_trans with d0|]. split; [|exact Ha].
           intros w' d' [<-|Hin] Hw'; [|now apply (Hb w')].
           rewrite Ew in Hw'. injection Hw' as <-. exact Hlt.
      * apply ltb_ge in E.
        destruct (IH closest m) as [[Hr Hall]|[before [after [d [Hws [Hd [Hlt [Hb Ha]]]]]]]].
        -- left. split; [exact Hr|].
           intros w' d' [<-|Hin] Hw'; [|now apply (Hall w')].
           rewrite Ew in Hw'. injection Hw' as <-. exact E.
        -- right. exists (w :: before), after, d.
           split; [simpl; now rewrite <- Hws|]. split; [exact Hd|].
           split; [exact Hlt|]. split; [|exact Ha].
           intros w' d' [<-|Hin] Hw'; [|now apply (Hb w')].
           rewrite Ew in Hw'. injection Hw' as <-.
           now apply Qlt_le_trans with m.
    + destruct (IH closest m) as [[Hr Hall]|[before [after [d [Hws [Hd [Hlt [Hb Ha]]]]]]]].
      * left. split; [exact Hr|].
        intros w' d' [<-|Hin] Hw'; [congruence|now apply (Hall w')].
      * right. exists (w :: before), after, d.
        split; [simpl; now rewrite <- Hws|]. split; [exact Hd|].
        split; [exact Hlt|]. split; [|exact Ha].
        intros w' d' [<-|Hin] Hw'; [congruence|now apply (Hb w')].
Qed.

(** From [Infinity], the loop ends on the first of the nearest warehouses,
    or keeps its warehouse when no distance is to be had. *)
Lemma closestLoop_first (ws : list Warehouse.t) (closest : Warehouse.t) :
  let r := closestLoop calculateDistance destAddress ws closest None in
  (r = closest /\ forall w, In w ws -> distanceFrom calculateDistance destAddress w = None)
  \/ firstClosest calculateDistance destAddress ws r.
Proof.
  revert closest. induction ws as [|w rest IH]; intros closest.
  - left. split; [reflexivity|]. intros w [].
  - cbv zeta. rewrite closestLoop_step.
    destruct (distanceFrom calculateDistance destAddress w) as [d0|] eqn:Ew.
    + right.
      destruct (closestLoop_bounded rest w d0)
        as [[Hr Hall]|[before [after [d [Hws [Hd [Hlt [Hb Ha]]]]]]]].
      * cbv zeta in Hr. rewrite Hr. exists [], rest, d0.
        split; [reflexivity|]. split; [exact Ew|].
        split; [intros w' d' []|exact Hall].
      * exists (w :: before), after, d.
        split; [simpl; now rewrite <- Hws|]. split; [exact Hd|]. split; [|exact Ha].
        intros w' d' [<-|Hin] Hw'; [|now apply (Hb w')].
        rewrite Ew in Hw'. injection Hw' as <-. exact Hlt.
    + destruct (IH closest) as [[Hr Hall]|[before [after [d [Hws [Hd [Hb Ha]]]]]]].
      * left. split; [exact Hr|].
        intros w' [<-|Hin]; [exact Ew|now apply Hall].
      * right. exists (w :: before), after, d.
        split; [simpl; now rewrite <- Hws|]. split; [exact Hd|]. split; [|exact Ha].
        intros w' d' [<-|Hin] Hw'; [|now apply (Hb w')].
        congruence.
Qed.

End Closest.

(** The first two steps, as the code runs them. *)
Lemma warehouseById_code (strapi : Strapi) (id : option WarehouseId) :
  warehouseById strapi id
  = if idGiven id then findWarehouse strapi (idNumber id) else None.
Proof.
  unfold warehouseById, namedId, idGiven, idNumber, findWarehouse.
  destruct id as [[n|s]|]; [| |reflexivity].
  - destruct (n =? 0)%Z; reflexivity.
  - destruct (String.eqb_spec s EmptyString) as [->|N]; reflexivity.
Qed.

Lemma hd_filter {A} (f : A -> bool) (l : list A) :
  hd_error (filter f l) = find f l.
Proof.
  induction l as [|x l IH]; simpl; [reflexivity|].
  destruct (f x); [reflexivity|exact IH].
Qed.

Lemma warehouseByChannel_code (strapi : Strapi) (channel : option string) :
  warehouseByChannel strapi channel
  = if present channel
    then hd_error (warehousesOfChannel strapi (text channel))
    else None.
Proof.
  unfold warehouseByChannel, present, warehousesOfChannel, text.
  destruct channel as [c|]; [|reflexivity].
  destruct (c =? EmptyString)%string; simpl; [reflexivity|].
  now rewrite hd_filter.
Qed.

Lemma byId_hit (strapi : Strapi) (id : option WarehouseId) (w : Warehouse.t) :
  warehouseById strapi id = Some w ->
  present (Warehouse.postalCode w) = true ->
  (if idGiven id
   then match findWarehouse strapi (idNumber id) with
        | Some warehouse =>
            if present (Warehouse.postalCode warehouse)
            then Some (Warehouse.postalCode warehouse) else None
        | None => None
        end
   else None) = Some (Warehouse.postalCode w).
Proof.
  rewrite warehouseById_code. destruct (idGiven id); [|discriminate].
  intros -> ->. reflexivity.
Qed.

Lemma byId_nothing (strapi : Strapi) (id : option WarehouseId) :
  (forall w, warehouseById strapi id = Some w ->
             present (Warehouse.postalCode w) = false) ->
  (if idGiven id
   then match findWarehouse strapi (idNumber id) with
        | Some warehouse =>
            if present (Warehouse.postalCode warehouse)
            then Some (Warehouse.postalCode warehouse) else None
        | None => None
        end
   else None) = None.
Proof.
  rewrite warehouseById_code. destruct (idGiven id); [|reflexivity].
  destruct (findWarehouse strapi (idNumber id)) as [w|]; [|reflexivity].
  intros H. now rewrite (H w eq_refl).
Qed.

Lemma byChannel_service (strapi : Strapi) (channel : option string) :
  (if present channel
   then match warehousesOfChannel strapi (text channel) with
        | first :: _ => Some (Warehouse.postalCode first)
        | [] => None
        end
   else None)
  = option_map Warehouse.postalCode (warehouseByChannel strapi channel).
Proof.
  rewrite warehouseByChannel_code. destruct (present channel); [|reflexivity].
  destruct (warehousesOfChannel strapi (text channel)); reflexivity.
Qed.

Lemma byChannel_refactored (strapi : Strapi) (channel : option string) :
  (if present channel
   then match warehousesOfChannel strapi (text channel) with
        | first :: _ =>
            if present (Warehouse.postalCode first)
            then Some (Warehouse.postalCode first) else None
        | [] => None
        end
   else None)
  = match warehouseByChannel strapi channel with
    | Some w => if present (Warehouse.postalCode w)
                then Some (Warehouse.postalCode w) else None
    | None => None
    end.
Proof.
  rewrite warehouseByChannel_code. destruct (present channel); [|reflexivity].
  destruct (warehousesOfChannel strapi (text channel)); reflexivity.
Qed.

Lemma byChannel_nothing (strapi : Strapi) (channel : option string) :
  (forall c, warehouseByChannel strapi channel = Some c ->
             present (Warehouse.postalCode c) = false) ->
  match warehouseByChannel strapi channel with
  | Some w => if present (Warehouse.postalCode w)
              then Some (Warehouse.postalCode w) else None
  | None => None
  end = None.
Proof.
  destruct (warehouseByChannel strapi channel) as [c|]; [|reflexivity].
  intros H. now rewrite (H c eq_refl).
Qed.

Lemma distanceFrom_present (cd : string -> string -> option Q) (dest : string)
  (w : Warehouse.t) (d : Q) :
  distanceFrom cd dest w = Some d -> present (Warehouse.postalCode w) = true.
Proof.
  unfold distanceFrom. destruct (present (Warehouse.postalCode w)); [reflexivity|discriminate].
Qed.

Lemma in_closest {A} (l before after : list A) (x : A) :
  l = (before ++ x :: after)%list -> In x l.
Proof. intros ->. apply in_elt. Qed.

(** C7, as the code has it.  The warehouse of the explicit id is used when
    it has a postal code; else the first warehouse of the sales channel
    (by the refactored copy only when it has a postal code); else, the
    destination known and two or more warehouses there, the first of the
    warehouses at the least distance, a warehouse without a postal code
    or with a failing lookup passed over; else the first warehouse of the
    list (by the refactored copy only when it has a postal code).  The
    service throws exactly when there is no warehouse; the refactored copy
    also throws when the chain ends on a first warehouse without a postal
    code.  The warehouse of the id is the first whose document id is
    the number the id names, a text naming the number [parseInt] reads
    (16 for "0x10"); the warehouse of the channel is the first of that
    channel. *)
Theorem C7_origin_priority_chain (strapi : Strapi)
  (calculateDistance : string -> string -> option Q)
  (channel dest : option string) (id : option WarehouseId) :
  let ws := warehouses strapi in
  let destAddress := text dest ++ " CA" in
  let service :=
    Service.getOriginPostalCode strapi calculateDistance channel dest id in
  let refactored :=
    Refactored.getOriginPostalCode strapi calculateDistance channel dest id in
  let byId := warehouseById strapi id in
  let byChannel := warehouseByChannel strapi channel in
  let noId :=
    forall w, byId = Some w -> present (Warehouse.postalCode w) = false in
  let noChannel :=
    forall w, byChannel = Some w -> present (Warehouse.postalCode w) = false in
  let names n :=
    (id = Some (IdNumber n) /\ n <> 0%Z)
    \/ (exists s, id = Some (IdString s) /\ JS.parseInt s = Some n) in
  let unnamed :=
    id = None \/ id = Some (IdNumber 0)
    \/ (exists s, id = Some (IdString s) /\ JS.parseInt s = None)
    \/ (exists n, names n
                  /\ forall w, In w ws -> Warehouse.documentId w = n ->
                                present (Warehouse.postalCode w) = false) in
  (forall n before w after,
     names n -> ws = (before ++ w :: after)%list ->
     Forall (fun w' => Warehouse.documentId w' <> n) before ->
     Warehouse.documentId w = n ->
     present (Warehouse.postalCode w) = true ->
     service = Ok (Warehouse.postalCode w)
     /\ refactored = Ok (Warehouse.postalCode w))
  /\ (unnamed -> forall c before w after,
        channel = Some c -> c <> EmptyString ->
        ws = (before ++ w :: after)%list ->
        Forall (fun w' => Warehouse.salesChannelId w' <> Some c) before ->
        Warehouse.salesChannelId w = Some c ->
        service = Ok (Warehouse.postalCode w)
        /\ (present (Warehouse.postalCode w) = true ->
            refactored = Ok (Warehouse.postalCode w)))
  /\ (forall w, byId = Some w -> present (Warehouse.postalCode w) = true ->
     service = Ok (Warehouse.postalCode w)
     /\ refactored = Ok (Warehouse.postalCode w))
  /\ (noId -> forall w, byChannel = Some w ->
        service = Ok (Warehouse.postalCode w)
        /\ (present (Warehouse.postalCode w) = true ->
            refactored = Ok (Warehouse.postalCode w)))
  /\ (noId -> present dest = true -> (2 <= List.length ws)%nat ->
      (exists w, In w ws /\ distanceFrom calculateDistance destAddress w <> None) ->
      exists w, firstClosest calculateDistance destAddress ws w
        /\ (byChannel = None -> service = Ok (Warehouse.postalCode w))
        /\ (noChannel -> refactored = Ok (Warehouse.postalCode w)))
  /\ (noId -> forall first rest, ws = first :: rest ->
      present dest = false \/ rest = []
      \/ (forall w, In w ws -> distanceFrom calculateDistance destAddress w = None) ->
      (byChannel = None -> service = Ok (Warehouse.postalCode first))
      /\ (noChannel -> present (Warehouse.postalCode first) = true ->
          refactored = Ok (Warehouse.postalCode first)))
  /\ (ws = [] ->
      service = Throw (FailedOrigin NoWarehouses) /\ refactored = Throw NoWarehouses)
  /\ (forall e, service = Throw e -> ws = [])
  /\ (forall e, refactored = Throw e ->
        e = NoWarehouses
        /\ forall first rest, ws = first :: rest ->
             present (Warehouse.postalCode first) = false)
  /\ Service.getOriginPostalCode scenarioStore scenarioDistance
       None (Some "M5V 2T6") None = Ok (Some "B2B 2B2")
  /\ Refactored.getOriginPostalCode scenarioStore scenarioDistance
       None (Some "M5V 2T6") None = Ok (Some "B2B 2B2")
  /\ (forall origin,
        In origin [Service.getOriginPostalCode channelStore scenarioDistance;
                   Refactored.getOriginPostalCode channelStore scenarioDistance] ->
        origin (Some "sc_west") (Some "M5V 2T6") (Some (IdNumber 16))
        = Ok (Some "C3C 3C3")
        /\ origin None None (Some (IdString "2")) = Ok (Some "B2B 2B2")
        /\ origin None None (Some (IdString "0x10")) = Ok (Some "C3C 3C3")
        /\ origin (Some "sc_west") None (Some (IdString "sixteen"))
           = Ok (Some "B2B 2B2")
        /\ origin (Some "sc_north") (Some "M5V 2T6") (Some (IdNumber 99))
           = Ok (Some "C3C 3C3")
        /\ origin (Some "sc_south") (Some "M5V 2T6") None = Ok (Some "B2B 2B2")
        /\ origin (Some "sc_south") None (Some (IdNumber 0))
           = Ok (Some "A1A 1A1")).
Proof.
  intros ws destAddress service refactored byId byChannel noId noChannel
    names unnamed.
  assert (Hnames : forall n, names n -> namedId id = Some n).
  { intros n [[-> Hn]|[s [-> Hs]]]; simpl; [|exact Hs].
    destruct (Z.eqb_spec n 0); [contradiction|reflexivity]. }
  assert (Hfirst : forall n before w after,
            names n -> ws = (before ++ w :: after)%list ->
            Forall (fun w' => Warehouse.documentId w' <> n) before ->
            Warehouse.documentId w = n -> byId = Some w).
  { intros n before w after Hn E Hb Hw. unfold byId, warehouseById.
    rewrite (Hnames n Hn). fold ws. rewrite E. apply find_first.
    - apply Forall_impl with (2 := Hb). intros w' Hw'.
      now apply Z.eqb_neq.
    - now apply Z.eqb_eq. }
  assert (Hunnamed : unnamed -> noId).
  { intros Hu w. unfold byId, warehouseById.
    destruct Hu as [->|[->|[[s [-> Hs]]|[n [Hn Hall]]]]]; simpl;
      try discriminate.
    - rewrite Hs. discriminate.
    - rewrite (Hnames n Hn). fold ws. intros Hf.
      apply find_some in Hf. destruct Hf as [Hin Hw].
      apply (Hall w Hin). now apply Z.eqb_eq. }
  assert (Hchannel : forall c before w after,
            channel = Some c -> c <> EmptyString ->
            ws = (before ++ w :: after)%list ->
            Forall (fun w' => Warehouse.salesChannelId w' <> Some c) before ->
            Warehouse.salesChannelId w = Some c -> byChannel = Some w).
  { intros c before w after -> Hc E Hb Hw. unfold byChannel, warehouseByChannel.
    destruct (String.eqb_spec c EmptyString); [contradiction|].
    fold ws. rewrite E. apply find_first.
    - apply Forall_impl with (2 := Hb). intros w' Hw'.
      destruct (Warehouse.salesChannelId w') as [c'|]; [|reflexivity].
      apply String.eqb_neq. congruence.
    - rewrite Hw. apply String.eqb_refl. }
  clearbody unnamed. clear Hnames.
  subst byId byChannel noId noChannel.
  assert (Hs : service =
    match (if idGiven id
           then match findWarehouse strapi (idNumber id) with
                | Some warehouse =>
                    if present (Warehouse.postalCode warehouse)
                    then Some (Warehouse.postalCode warehouse) else None
                | None => None
                end
           else None) with
    | Some pc => Ok pc
    | None =>
        match option_map Warehouse.postalCode (warehouseByChannel strapi channel) with
        | Some pc => Ok pc
        | None =>
            match (if present dest
                   then match ws with
                        | [] => None
                        | [only] => Some (Warehouse.postalCode only)
                        | first :: _ =>
                            Some (Warehouse.postalCode
                                    (closestLoop calculateDistance destAddress
                                                 ws first None))
                        end
                   else None) with
            | Some pc => Ok pc
            | None =>
                match ws with
                | first :: _ => Ok (Warehouse.postalCode first)
                | [] => Throw (FailedOrigin NoWarehouses)
                end
            end
        end
    end).
  { unfold service, Service.getOriginPostalCode. cbv zeta.
    rewrite byChannel_service. fold ws. fold destAddress.
    destruct (if idGiven id then _ else None); [reflexivity|].
    destruct (option_map Warehouse.postalCode _); [reflexivity|].
    destruct (if present dest then _ else None); [reflexivity|].
    destruct ws; reflexivity. }
  assert (Hr : refactored =
    match (if idGiven id
           then match findWarehouse strapi (idNumber id) with
                | Some warehouse =>
                    if present (Warehouse.postalCode warehouse)
                    then Some (Warehouse.postalCode warehouse) else None
                | None => None
                end
           else None) with
    | Some pc => Ok pc
    | None =>
        match (match warehouseByChannel strapi channel with
               | Some w => if present (Warehouse.postalCode w)
                           then Some (Warehouse.postalCode w) else None
               | None => None
               end) with
        | Some pc => Ok pc
        | None =>
            match (if present dest
                   then match (match ws with
                               | [] => None
                               | [only] => Some only
                               | first :: _ =>
                                   Some (closestLoop calculateDistance destAddress
                                                     ws first None)
                               end) with
                        | Some closest =>
                            if present (Warehouse.postalCode closest)
                            then Some (Warehouse.postalCode closest) else None
                        | None => None
                        end
                   else None) with
            | Some pc => Ok pc
            | None =>
                match ws with
                | first :: _ =>
                    if present (Warehouse.postalCode first)
                    then Ok (Warehouse.postalCode first) else Throw NoWarehouses
                | [] => Throw NoWarehouses
                end
            end
        end
    end).
  { unfold refactored, Refactored.getOriginPostalCode,
      Refactored.findClosestWarehouse, Refactored.getAllWarehouses. cbv zeta.
    rewrite byChannel_refactored. reflexivity. }
  assert (S1 : forall w, warehouseById strapi id = Some w ->
                 present (Warehouse.postalCode w) = true ->
                 service = Ok (Warehouse.postalCode w)
                 /\ refactored = Ok (Warehouse.postalCode w)).
  { intros w Hw Hp. rewrite Hs, Hr, (byId_hit strapi id w Hw Hp). auto. }
  assert (S2 : (forall w, warehouseById strapi id = Some w ->
                          present (Warehouse.postalCode w) = false) ->
               forall w, warehouseByChannel strapi channel = Some w ->
               service = Ok (Warehouse.postalCode w)
               /\ (present (Warehouse.postalCode w) = true ->
                   refactored = Ok (Warehouse.postalCode w))).
  { intros Hid w Hw. rewrite Hs, Hr, (byId_nothing strapi id Hid), Hw. simpl.
    split; [reflexivity|]. intros ->. reflexivity. }
  split.
  { intros n before w after Hn E Hb Hw Hp.
    apply S1; [exact (Hfirst n before w after Hn E Hb Hw)|exact Hp]. }
  split.
  { intros Hu c before w after Hc Hne E Hb Hw.
    apply (S2 (Hunnamed Hu)). exact (Hchannel c before w after Hc Hne E Hb Hw). }
  clear Hfirst Hunnamed Hchannel. clearbody service refactored.
  split; [exact S1|].
  split; [exact S2|].
  clear S1 S2.
  split.
  { intros Hid Hdest Hlen [w0 [Hin0 Hreach0]].
    destruct ws as [|first [|second rest]] eqn:Ews; simpl in Hlen; [lia|lia|].
    destruct (closestLoop_first calculateDistance destAddress
                (first :: second :: rest) first) as [[_ Hall]|Hfirst].
    { exfalso. apply Hreach0. now apply Hall. }
    set (r := closestLoop calculateDistance destAddress
                (first :: second :: rest) first None) in *.
    exists r. split; [exact Hfirst|].
    destruct Hfirst as [before [after [d [_ [Hd _]]]]].
    apply distanceFrom_present in Hd.
    rewrite Hs, Hr, (byId_nothing strapi id Hid), Hdest. split.
    - intros ->. reflexivity.
    - intros Hc. rewrite (byChannel_nothing strapi channel Hc), Hd. reflexivity. }
  split.
  { intros Hid first rest Ews Hcase.
    rewrite Hs, Hr, (byId_nothing strapi id Hid). rewrite Ews in *. split.
    - intros ->. simpl option_map. cbv iota.
      destruct Hcase as [Hd|[->|Hall]].
      + rewrite Hd. reflexivity.
      + destruct (present dest); reflexivity.
      + destruct (present dest); [|reflexivity].
        destruct rest as [|second rest]; [reflexivity|].
        destruct (closestLoop_first calculateDistance destAddress
                    (first :: second :: rest) first)
          as [[-> _]|[before [after [d [E [Hd _]]]]]]; [reflexivity|].
        exfalso. rewrite Hall in Hd; [discriminate|].
        apply (in_closest _ _ _ _ E).
    - intros Hc Hp. rewrite (byChannel_nothing strapi channel Hc), Hp.
      destruct Hcase as [Hd|[->|Hall]].
      + rewrite Hd. reflexivity.
      + destruct (present dest); [rewrite Hp|]; reflexivity.
      + destruct (present dest); [|reflexivity].
        destruct rest as [|second rest]; [now rewrite Hp|].
        destruct (closestLoop_first calculateDistance destAddress
                    (first :: second :: rest) first)
          as [[-> _]|[before [after [d [E [Hd _]]]]]]; [now rewrite Hp|].
        exfalso. rewrite Hall in Hd; [discriminate|].
        apply (in_closest _ _ _ _ E). }
  split.
  { intros Ews. rewrite Hs, Hr, warehouseByChannel_code.
    unfold warehousesOfChannel, findWarehouse. fold ws. rewrite Ews. simpl.
    destruct (idGiven id), (idNumber id), (present channel), (present dest);
      simpl; auto. }
  split.
  { intros e. rewrite Hs. clear Hs Hr.
    destruct (if idGiven id then _ else None); [discriminate|].
    destruct (option_map Warehouse.postalCode _); [discriminate|].
    destruct (if present dest then _ else None); [discriminate|].
    destruct ws; [reflexivity|discriminate]. }
  split.
  { intros e. rewrite Hr. clear Hs Hr.
    destruct (if idGiven id then _ else None); [discriminate|].
    destruct (match warehouseByChannel strapi channel with Some _ => _ | None => None end); [discriminate|].
    destruct (if present dest then _ else None); [discriminate|].
    destruct ws as [|first rest].
    - intros [= <-]. split; [reflexivity|]. discriminate.
    - destruct (present (Warehouse.postalCode first)) eqn:Ep; [discriminate|].
      intros [= <-]. split; [reflexivity|]. intros f r [= <- <-]. exact Ep. }
  split; [vm_compute; reflexivity|].
  split; [vm_compute; reflexivity|].
  intros origin [<-|[<-|[]]]; repeat split; vm_compute; reflexivity.
Qed.

(** C7, as stated, fails on its last step: with one warehouse, which has
    no postal code, the refactored copy throws the no-warehouse error,
    though a warehouse exists; the service returns the absent postal code
    of that warehouse. *)
Lemma C7_counterexample_unaddressed_warehouse :
  warehouses unaddressedStore <> []
  /\ Refactored.getOriginPostalCode unaddressedStore scenarioDistance
       None (Some "M5V 2T6") None = Throw NoWarehouses
  /\ Service.getOriginPostalCode unaddressedStore scenarioDistance
       None (Some "M5V 2T6") None = Ok None.
Proof.
  split; [discriminate|]. split; vm_compute; reflexivity.
Qed.

(** ** Validation of the boxes *)

Lemma nonzero_true (x : option Q) :
  nonzero x = true <-> exists q, x = Some q /\ ~ q == 0.
Proof.
  destruct x as [q|]; simpl.
  - rewrite truthy_true. split.
    + intros H. now exists q.
    + intros [q' [[= <-] H]]. exact H.
  - split; [discriminate|]. intros [q [H _]]. discriminate.
Qed.

Lemma boxIncomplete_false (box : Box.t) :
  boxIncomplete box = false <->
  exists l w h wt,
    box = Box.mk (Some l) (Some w) (Some h) (Some wt)
    /\ ~ l == 0 /\ ~ w == 0 /\ ~ h == 0 /\ ~ wt == 0.
Proof.
  unfold boxIncomplete. rewrite negb_false_iff, !andb_true_iff, !nonzero_true.
  destruct box as [l w h wt]. simpl. split.
  - intros [[[[l' [-> Hl]] [w' [-> Hw]]] [h' [-> Hh]]] [wt' [-> Hwt]]].
    exists l', w', h', wt'. auto.
  - intros [l' [w' [h' [wt' [[= -> -> -> ->] [Hl [Hw [Hh Hwt]]]]]]]].
    repeat split; eexists; split; try reflexivity; assumption.
Qed.

Lemma firstIncomplete_some (i : nat) (bs : list Box.t) (k : nat) :
  firstIncomplete i bs = Some k <->
  exists pre box post,
    bs = (pre ++ box :: post)%list
    /\ Forall (fun b => boxIncomplete b = false) pre
    /\ boxIncomplete box = true
    /\ k = (i + List.length pre + 1)%nat.
Proof.
  revert i. induction bs as [|b bs IH]; intros i; simpl.
  - split; [discriminate|]. intros [pre [box [post [E _]]]].
    destruct pre; discriminate.
  - destruct (boxIncomplete b) eqn:Eb.
    + split.
      * intros [= <-]. exists [], b, bs. simpl.
        repeat split; [constructor|exact Eb|lia].
      * intros [pre [box [post [E [Hpre [Hbox ->]]]]]].
        destruct pre as [|p pre]; simpl in *.
        -- f_equal. lia.
        -- injection E as <- _. inversion Hpre; congruence.
    + rewrite IH. split.
      * intros [pre [box [post [-> [Hpre [Hbox ->]]]]]].
        exists (b :: pre), box, post. simpl.
        repeat split; [now constructor|exact Hbox|lia].
      * intros [pre [box [post [E [Hpre [Hbox ->]]]]]].
        destruct pre as [|p pre]; simpl in *.
        -- injection E as <- _. congruence.
        -- injection E as <- ->. exists pre, box, post.
           repeat split; [now inversion Hpre|exact Hbox|lia].
Qed.

Lemma quoteBox_incomplete (strapi : Strapi) (distanceKm : Q) (band : string)
  (box : Box.t) :
  boxIncomplete box = true ->
  Service.quoteBox strapi distanceKm band box = Throw BoxMissingFields
  /\ Refactored.quoteBox strapi distanceKm band box = Throw BoxMissingFields.
Proof.
  unfold boxIncomplete, Service.quoteBox, Refactored.quoteBox.
  destruct box as [[l|] [w|] [h|] [wt|]]; simpl; auto.
  intros ->. auto.
Qed.

Lemma forBoxes_incomplete (strapi : Strapi) (distanceKm : Q) (band : string)
  (boxes : list Box.t) (box : Box.t) :
  In box boxes -> boxIncomplete box = true ->
  (forall acc s, exists e,
     Service.forBoxes strapi distanceKm band boxes acc s = Throw e)
  /\ (forall acc s, exists e,
     Refactored.forBoxes strapi distanceKm band boxes acc s = Throw e).
Proof.
  intros Hin Hbox.
  destruct (quoteBox_incomplete strapi distanceKm band box Hbox) as [Hs Hr].
  induction boxes as [|b boxes IH]; [destruct Hin|].
  destruct Hin as [->|Hin].
  - split; intros acc s; exists BoxMissingFields; simpl;
      [now rewrite Hs|now rewrite Hr].
  - destruct (IH Hin) as [IHs IHr]. split; intros acc s; simpl.
    + destruct (Service.quoteBox strapi distanceKm band b) as [r|e];
        simpl; [apply IHs|now exists e].
    + destruct (Refactored.quoteBox strapi distanceKm band b) as [r|e];
        simpl; [apply IHr|now exists e].
Qed.

(** C9, as the code has it: a box passes when its four measurements are
    present and none is zero; the controllers answer a request that has a
    box which does not pass with a bad request that names the number,
    counted from one, of the first such box; and no quote comes out of the
    service for a list that holds such a box. *)
Theorem C9_boxes_present_and_nonzero (strapi : Strapi)
  (calculateDistance : string -> string -> option Q) (medusa : Medusa.Session) :
  (forall box,
     boxIncomplete box = false <->
     exists l w h wt,
       box = Box.mk (Some l) (Some w) (Some h) (Some wt)
       /\ ~ l == 0 /\ ~ w == 0 /\ ~ h == 0 /\ ~ wt == 0)
  /\ (forall bs k,
        firstIncomplete 0 bs = Some k <->
        exists pre box post,
          bs = (pre ++ box :: post)%list
          /\ Forall (fun b => boxIncomplete b = false) pre
          /\ boxIncomplete box = true
          /\ k = (List.length pre + 1)%nat)
  /\ (forall cart bs k,
        Cart.boxes cart = Some bs -> firstIncomplete 0 bs = Some k ->
        Controller.calculateShipping strapi calculateDistance medusa (Some cart)
        = BadRequest (BoxIsMissingFields k)
        /\ RefactoredController.calculateShipping strapi calculateDistance medusa
             (Some cart)
           = BadRequest (BoxIsMissingFields k))
  /\ (forall box distanceKm band,
        boxIncomplete box = true ->
        Service.quoteBox strapi distanceKm band box = Throw BoxMissingFields
        /\ Refactored.quoteBox strapi distanceKm band box = Throw BoxMissingFields)
  /\ (forall boxes box distanceKm band origin dest country,
        In box boxes -> boxIncomplete box = true ->
        (exists e,
           Service.calculateShippingForBoxes strapi boxes distanceKm band
             origin dest country = Throw e)
        /\ (exists e,
           Refactored.calculateShippingForBoxes strapi boxes distanceKm band
             origin dest country = Throw e)).
Proof.
  split; [exact boxIncomplete_false|].
  split; [intros bs k; apply (firstIncomplete_some 0 bs k)|].
  split.
  { intros cart bs k Hbs Hk.
    assert (Hne : noEntries (Cart.boxes cart) = false).
    { rewrite Hbs. destruct bs; [discriminate Hk|reflexivity]. }
    unfold Controller.calculateShipping, RefactoredController.calculateShipping.
    rewrite Hne, andb_false_r, Hbs, Hk. split; reflexivity. }
  split.
  { intros box distanceKm band. apply quoteBox_incomplete. }
  intros boxes box distanceKm band origin dest country Hin Hbox.
  destruct (forBoxes_incomplete strapi distanceKm band boxes box Hin Hbox)
    as [Hs Hr].
  unfold Service.calculateShippingForBoxes, Refactored.calculateShippingForBoxes.
  destruct (Hs [] 0) as [e1 ->]. destruct (Hr [] 0) as [e2 ->].
  split; [now exists e1|now exists e2].
Qed.

(** C9, as stated, fails on a negative measurement: the pallet with its
    length negated is not a box of positive measurements, yet it passes
    the test of the controllers and of the services, and the service
    quotes it. *)
Lemma C9_counterexample_negative_length :
  ~ positiveBox mirroredPallet
  /\ firstIncomplete 0 [mirroredPallet] = None
  /\ (exists q,
        Refactored.calculateShippingForBoxes pricedStore [mirroredPallet]
          250 "200-299km" (Some "B2B 2B2") "M5V 2T6" "CA" = Ok q
        /\ List.length (q_boxes q) = 1%nat)
  /\ (exists q,
        Service.calculateShippingForBoxes pricedStore [mirroredPallet]
          250 "200-299km" (Some "B2B 2B2") "M5V 2T6" "CA" = Ok q
        /\ List.length (q_boxes q) = 1%nat)
  /\ (exists body,
        Controller.calculateShipping pricedStore scenarioDistance readySession
          (Some (cartOf mirroredPallet)) = FromMedusa body).
Proof.
  split.
  { intros [l [w [h [wt [E [Hl _]]]]]]. injection E as <- _ _ _.
    revert Hl. apply Qle_not_lt. discriminate. }
  split; [reflexivity|].
  split; [eexists; split; vm_compute; reflexivity|].
  split; [eexists; split; vm_compute; reflexivity|].
  eexists. vm_compute. reflexivity.
Qed.

(** ** The rate API and the fallback *)

Section Polling.
Variable medusa : Medusa.Session.

(** Replies that keep the polling going, handled before the thirtieth
    tick, settle nothing. *)
Lemma settle_waiting (attempts : nat) (arrived rest : list nat) :
  (attempts < 30)%nat ->
  (Forall (fun r => pending (Medusa.polls medusa r)) arrived ->
   Controller.settle medusa attempts (arrived ++ rest)
   = Controller.settle medusa attempts rest)
  /\ (Forall (fun r => unfinished (Medusa.polls medusa r)) arrived ->
      RefactoredController.settle medusa attempts (arrived ++ rest)
      = RefactoredController.settle medusa attempts rest).
Proof.
  intros Hlt.
  assert (Hmax : (Medusa.maxAttempts <=? attempts)%nat = false)
    by (apply Nat.leb_gt; exact Hlt).
  split; induction 1 as [|r l Hr _ IH]; try reflexivity;
    cbn [app Controller.settle RefactoredController.settle].
  - rewrite Hr, Hmax. exact IH.
  - destruct Hr as [Hr|Hr]; rewrite Hr, Hmax; exact IH.
Qed.

(** The reply that is not of those, or is handled at the thirtieth tick
    or later, settles. *)
Lemma settle_first (attempts request : nat) (post : list nat) :
  (~ pending (Medusa.polls medusa request) \/ (30 <= attempts)%nat ->
   Controller.settle medusa attempts (request :: post)
   = Some (ratesOf (Medusa.polls medusa request)))
  /\ (~ unfinished (Medusa.polls medusa request) \/ (30 <= attempts)%nat ->
      RefactoredController.settle medusa attempts (request :: post)
      = Some (ratesOf (Medusa.polls medusa request))).
Proof.
  unfold pending, unfinished.
  split; intros H; cbn [Controller.settle RefactoredController.settle];
    destruct (Medusa.polls medusa request) eqn:E; try reflexivity;
    (destruct H as [H|H];
     [exfalso; apply H; auto
     |apply Nat.leb_le in H; unfold Medusa.maxAttempts; rewrite H; reflexivity]).
Qed.

Lemma settle_none (attempts : nat) (arrived : list nat) :
  (Controller.settle medusa attempts arrived = None <->
   Forall (fun r => pending (Medusa.polls medusa r)) arrived
   /\ (arrived = [] \/ (attempts < 30)%nat))
  /\ (RefactoredController.settle medusa attempts arrived = None <->
      Forall (fun r => unfinished (Medusa.polls medusa r)) arrived
      /\ (arrived = [] \/ (attempts < 30)%nat)).
Proof.
  unfold pending, unfinished.
  assert (Hbase : forall P : nat -> Prop,
            @None (list Medusa.Rate) = None <->
            Forall P [] /\ (@nil nat = [] \/ (attempts < 30)%nat)).
  { intros P. split; [|reflexivity]. intros _. split; [constructor|now left]. }
  assert (Hstop : forall (P : nat -> Prop) r l (rates : list Medusa.Rate),
            ~ P r ->
            Some rates = None <->
            Forall P (r :: l) /\ (r :: l = [] \/ (attempts < 30)%nat)).
  { intros P r l rates Hr. split; [discriminate|].
    intros [Hall _]. inversion Hall; contradiction. }
  assert (Hgo : forall (P : nat -> Prop) r l (rest : option (list Medusa.Rate)),
            P r ->
            (rest = None <-> Forall P l /\ (l = [] \/ (attempts < 30)%nat)) ->
            (if (Medusa.maxAttempts <=? attempts)%nat then Some [] else rest) = None
            <-> Forall P (r :: l) /\ (r :: l = [] \/ (attempts < 30)%nat)).
  { intros P r l rest Hr IH. unfold Medusa.maxAttempts.
    destruct (Nat.leb_spec 30 attempts) as [Hge|Hlt].
    - split; [discriminate|]. intros [_ [Hnil|Hlt]]; [discriminate|lia].
    - rewrite IH. split.
      + intros [Hall _]. split; [now constructor|now right].
      + intros [Hall _]. split; [now inversion Hall|now right]. }
  split.
  - induction arrived as [|r l IH]; [apply Hbase|].
    cbn [Controller.settle].
    destruct (Medusa.polls medusa r) eqn:E.
    + apply Hstop. rewrite E. discriminate.
    + apply Hstop. rewrite E. discriminate.
    + apply Hgo; [exact E|exact IH].
    + apply Hstop. rewrite E. discriminate.
  - induction arrived as [|r l IH]; [apply Hbase|].
    cbn [RefactoredController.settle].
    destruct (Medusa.polls medusa r) eqn:E.
    + apply Hstop. rewrite E. intros [H|H]; discriminate.
    + apply Hgo; [now right|exact IH].
    + apply Hgo; [now left|exact IH].
    + apply Hstop. rewrite E. intros [H|H]; discriminate.
Qed.

(** Ticks whose replies settle nothing are passed. *)
Lemma poll_waiting (before rest : list (list nat)) (attempts : nat) :
  List.concat (skipn (29 - attempts) before) = [] ->
  (Forall (fun r => pending (Medusa.polls medusa r)) (List.concat before) ->
   Controller.poll medusa (before ++ rest) attempts
   = Controller.poll medusa rest (attempts + List.length before))
  /\ (Forall (fun r => unfinished (Medusa.polls medusa r)) (List.concat before) ->
      RefactoredController.poll medusa (before ++ rest) attempts
      = RefactoredController.poll medusa rest (attempts + List.length before)).
Proof.
  revert attempts. induction before as [|slot before IH]; intros attempts Hlate.
  - rewrite Nat.add_0_r. split; reflexivity.
  - assert (Hslot : slot = [] \/ (S attempts < 30)%nat).
    { destruct (Nat.le_gt_cases 29 attempts) as [Hge|Hlt]; [left|right; lia].
      replace (29 - attempts)%nat with 0%nat in Hlate by lia.
      cbn [skipn List.concat] in Hlate. now apply app_eq_nil in Hlate. }
    assert (Hrest : List.concat (skipn (29 - S attempts) before) = []).
    { destruct (Nat.le_gt_cases 29 attempts) as [Hge|Hlt].
      - replace (29 - attempts)%nat with 0%nat in Hlate by lia.
        replace (29 - S attempts)%nat with 0%nat by lia.
        cbn [skipn List.concat] in *. now apply app_eq_nil in Hlate.
      - replace (29 - attempts)%nat with (S (29 - S attempts)) in Hlate by lia.
        exact Hlate. }
    destruct (IH (S attempts) Hrest) as [IHs IHr].
    cbn [List.concat List.length app Controller.poll RefactoredController.poll].
    replace (attempts + S (List.length before))%nat
      with (S attempts + List.length before)%nat by lia.
    split; intros Hall; apply Forall_app in Hall; destruct Hall as [Hs Hb].
    + assert (E : Controller.settle medusa (S attempts) slot = None).
      { apply (proj1 (settle_none (S attempts) slot)). split; [exact Hs|].
        exact Hslot. }
      rewrite E. now apply IHs.
    + assert (E : RefactoredController.settle medusa (S attempts) slot = None).
      { apply (proj2 (settle_none (S attempts) slot)). split; [exact Hs|].
        exact Hslot. }
      rewrite E. now apply IHr.
Qed.

(** The promise is resolved by the first reply that settles. *)
Lemma poll_firstSettling (request : nat) :
  (firstSettling pending medusa request ->
   Controller.poll medusa (Medusa.ticks medusa) 0
   = Some (ratesOf (Medusa.polls medusa request)))
  /\ (firstSettling unfinished medusa request ->
      RefactoredController.poll medusa (Medusa.ticks medusa) 0
      = Some (ratesOf (Medusa.polls medusa request))).
Proof.
  split; intros [before [pre [post [later [E [Hall [Hlate [Hpre Hsettles]]]]]]]];
    rewrite E; apply Forall_app in Hall; destruct Hall as [Hb Hp].
  - rewrite (proj1 (poll_waiting before _ 0 Hlate) Hb).
    cbn [Nat.add Controller.poll].
    destruct (Nat.le_gt_cases 29 (List.length before)) as [Hge|Hlt].
    + rewrite (Hpre Hge). cbn [app].
      rewrite (proj1 (settle_first _ request post)); [reflexivity|right; lia].
    + rewrite (proj1 (settle_waiting (S (List.length before)) pre _
                        ltac:(lia)) Hp).
      rewrite (proj1 (settle_first _ request post)); [reflexivity|].
      destruct Hsettles as [H|H]; [now left|lia].
  - rewrite (proj2 (poll_waiting before _ 0 Hlate) Hb).
    cbn [Nat.add RefactoredController.poll].
    destruct (Nat.le_gt_cases 29 (List.length before)) as [Hge|Hlt].
    + rewrite (Hpre Hge). cbn [app].
      rewrite (proj2 (settle_first _ request post)); [reflexivity|right; lia].
    + rewrite (proj2 (settle_waiting (S (List.length before)) pre _
                        ltac:(lia)) Hp).
      rewrite (proj2 (settle_first _ request post)); [reflexivity|].
      destruct Hsettles as [H|H]; [now left|lia].
Qed.

(** The promise is never resolved exactly when no reply settles. *)
Lemma poll_none (ticks : list (list nat)) (attempts : nat) :
  (Controller.poll medusa ticks attempts = None <->
   Forall (fun r => pending (Medusa.polls medusa r)) (List.concat ticks)
   /\ List.concat (skipn (29 - attempts) ticks) = [])
  /\ (RefactoredController.poll medusa ticks attempts = None <->
      Forall (fun r => unfinished (Medusa.polls medusa r)) (List.concat ticks)
      /\ List.concat (skipn (29 - attempts) ticks) = []).
Proof.
  revert attempts. induction ticks as [|slot later IH]; intros attempts.
  - rewrite skipn_nil. cbn [List.concat Controller.poll RefactoredController.poll].
    split; (split; [intros _; split; [constructor|reflexivity]|reflexivity]).
  - assert (Hskip : (slot = [] \/ (S attempts < 30)%nat)
                    /\ List.concat (skipn (29 - S attempts) later) = []
                    <-> List.concat (skipn (29 - attempts) (slot :: later)) = []).
    { destruct (Nat.le_gt_cases 29 attempts) as [Hge|Hlt].
      - replace (29 - attempts)%nat with 0%nat by lia.
        replace (29 - S attempts)%nat with 0%nat by lia.
        cbn [skipn List.concat]. split.
        + intros [[->|Hlt] ->]; [reflexivity|lia].
        + intros H. apply app_eq_nil in H. destruct H as [-> ->]. auto.
      - replace (29 - attempts)%nat with (S (29 - S attempts)) by lia.
        cbn [skipn]. split; [now intros [_ H]|].
        intros H. split; [right; lia|exact H]. }
    destruct (IH (S attempts)) as [IHs IHr].
    destruct (settle_none (S attempts) slot) as [Ss Sr].
    cbn [List.concat Controller.poll RefactoredController.poll].
    rewrite !Forall_app, <- Hskip. split.
    + destruct (Controller.settle medusa (S attempts) slot) as [rates|].
      * split; [discriminate|]. intros [[Hs _] [Hc _]].
        assert (H : Some rates = None) by (apply Ss; auto). discriminate H.
      * rewrite IHs. destruct (proj1 Ss eq_refl) as [Hs Hc]. tauto.
    + destruct (RefactoredController.settle medusa (S attempts) slot) as [rates|].
      * split; [discriminate|]. intros [[Hs _] [Hc _]].
        assert (H : Some rates = None) by (apply Sr; auto). discriminate H.
      * rewrite IHr. destruct (proj1 Sr eq_refl) as [Hs Hc]. tauto.
Qed.

End Polling.

(** C8, as the code has it.  A request that passes the checks of a
    controller and whose origin is found is answered after the [try]
    block of the rate API has ended, and never when that block never
    ends: with the local quote tagged STRAPI_TABLE when the block threw,
    and when it left a price, with that price rounded to thousandths and
    tagged MEDUSA_API, beside the destination, the warehouse and the
    distance of the local quote; a local computation that throws fails
    the request either way.  The block throws without credentials,
    without services (in the controller of the service), and when the
    rate request fails.  With those it goes as the polling does: the
    first reply that settles ends it, and it never ends when none does.
    A reply settles when it is not pending, or when it comes in at the
    thirtieth tick of the timer or later, whichever request it answers;
    for the refactored controller a reply without a status is pending.
    The block throws when the settling reply is pending, has failed, has
    no status, has no rate or has a first rate without a total, and for
    the refactored controller when the value of that total is absent or
    zero; for the controller of the service an absent value gives a
    price that is no number.  Else the price is the floor of the product
    of the cents and 1.15 as the doubles give it (114 for 100 cents), in
    hundredths, less the rate API's discount when that is enabled and not
    zero, not below zero, each operation giving a double. *)
Theorem C8_rate_api_with_local_fallback (strapi : Strapi)
  (calculateDistance : string -> string -> option Q) (medusa : Medusa.Session)
  (cart : Cart.t) (address : Address.t) :
  let response :=
    Controller.calculateShipping strapi calculateDistance medusa (Some cart) in
  let attempt := Controller.medusaAttempt strapi medusa in
  let local := Service.calculateShipping strapi calculateDistance cart in
  let response' :=
    RefactoredController.calculateShipping strapi calculateDistance medusa
      (Some cart) in
  let attempt' := RefactoredController.medusaAttempt strapi medusa in
  let local' := Refactored.calculateShipping strapi calculateDistance cart in
  let answer (attempt : Attempt) (local : result Quote) :=
    match attempt, local with
    | AttemptWaits, _ => Unanswered
    | AttemptEnds _, Throw e => InternalError e
    | AttemptEnds None, Ok quote => FromStrapi quote "STRAPI_TABLE"
    | AttemptEnds (Some (price, percent)), Ok quote =>
        FromMedusa
          {| mb_destinationPostalCode := q_destinationPostalCode quote;
             mb_destinationCountry := q_destinationCountry quote;
             mb_warehouseId := q_warehouseId quote;
             mb_warehouseName := q_warehouseName quote;
             mb_warehousePostalCode := q_warehousePostalCode quote;
             mb_distanceKm := q_distanceKm quote;
             mb_subtotal := option_map (JS.toFixed 3) price;
             mb_source := "MEDUSA_API";
             mb_discountPercent := percent;
             mb_total := option_map (JS.toFixed 3) price;
             mb_currency := "CAD" |}
    end in
  let marked (cents : Q) :=
    JS.double
      (inject_Z (Qfloor (JS.double (cents * JS.double (115 # 100)))) / 100) in
  let less (percent price : Q) :=
    JS.Math_max 0
      (JS.double (price - JS.double (price * JS.double (percent / 100)))) in
  let quoted (value : option Q) :=
    match medusaDiscountSetting strapi with
    | Some s =>
        if Settings.isDiscountEnabled s then
          if Qeq_bool (Settings.discountPercentage s) 0
          then (option_map marked value, 0)
          else (option_map (less (Settings.discountPercentage s))
                           (option_map marked value),
                Settings.discountPercentage s)
        else (option_map marked value, 0)
    | None => (option_map marked value, 0)
    end in
  let ready :=
    Medusa.apiKey medusa = true /\ Medusa.rateRequest medusa = true in
  let served :=
    exists service services,
      Medusa.services medusa = Some (service :: services) in
  let request' (st : Strapi) (m : Medusa.Session) :=
    RefactoredController.calculateShipping st scenarioDistance m
      (Some (cartOf pallet)) in
  let request (st : Strapi) (m : Medusa.Session) :=
    Controller.calculateShipping st scenarioDistance m (Some (cartOf pallet)) in
  (noEntries (Cart.items cart) && noEntries (Cart.boxes cart))%bool = false ->
  match Cart.boxes cart with
  | Some boxes => firstIncomplete 0 boxes
  | None => None
  end = None ->
  Cart.shipping_address cart = Some address ->
  present (Address.postal_code address) = true ->
  response = match Controller.originPostalCode strapi calculateDistance cart with
             | Ok _ => answer attempt local
             | Throw e => InternalError e
             end
  /\ response' = match Refactored.getOriginPostalCode strapi calculateDistance
                         (Cart.sales_channel_id cart)
                         (Address.postal_code address)
                         (Cart.warehouse_id cart) with
                 | Ok _ => answer attempt' local'
                 | Throw e => InternalError e
                 end
  /\ (Medusa.apiKey medusa = false ->
      attempt = AttemptEnds None /\ attempt' = AttemptEnds None)
  /\ (Medusa.services medusa = None \/ Medusa.services medusa = Some [] ->
      attempt = AttemptEnds None)
  /\ (Medusa.rateRequest medusa = false ->
      attempt = AttemptEnds None /\ attempt' = AttemptEnds None)
  /\ (ready -> served -> neverSettling pending medusa -> attempt = AttemptWaits)
  /\ (ready -> neverSettling unfinished medusa -> attempt' = AttemptWaits)
  /\ (ready -> served -> forall settling,
        firstSettling pending medusa settling ->
        attempt = match Medusa.polls medusa settling with
                  | Medusa.PollDone (rate :: _) =>
                      match Medusa.total rate with
                      | Some value => AttemptEnds (Some (quoted value))
                      | None => AttemptEnds None
                      end
                  | _ => AttemptEnds None
                  end)
  /\ (ready -> forall settling,
        firstSettling unfinished medusa settling ->
        attempt' = match Medusa.polls medusa settling with
                   | Medusa.PollDone (rate :: _) =>
                       match Medusa.total rate with
                       | Some (Some cents) =>
                           if Qeq_bool cents 0 then AttemptEnds None
                           else AttemptEnds (Some (quoted (Some cents)))
                       | _ => AttemptEnds None
                       end
                   | _ => AttemptEnds None
                   end)
  /\ (forall run, In run [request; request'] ->
        quotes (run pricedStore readySession) 115 = true
        /\ quotes (run pricedStore (sessionAt 100)) (114 # 100) = true
        /\ quotes (run (discountedStore 10) readySession) (1035 # 10) = true
        /\ quotes (run (discountedStore (125 # 10)) (sessionAt 100))
                  (997 # 1000) = true
        /\ quotes (run pricedStore lateSession) (114 # 100) = true
        /\ quotes (run pricedStore slowSession) 115 = true
        /\ tabled (run pricedStore pendingSession) = true
        /\ tabled (run pricedStore keylessSession) = true
        /\ run pricedStore silentSession = Unanswered)
  /\ quotes (request pricedStore (sessionAt 0)) 0 = true
  /\ tabled (request' pricedStore (sessionAt 0)) = true.
Proof.
  intros response attempt local response' attempt' local' answer marked less
    quoted ready served request' request Hentries Hboxes Haddress Hpostal.
  assert (Hquoted : forall value,
            medusaDiscount (medusaDiscountSetting strapi)
                           (option_map Medusa.markup value)
            = quoted value).
  { intros value. unfold medusaDiscount, quoted, JS.truthy.
    destruct (medusaDiscountSetting strapi) as [s|]; [|reflexivity].
    destruct (Settings.isDiscountEnabled s); cbn [andb]; [|reflexivity].
    destruct (Qeq_bool (Settings.discountPercentage s) 0); reflexivity. }
  split.
  { unfold response, Controller.calculateShipping.
    rewrite Hentries, Hboxes, Haddress, Hpostal. cbn [negb].
    destruct (Controller.originPostalCode strapi calculateDistance cart) as [o|e];
      [|reflexivity].
    fold attempt. fold local. unfold answer, respond.
    destruct attempt as [|[[price percent]|]]; destruct local; reflexivity. }
  split.
  { unfold response', RefactoredController.calculateShipping.
    rewrite Hentries, Hboxes, Haddress, Hpostal. cbn [negb].
    destruct (Refactored.getOriginPostalCode strapi calculateDistance
                (Cart.sales_channel_id cart) (Address.postal_code address)
                (Cart.warehouse_id cart)) as [o|e]; [|reflexivity].
    fold attempt'. fold local'. unfold answer, respond.
    destruct attempt' as [|[[price percent]|]]; destruct local'; reflexivity. }
  unfold attempt, attempt', Controller.medusaAttempt,
    RefactoredController.medusaAttempt.
  split.
  { intros ->. split; reflexivity. }
  split.
  { intros [->| ->]; destruct (Medusa.apiKey medusa); reflexivity. }
  split.
  { intros ->. destruct (Medusa.apiKey medusa); simpl; [|split; reflexivity].
    destruct (Medusa.services medusa) as [[|s ss]|]; split; reflexivity. }
  split.
  { intros [-> ->] [service [services ->]] [Hall Hlate]. cbn [negb].
    assert (E : Controller.poll medusa (Medusa.ticks medusa) 0 = None).
    { apply (proj1 (poll_none medusa (Medusa.ticks medusa) 0)). now split. }
    now rewrite E. }
  split.
  { intros [-> ->] [Hall Hlate]. cbn [negb].
    assert (E : RefactoredController.poll medusa (Medusa.ticks medusa) 0 = None).
    { apply (proj2 (poll_none medusa (Medusa.ticks medusa) 0)). now split. }
    now rewrite E. }
  split.
  { intros [-> ->] [service [services ->]] settling Hfirst. cbn [negb].
    rewrite (proj1 (poll_firstSettling medusa settling) Hfirst).
    destruct (Medusa.polls medusa settling) as [| | |[|rate rates]];
      try reflexivity.
    cbn [ratesOf]. destruct (Medusa.total rate) as [value|]; [|reflexivity].
    cbv zeta. now rewrite Hquoted. }
  split.
  { intros [-> ->] settling Hfirst. cbn [negb].
    rewrite (proj2 (poll_firstSettling medusa settling) Hfirst).
    destruct (Medusa.polls medusa settling) as [| | |[|rate rates]];
      try reflexivity.
    cbn [ratesOf]. destruct (Medusa.total rate) as [[cents|]|]; try reflexivity.
    unfold JS.truthy. destruct (Qeq_bool cents 0); cbn [negb]; [reflexivity|].
    now rewrite <- Hquoted. }
  split.
  { intros run [<-|[<-|[]]]; repeat split; vm_compute; reflexivity. }
  split; vm_compute; reflexivity.
Qed.

(** C8, as stated, fails when the local computation throws: the rate API
    answers with a rate of 10000 cents, so the external price is 115, but
    the price table is empty and both controllers answer with the
    no-data error of the local computation. *)
Lemma C8_counterexample_local_failure :
  (exists price,
     Controller.medusaAttempt unpricedStore readySession
     = AttemptEnds (Some (Some price, 0))
     /\ RefactoredController.medusaAttempt unpricedStore readySession
        = AttemptEnds (Some (Some price, 0))
     /\ price == 115)
  /\ Controller.calculateShipping unpricedStore scenarioDistance readySession
       (Some (cartOf pallet)) = InternalError NoPricingData
  /\ RefactoredController.calculateShipping unpricedStore scenarioDistance
       readySession (Some (cartOf pallet)) = InternalError NoPricingData.
Proof.
  split.
  - eexists. split; [vm_compute; reflexivity|].
    split; vm_compute; reflexivity.
  - split; vm_compute; reflexivity.
Qed.

(** The request of the counterexample, with the price of the pallet in the
    table and with the session that succeeds. *)
Lemma C8_witness_ready_session :
  exists body,
    Controller.calculateShipping pricedStore scenarioDistance readySession
      (Some (cartOf pallet)) = FromMedusa body
    /\ mb_source body = "MEDUSA_API".
Proof.
  assert (H := C8_rate_api_with_local_fallback pricedStore scenarioDistance
                 readySession (cartOf pallet) (Address.mk (Some "M5V 2T6") None)
                 eq_refl eq_refl eq_refl eq_refl).
  destruct H as [H _].
  eexists. split.
  - rewrite H. vm_compute. reflexivity.
  - reflexivity.
Defined.

(* ------------------------------------------------------------------ *)
(** * Further properties of the code *)

(** ** Prices *)

(** A list of rows that is not empty always yields a row. *)
Lemma selectedPricing_some (pricings : list Pricing.t) (weight : Q) :
  pricings <> [] ->
  exists sel, Service.selectedPricing pricings weight = Some sel /\ In sel pricings.
Proof.
  intros Hne. unfold Service.selectedPricing.
  destruct (matchingBreakpoint weight (JS.sortBy fst (withBreakpoint pricings)))
    as [sel|] eqn:Em.
  - exists sel. split; [reflexivity|].
    apply matchingBreakpoint_some in Em. destruct Em as [b [Hin _]].
    apply (proj1 (sortBy_In fst _ _)) in Hin. now apply withBreakpoint_In in Hin.
  - destruct (JS.lastOf (JS.sortBy fst (withBreakpoint pricings))) as [[b sel]|] eqn:El.
    + exists sel. split; [reflexivity|].
      apply lastOf_In in El. apply (proj1 (sortBy_In fst _ _)) in El.
      now apply withBreakpoint_In in El.
    + simpl. apply lastOf_nil in El.
      assert (E : withBreakpoint pricings = []).
      { apply Permutation_nil. rewrite <- El. apply sortBy_perm. }
      destruct pricings as [|p rest]; [congruence|].
      exists p. simpl.
      rewrite (withBreakpoint_nil _ E p (or_introl eq_refl)). simpl.
      split; [reflexivity|now left].
Qed.

Lemma tier3_rows (table : list Pricing.t) (freightClass : Q) (p : Pricing.t) :
  In p (tier3 table freightClass) <->
  In p table /\ Pricing.freightClass p == JS.Math_round freightClass.
Proof.
  unfold tier3, ofClass, JS.eqb. rewrite filter_In, Qeq_bool_iff. tauto.
Qed.

(** The rows looked up are empty only when the table has no row of the
    class. *)
Lemma resolveBySpec_nil (table : list Pricing.t) (freightClass : Q) (band : string) :
  resolveBySpec table freightClass band = [] <-> tier3 table freightClass = [].
Proof.
  unfold resolveBySpec.
  destruct (tier1 table freightClass band) as [|r1 rs1] eqn:E1.
  - destruct (JS.includes band "-").
    + destruct (tier2 table freightClass band) as [|r2 rs2] eqn:E2; [tauto|].
      split; [discriminate|]. intros E3. exfalso.
      assert (Hin : In r2 (tier2 table freightClass band)) by (rewrite E2; now left).
      unfold tier2 in Hin. apply filter_In in Hin. destruct Hin as [Hin Hp].
      apply andb_true_iff in Hp. destruct Hp as [Hp _].
      assert (H3 : In r2 (tier3 table freightClass))
        by (unfold tier3; apply filter_In; auto).
      rewrite E3 in H3. destruct H3.
    + tauto.
  - split; [discriminate|]. intros E3. exfalso.
    assert (Hin : In r1 (tier1 table freightClass band)) by (rewrite E1; now left).
    unfold tier1 in Hin. apply filter_In in Hin. destruct Hin as [Hin Hp].
    apply andb_true_iff in Hp. destruct Hp as [Hp _].
    assert (H3 : In r1 (tier3 table freightClass))
      by (unfold tier3; apply filter_In; auto).
    rewrite E3 in H3. destruct H3.
Qed.

Lemma resolveBySpec_rows (table : list Pricing.t) (freightClass : Q)
  (band : string) (p : Pricing.t) :
  In p (resolveBySpec table freightClass band) ->
  In p table /\ Pricing.freightClass p == JS.Math_round freightClass.
Proof.
  unfold resolveBySpec.
  assert (T : forall f, In p (filter (fun p => ofClass freightClass p && f p)%bool table) ->
              In p table /\ Pricing.freightClass p == JS.Math_round freightClass).
  { intros f Hin. apply filter_In in Hin. destruct Hin as [Hin Hp].
    apply andb_true_iff in Hp. destruct Hp as [Hp _].
    split; [exact Hin|]. now apply Qeq_bool_iff. }
  destruct (tier1 table freightClass band) as [|r rs] eqn:E1.
  - destruct (JS.includes band "-"); [|apply tier3_rows].
    destruct (tier2 table freightClass band) as [|r2 rs2] eqn:E2; [apply tier3_rows|].
    rewrite <- E2. apply T.
  - rewrite <- E1. apply T.
Qed.

Lemma whole_not_fractional (x : Q) (z : Z) :
  x == inject_Z z -> JS.fractional x = false.
Proof.
  intros E. unfold JS.fractional. apply negb_false_iff, Qeq_bool_iff.
  rewrite (Qfloor_comp _ _ E), Qfloor_Z. exact E.
Qed.

(** X1: a price is found exactly when the table has a row of the class
    rounded; neither the band nor the weight can make the lookup fail.
    In both copies. *)
Theorem X1_price_found_iff_class_priced (strapi : Strapi) (freightClass : Q)
  (band : string) (weight : Q) :
  (Service.findPriceAndRateByClassAndDistance strapi freightClass band weight = None
   <-> forall p, In p (freightClassPricings strapi) ->
                 ~ Pricing.freightClass p == JS.Math_round freightClass)
  /\ Refactored.findPriceAndRateByClassAndDistance strapi freightClass band weight
     = Service.findPriceAndRateByClassAndDistance strapi freightClass band weight.
Proof.
  split; [|symmetry; apply findPrice_same].
  unfold Service.findPriceAndRateByClassAndDistance.
  rewrite lookupPricings_resolveBySpec, length_zero.
  set (table := freightClassPricings strapi).
  destruct (resolveBySpec table freightClass band) as [|r rs] eqn:E.
  - split; [|reflexivity]. intros _ p Hp Hc.
    apply resolveBySpec_nil in E.
    assert (H3 : In p (tier3 table freightClass)) by now apply tier3_rows.
    rewrite E in H3. destruct H3.
  - destruct (selectedPricing_some (r :: rs) weight) as [sel [-> _]]; [discriminate|].
    split; [discriminate|]. intros H. exfalso.
    assert (Hr : In r (resolveBySpec table freightClass band)) by (rewrite E; now left).
    apply resolveBySpec_rows in Hr. destruct Hr as [Hin Hc]. now apply (H r).
Qed.

(** The row a price comes from. *)
Lemma priced_row (strapi : Strapi) (freightClass : Q)
  (band : string) (weight : Q) (r : PricingResult) :
  Service.findPriceAndRateByClassAndDistance strapi freightClass band weight = Some r ->
  exists p,
    In p (resolveBySpec (freightClassPricings strapi) freightClass band)
    /\ r = {| price := Pricing.price p * (weight / 100);
              ratePerCwt := Pricing.price p |}.
Proof.
  unfold Service.findPriceAndRateByClassAndDistance.
  rewrite lookupPricings_resolveBySpec, length_zero.
  destruct (resolveBySpec (freightClassPricings strapi) freightClass band)
    as [|r0 rs] eqn:E; [discriminate|].
  destruct (selectedPricing_some (r0 :: rs) weight) as [sel [Es Hin]];
    [discriminate|].
  rewrite Es. intros [= <-]. exists sel. split; [exact Hin|reflexivity].
Qed.

(** X2: the rate charged is the price of a row of the table of the class
    rounded, so never of a row whose class is not a whole number, and the
    price is that rate for each hundred pounds. *)
Theorem X2_rate_is_a_row_of_the_class (strapi : Strapi) (freightClass : Q)
  (band : string) (weight : Q) (r : PricingResult) :
  Service.findPriceAndRateByClassAndDistance strapi freightClass band weight = Some r ->
  exists p, In p (freightClassPricings strapi)
    /\ Pricing.freightClass p == JS.Math_round freightClass
    /\ JS.fractional (Pricing.freightClass p) = false
    /\ ratePerCwt r = Pricing.price p
    /\ price r = Pricing.price p * (weight / 100).
Proof.
  intros E. destruct (priced_row _ _ _ _ _ E) as [p [Hp ->]].
  apply resolveBySpec_rows in Hp. destruct Hp as [Hin Hc].
  exists p. split; [exact Hin|]. split; [exact Hc|].
  split; [|split; reflexivity].
  now apply (whole_not_fractional _ (Qfloor (freightClass + (1 # 2)))).
Qed.

Lemma X2_witness_ladder :
  exists p, In p (freightClassPricings ladderStore)
    /\ Pricing.freightClass p == JS.Math_round 100
    /\ Pricing.price p = 500 + 1.
Proof.
  destruct (X2_rate_is_a_row_of_the_class ladderStore 100 "0-99km" 750
              {| price := (500 + 1) * (750 / 100); ratePerCwt := 500 + 1 |})
    as [p [Hin [Hc [_ [Hr _]]]]].
  - vm_compute. reflexivity.
  - exists p. split; [exact Hin|]. split; [exact Hc|]. symmetry. exact Hr.
Defined.

(** X3: [findPriceByClassAndDistance] returns the price that
    [findPriceAndRateByClassAndDistance] returns beside its rate. *)
Theorem X3_price_only_lookup_agrees (strapi : Strapi) (freightClass : Q)
  (band : string) (weight : Q) :
  ServicePrice.findPriceByClassAndDistance strapi freightClass band weight
  = option_map price
      (Service.findPriceAndRateByClassAndDistance strapi freightClass band weight).
Proof.
  unfold ServicePrice.findPriceByClassAndDistance,
    Service.findPriceAndRateByClassAndDistance, Service.lookupPricings,
    Service.selectedPricing.
  cbv zeta. unfold rangeFilter. rewrite !filter_filter. cbv beta.
  match goal with
  | |- (if (List.length ?l =? 0)%nat then None else _) = _ => set (rows := l)
  end.
  destruct (List.length rows =? 0)%nat; [reflexivity|].
  destruct (matchingBreakpoint weight (JS.sortBy fst (withBreakpoint rows)))
    as [sel|]; [reflexivity|].
  destruct (JS.sortBy fst (withBreakpoint rows)) as [|x xs] eqn:Es.
  - simpl. destruct (find _ rows); reflexivity.
  - destruct (JS.lastOf (x :: xs)) as [[b sel]|]; simpl.
    + reflexivity.
    + destruct (find _ rows); reflexivity.
Qed.

(** X4: a weight below every breakpoint is priced at the highest
    breakpoint, as a weight above them all is. *)
Theorem X4_below_all_breakpoints (pricings : list Pricing.t) (weight : Q) :
  withBreakpoint pricings <> [] ->
  (forall p b, In p pricings -> Pricing.breakpointValue p = Some b -> weight < b) ->
  exists sel bs,
    Service.selectedPricing pricings weight = Some sel
    /\ Refactored.selectPricingByWeight pricings weight = Some sel
    /\ In sel pricings
    /\ Pricing.breakpointValue sel = Some bs
    /\ forall p b, In p pricings -> Pricing.breakpointValue p = Some b -> b <= bs.
Proof.
  intros Hne Hall.
  set (sorted := JS.sortBy fst (withBreakpoint pricings)).
  assert (Em : matchingBreakpoint weight sorted = None).
  { destruct (matchingBreakpoint weight sorted) as [sel|] eqn:E; [|reflexivity].
    apply matchingBreakpoint_some in E. destruct E as [b [Hin Hle]].
    apply (proj1 (sortBy_In fst _ _)) in Hin. apply withBreakpoint_In in Hin.
    destruct Hin as [Hp Hb]. exfalso.
    apply (Qlt_not_le _ _ (Hall sel b Hp Hb)). exact Hle. }
  destruct (JS.lastOf sorted) as [[bs sel]|] eqn:El.
  - exists sel, bs.
    assert (Hin : In (bs, sel) (withBreakpoint pricings)).
    { apply (proj1 (sortBy_In fst _ _)). now apply lastOf_In. }
    apply withBreakpoint_In in Hin. destruct Hin as [Hp Hb].
    split; [|split; [|split; [exact Hp|split; [exact Hb|]]]].
    + unfold Service.selectedPricing. fold sorted. now rewrite Em, El.
    + unfold Refactored.selectPricingByWeight. fold sorted. now rewrite Em, El.
    + intros p b Hp' Hb'.
      apply (lastOf_max fst sorted (bs, sel) (sortBy_sorted fst _) El (b, p)).
      apply (proj2 (sortBy_In fst _ _)). now apply withBreakpoint_In.
  - exfalso. apply Hne. apply lastOf_nil in El.
    apply Permutation_nil. rewrite <- El. apply sortBy_perm.
Qed.

Lemma X4_witness_ladder_at_minus_one :
  exists sel,
    Service.selectedPricing ladder (-1) = Some sel
    /\ Pricing.breakpointValue sel = Some 1000.
Proof.
  destruct (X4_below_all_breakpoints ladder (-1)) as [sel [bs [Hs [_ [_ [Hb Hmax]]]]]].
  - discriminate.
  - intros p b [<-|[<-|[<-|[]]]] [= <-]; reflexivity.
  - exists sel. split; [exact Hs|].
    assert (E : Service.selectedPricing ladder (-1) = Some (tier 1000))
      by (vm_compute; reflexivity).
    rewrite E in Hs. injection Hs as <-. reflexivity.
Defined.

(** A row of the class rounded is all a price needs. *)
Lemma findPrice_of_row (strapi : Strapi) (freightClass : Q) (band : string)
  (weight : Q) (p : Pricing.t) :
  In p (freightClassPricings strapi) ->
  Pricing.freightClass p == JS.Math_round freightClass ->
  exists r,
    Service.findPriceAndRateByClassAndDistance strapi freightClass band weight
    = Some r.
Proof.
  intros Hin Hc.
  unfold Service.findPriceAndRateByClassAndDistance.
  rewrite lookupPricings_resolveBySpec, length_zero.
  destruct (resolveBySpec (freightClassPricings strapi) freightClass band)
    as [|r0 rs] eqn:E.
  - exfalso. apply resolveBySpec_nil in E.
    assert (H3 : In p (tier3 (freightClassPricings strapi) freightClass))
      by now apply tier3_rows.
    rewrite E in H3. destruct H3.
  - destruct (selectedPricing_some (r0 :: rs) weight) as [sel [-> _]];
      [discriminate|].
    eexists. reflexivity.
Qed.

Lemma nearest_priced (strapi : Strapi) (c : Q) (band : string) (weight : Q) :
  freightClassPricings strapi <> [] ->
  (forall p, In p (freightClassPricings strapi) ->
             Pricing.freightClass p == JS.Math_round (Pricing.freightClass p)) ->
  exists first rest r,
    JS.sortBy (fun c0 => c0)
      (distinct [] (map Pricing.freightClass (freightClassPricings strapi)))
    = first :: rest
    /\ Service.findPriceAndRateByClassAndDistance strapi
         (Service.nearestLoop c (first :: rest) first (JS.Math_abs (c - first)))
         band weight = Some r.
Proof.
  intros Hne Hwhole.
  destruct (available_classes (freightClassPricings strapi)) as [_ [Hfrom Hto]].
  cbv zeta in Hfrom, Hto.
  destruct (JS.sortBy (fun c0 => c0)
              (distinct [] (map Pricing.freightClass (freightClassPricings strapi))))
    as [|first rest].
  - exfalso. destruct (freightClassPricings strapi) as [|p ps]; [now apply Hne|].
    destruct (Hto p (or_introl eq_refl)) as [n [[] _]].
  - exists first, rest. rewrite nearestLoop_fold.
    destruct (fold_nearest c (first :: rest) first _ eq_refl) as [Hn _].
    assert (Hn' : In (fold_left
                        (fun nearest current =>
                           if JS.ltb (JS.Math_abs (current - c))
                                     (JS.Math_abs (nearest - c))
                           then current else nearest)
                        (first :: rest) first) (first :: rest)).
    { destruct Hn as [<-|Hn]; [now left|exact Hn]. }
    destruct (Hfrom _ Hn') as [p [Hp Hclass]].
    destruct (findPrice_of_row strapi
                (fold_left
                   (fun nearest current =>
                      if JS.ltb (JS.Math_abs (current - c))
                                (JS.Math_abs (nearest - c))
                      then current else nearest)
                   (first :: rest) first) band weight p Hp) as [r Hr].
    { rewrite <- Hclass. now apply Hwhole. }
    exists r. split; [reflexivity|exact Hr].
Qed.

(** X5: over a price table that is not empty and whose classes are whole
    numbers, the price resolution of a box never throws: the class
    computed, or the nearest class of the table, has a price whatever the
    band and the weight are. *)
Theorem X5_whole_classes_always_priced (strapi : Strapi) (c distanceKm : Q)
  (band : string) (weight : Q) :
  freightClassPricings strapi <> [] ->
  (forall p, In p (freightClassPricings strapi) ->
             Pricing.freightClass p == JS.Math_round (Pricing.freightClass p)) ->
  exists r used,
    Service.resolvePrice strapi c distanceKm band weight = Ok (r, used)
    /\ Refactored.resolvePrice strapi c distanceKm band weight = Ok (r, used).
Proof.
  intros Hne Hwhole.
  rewrite <- resolvePrice_same.
  cut (exists r used,
         Service.resolvePrice strapi c distanceKm band weight = Ok (r, used)).
  { intros [r [used H]]. exists r, used. now split. }
  destruct (nearest_priced strapi c band weight Hne Hwhole)
    as [first [rest [rn [Ec Hr]]]].
  unfold Service.resolvePrice. cbv zeta.
  destruct (Service.findPriceAndRateByClassAndDistance strapi c band weight)
    as [r|] eqn:E1.
  - exists r, c. reflexivity.
  - destruct (JS.fractional c).
    + destruct (Service.findPriceAndRateByClassAndDistance strapi
                  (JS.Math_round c) band weight) as [r|] eqn:E2.
      * exists r, (JS.Math_round c). reflexivity.
      * rewrite Ec, Hr. eexists. eexists. reflexivity.
    + rewrite Ec, Hr. eexists. eexists. reflexivity.
Qed.

Lemma X5_witness_pallet_class_85 :
  exists r used,
    Service.resolvePrice (palletStore 10) 85 250 "200-299km" 500 = Ok (r, used)
    /\ Refactored.resolvePrice (palletStore 10) 85 250 "200-299km" 500 = Ok (r, used).
Proof.
  apply (X5_whole_classes_always_priced (palletStore 10) 85 250 "200-299km" 500).
  - discriminate.
  - intros p [<-|[]]. vm_compute. reflexivity.
Defined.

(** ** The loop over the boxes *)

Lemma Refactored_forBoxes_cases (strapi : Strapi) (distanceKm : Q) (band : string)
  (boxes : list Box.t) :
  forall (acc : list BoxQuote) (s : Q),
  (exists lines,
     Forall2 (fun b line => Refactored.quoteBox strapi distanceKm band b = Ok line)
             boxes lines
     /\ Refactored.forBoxes strapi distanceKm band boxes acc s
        = Ok ((acc ++ map fst lines)%list, fold_left Qplus (map snd lines) s))
  \/ (exists pre box post e,
        boxes = (pre ++ box :: post)%list
        /\ Forall (fun b => exists line,
                     Refactored.quoteBox strapi distanceKm band b = Ok line) pre
        /\ Refactored.quoteBox strapi distanceKm band box = Throw e
        /\ Refactored.forBoxes strapi distanceKm band boxes acc s = Throw e).
Proof.
  induction boxes as [|b rest IH]; intros acc s.
  - left. exists []. split; [constructor|]. simpl. now rewrite app_nil_r.
  - cbn [Refactored.forBoxes].
    destruct (Refactored.quoteBox strapi distanceKm band b) as [line|e] eqn:Eb.
    + cbn [bind].
      destruct (IH (acc ++ [fst line])%list (s + snd line))
        as [[lines [Hl Hr]]|[pre [box [post [e [Hb [Hpre [Hbox Hr]]]]]]]].
      * left. exists (line :: lines). split; [now constructor|].
        rewrite Hr. cbn [map fold_left]. now rewrite <- app_assoc.
      * right. exists (b :: pre), box, post, e.
        split; [now rewrite Hb|]. split; [|now split].
        constructor; [now exists line|exact Hpre].
    + right. exists [], b, rest, e.
      split; [reflexivity|]. split; [constructor|]. now split.
Qed.

Lemma Forall2_toImperial (P : Box.t -> BoxQuote * Q -> Prop) (boxes : list Box.t)
  (lines : list (BoxQuote * Q)) :
  Forall2 P (map toImperial boxes) lines ->
  Forall2 (fun b line => P (toImperial b) line) boxes lines.
Proof.
  revert lines. induction boxes as [|b rest IH]; intros lines H.
  - inversion H. constructor.
  - inversion H; subst. constructor; auto.
Qed.

Lemma map_toImperial_split (boxes : list Box.t) (pre' post' : list Box.t)
  (box' : Box.t) :
  map toImperial boxes = (pre' ++ box' :: post')%list ->
  exists pre box post,
    boxes = (pre ++ box :: post)%list
    /\ pre' = map toImperial pre /\ box' = toImperial box.
Proof.
  revert pre'. induction boxes as [|b rest IH]; intros pre' H.
  - destruct pre'; discriminate.
  - destruct pre' as [|x pre'].
    + injection H as Hb Hrest. exists [], b, rest. auto.
    + injection H as Hb Hrest.
      destruct (IH pre' Hrest) as [pre [box [post [-> [-> ->]]]]].
      exists (b :: pre), box, post. subst x. auto.
Qed.

Lemma Service_forBoxes_cases (strapi : Strapi) (distanceKm : Q) (band : string)
  (boxes : list Box.t) (acc : list BoxQuote) (s : Q) :
  (exists lines,
     Forall2 (fun b line => Service.quoteBox strapi distanceKm band b = Ok line)
             boxes lines
     /\ Service.forBoxes strapi distanceKm band boxes acc s
        = Ok ((acc ++ map fst lines)%list, fold_left Qplus (map snd lines) s))
  \/ (exists pre box post e,
        boxes = (pre ++ box :: post)%list
        /\ Forall (fun b => exists line,
                     Service.quoteBox strapi distanceKm band b = Ok line) pre
        /\ Service.quoteBox strapi distanceKm band box = Throw e
        /\ Service.forBoxes strapi distanceKm band boxes acc s = Throw e).
Proof.
  rewrite forBoxes_toImperial.
  destruct (Refactored_forBoxes_cases strapi distanceKm band
              (map toImperial boxes) acc s)
    as [[lines [Hl Hr]]|[pre' [box' [post' [e [Hb [Hpre [Hbox Hr]]]]]]]].
  - left. exists lines. split; [|exact Hr].
    apply Forall2_toImperial in Hl.
    eapply Forall2_impl; [|exact Hl].
    intros b line H. now rewrite quoteBox_toImperial.
  - right. destruct (map_toImperial_split _ _ _ _ Hb)
      as [pre [box [post [-> [-> ->]]]]].
    exists pre, box, post, e. split; [reflexivity|].
    split; [|split; [now rewrite quoteBox_toImperial|exact Hr]].
    apply Forall_forall. intros b Hin. rewrite quoteBox_toImperial.
    rewrite Forall_forall in Hpre. apply Hpre. now apply in_map.
Qed.

(** X6: [calculateShippingForBoxes] of either copy quotes every box or
    none: either every box has a quote, and the quotes returned are the
    boxes' quotes in the order of the boxes, or the error thrown is the
    error of the first box that has no quote. *)
Theorem X6_every_box_or_first_error (strapi : Strapi) (boxes : list Box.t)
  (distanceKm : Q) (band : string) (origin : option string)
  (dest country : string) :
  ((exists q lines,
      Service.calculateShippingForBoxes strapi boxes distanceKm band origin
        dest country = Ok q
      /\ Forall2 (fun b line => Service.quoteBox strapi distanceKm band b = Ok line)
                 boxes lines
      /\ q_boxes q = map fst lines)
   \/ (exists pre box post e,
         boxes = (pre ++ box :: post)%list
         /\ Forall (fun b => exists line,
                      Service.quoteBox strapi distanceKm band b = Ok line) pre
         /\ Service.quoteBox strapi distanceKm band box = Throw e
         /\ Service.calculateShippingForBoxes strapi boxes distanceKm band origin
              dest country = Throw e))
  /\ ((exists q lines,
         Refactored.calculateShippingForBoxes strapi boxes distanceKm band origin
           dest country = Ok q
         /\ Forall2 (fun b line =>
                       Refactored.quoteBox strapi distanceKm band b = Ok line)
                    boxes lines
         /\ q_boxes q = map fst lines)
      \/ (exists pre box post e,
            boxes = (pre ++ box :: post)%list
            /\ Forall (fun b => exists line,
                         Refactored.quoteBox strapi distanceKm band b = Ok line) pre
            /\ Refactored.quoteBox strapi distanceKm band box = Throw e
            /\ Refactored.calculateShippingForBoxes strapi boxes distanceKm band
                 origin dest country = Throw e)).
Proof.
  split.
  - unfold Service.calculateShippingForBoxes. cbv zeta.
    destruct (Service_forBoxes_cases strapi distanceKm band boxes [] 0)
      as [[lines [Hl Hr]]|[pre [box [post [e [Hb [Hpre [Hbox Hr]]]]]]]].
    + left. rewrite Hr. cbn [bind]. eexists. exists lines.
      split; [reflexivity|]. split; [exact Hl|reflexivity].
    + right. exists pre, box, post, e. rewrite Hr. auto.
  - unfold Refactored.calculateShippingForBoxes. cbv zeta.
    destruct (Refactored_forBoxes_cases strapi distanceKm band boxes [] 0)
      as [[lines [Hl Hr]]|[pre [box [post [e [Hb [Hpre [Hbox Hr]]]]]]]].
    + left. rewrite Hr. cbn [bind]. eexists. exists lines.
      split; [reflexivity|]. split; [exact Hl|reflexivity].
    + right. exists pre, box, post, e. rewrite Hr. auto.
Qed.


(** ** The seed table *)

Lemma seed_sorted :
  JS.sortBy Calc.sub Seed.freightCalculations = Seed.freightCalculations.
Proof. vm_compute. reflexivity. Qed.

(** What each row of the seed table tests. *)
Lemma seed_tests (d : Q) :
  map (Service.rowReturns d) Seed.freightCalculations
  = [ JS.ltb d 1;
      JS.geb d 1 && JS.ltb d 2;
      JS.geb d 2 && JS.ltb d 4;
      JS.geb d 4 && JS.ltb d 6;
      JS.geb d 6 && JS.ltb d 8;
      JS.geb d 8 && JS.ltb d 10;
      JS.geb d 10 && JS.ltb d 12;
      JS.geb d 12 && JS.ltb d 15;
      JS.geb d 15 && JS.ltb d (225 # 10);
      JS.geb d (225 # 10) && JS.ltb d 30;
      JS.geb d 30 && JS.ltb d 35;
      JS.geb d 35 && JS.ltb d 50;
      JS.geb d 50 ]%bool.
Proof.
  unfold Seed.freightCalculations. cbn [map].
  rewrite !rowReturns_inRange by seed_label.
  unfold inRange. cbn [Calc.densityRange].
  repeat match goal with
  | |- context [labelInterval ?l] =>
      let v := eval vm_compute in (labelInterval l) in
      replace (labelInterval l) with v by (vm_compute; reflexivity)
  end.
  reflexivity.
Qed.

Lemma cons_eq_inv {A} (x y : A) (l l' : list A) :
  x :: l = y :: l' -> x = y /\ l = l'.
Proof. intros H. inversion H. now split. Qed.

Lemma geb_lt x y : JS.geb x y = false <-> x < y.
Proof.
  unfold JS.geb. split; intros H.
  - apply Qnot_le_lt. intros L. apply Qle_bool_iff in L. congruence.
  - destruct (Qle_bool y x) eqn:E; [|reflexivity].
    apply Qle_bool_iff in E. exfalso. now apply (Qlt_not_le _ _ H).
Qed.

Ltac split_comparisons :=
  repeat match goal with
  | |- context [JS.ltb ?x ?k] =>
      let E := fresh "E" in
      destruct (JS.ltb x k) eqn:E;
      [apply ltb_lt in E | apply ltb_ge in E];
      cbn [andb]; try (exfalso; lra)
  | |- context [JS.geb ?x ?k] =>
      let E := fresh "E" in
      destruct (JS.geb x k) eqn:E;
      [apply geb_ge in E | apply geb_lt in E];
      cbn [andb]; try (exfalso; lra)
  end.

Lemma seed_firstReturn (d : Q) :
  Service.firstReturn d Seed.freightCalculations
  = Some (if JS.ltb d 1 then 400 else if JS.ltb d 2 then 300
          else if JS.ltb d 4 then 250 else if JS.ltb d 6 then 175
          else if JS.ltb d 8 then 125 else if JS.ltb d 10 then 100
          else if JS.ltb d 12 then 925 # 10 else if JS.ltb d 15 then 85
          else if JS.ltb d (225 # 10) then 70 else if JS.ltb d 30 then 65
          else if JS.ltb d 35 then 60 else if JS.ltb d 50 then 55 else 50).
Proof.
  pose proof (seed_tests d) as T.
  unfold Seed.freightCalculations in *. cbn [map] in T.
  cbn [Service.firstReturn Calc.assignedFreightClass].
  apply cons_eq_inv in T; destruct T as [T1 T]; apply cons_eq_inv in T; destruct T as [T2 T]; apply cons_eq_inv in T; destruct T as [T3 T]; apply cons_eq_inv in T; destruct T as [T4 T]; apply cons_eq_inv in T; destruct T as [T5 T]; apply cons_eq_inv in T; destruct T as [T6 T]; apply cons_eq_inv in T; destruct T as [T7 T]; apply cons_eq_inv in T; destruct T as [T8 T]; apply cons_eq_inv in T; destruct T as [T9 T]; apply cons_eq_inv in T; destruct T as [T10 T]; apply cons_eq_inv in T; destruct T as [T11 T]; apply cons_eq_inv in T; destruct T as [T12 T]; apply cons_eq_inv in T; destruct T as [T13 _].
  rewrite T1, T2, T3, T4, T5, T6, T7, T8, T9, T10, T11, T12, T13.
  clear T1 T2 T3 T4 T5 T6 T7 T8 T9 T10 T11 T12 T13.
  split_comparisons; reflexivity.
Qed.

Lemma firstReturn_row (d : Q) (sorted : list Calc.t) (c : Q) :
  Service.firstReturn d sorted = Some c ->
  exists calc, In calc sorted /\ Service.rowReturns d calc = true
               /\ c = Calc.assignedFreightClass calc.
Proof.
  induction sorted as [|calc rest IH]; [discriminate|].
  cbn [Service.firstReturn].
  destruct (Service.rowReturns d calc) eqn:E.
  - intros [= <-]. exists calc. split; [now left|now split].
  - intros H. destruct (IH H) as [calc' [Hin Hc]]. exists calc'.
    split; [now right|exact Hc].
Qed.

Ltac to_bounds :=
  repeat match goal with
  | H : (_ && _)%bool = true |- _ =>
      apply andb_true_iff in H; destruct H
  | H : JS.geb _ _ = true |- _ => apply geb_ge in H
  | H : JS.ltb _ _ = true |- _ => apply ltb_lt in H
  end.

Lemma seed_one_row (d : Q) (calc calc' : Calc.t) :
  In calc Seed.freightCalculations -> In calc' Seed.freightCalculations ->
  Service.rowReturns d calc = true -> Service.rowReturns d calc' = true ->
  calc = calc'.
Proof.
  pose proof (seed_tests d) as T.
  unfold Seed.freightCalculations in *. cbn [map] in T.
  apply cons_eq_inv in T; destruct T as [T1 T]; apply cons_eq_inv in T; destruct T as [T2 T]; apply cons_eq_inv in T; destruct T as [T3 T]; apply cons_eq_inv in T; destruct T as [T4 T]; apply cons_eq_inv in T; destruct T as [T5 T]; apply cons_eq_inv in T; destruct T as [T6 T]; apply cons_eq_inv in T; destruct T as [T7 T]; apply cons_eq_inv in T; destruct T as [T8 T]; apply cons_eq_inv in T; destruct T as [T9 T]; apply cons_eq_inv in T; destruct T as [T10 T]; apply cons_eq_inv in T; destruct T as [T11 T]; apply cons_eq_inv in T; destruct T as [T12 T]; apply cons_eq_inv in T; destruct T as [T13 _].
  intros Hin Hin' H H'. cbn [In] in Hin, Hin'.
  repeat match goal with
  | K : _ \/ _ |- _ => destruct K as [<-|K]
  | K : False |- _ => destruct K
  end;
  rewrite ?T1, ?T2, ?T3, ?T4, ?T5, ?T6, ?T7, ?T8, ?T9, ?T10, ?T11, ?T12, ?T13
    in H;
  rewrite ?T1, ?T2, ?T3, ?T4, ?T5, ?T6, ?T7, ?T8, ?T9, ?T10, ?T11, ?T12, ?T13
    in H';
  clear T1 T2 T3 T4 T5 T6 T7 T8 T9 T10 T11 T12 T13;
  to_bounds; first [reflexivity | exfalso; lra].
Qed.

(** X7: with the classification table that the seed script creates, every
    density, negative ones and zero too, lies in the interval of exactly
    one row and gets its class, so the fallback on the last row is never
    taken; and a denser box never gets a higher class. *)
Theorem X7_seed_table_classifies_every_density (strapi : Strapi) (d : Q) :
  freightCalculations strapi = Seed.freightCalculations ->
  (exists calc,
     In calc Seed.freightCalculations
     /\ Service.rowReturns d calc = true
     /\ Service.findFreightClassByDensity strapi d
        = Some (Calc.assignedFreightClass calc)
     /\ Refactored.findFreightClassByDensity strapi d
        = Some (Calc.assignedFreightClass calc)
     /\ forall calc', In calc' Seed.freightCalculations ->
          Service.rowReturns d calc' = true -> calc' = calc)
  /\ forall d' c c', d <= d' ->
       Service.findFreightClassByDensity strapi d = Some c ->
       Service.findFreightClassByDensity strapi d' = Some c' ->
       c' <= c.
Proof.
  intros Htable.
  assert (Hclass : forall x,
            Service.findFreightClassByDensity strapi x
            = Service.firstReturn x Seed.freightCalculations).
  { intros x. unfold Service.findFreightClassByDensity. cbv zeta.
    rewrite Htable, seed_sorted, seed_firstReturn. reflexivity. }
  split.
  - destruct (Service.firstReturn d Seed.freightCalculations) as [c|] eqn:E;
      [|rewrite seed_firstReturn in E; discriminate].
    destruct (firstReturn_row _ _ _ E) as [calc [Hin [Hr ->]]].
    exists calc. split; [exact Hin|]. split; [exact Hr|].
    rewrite findFreightClassByDensity_same, Hclass, E.
    split; [reflexivity|]. split; [reflexivity|].
    intros calc' Hin' Hr'. now apply (seed_one_row d).
  - intros d' c c' Hle. rewrite !Hclass, !seed_firstReturn.
    intros [= <-] [= <-].
    split_comparisons; apply Qle_bool_iff; reflexivity.
Qed.

Lemma X7_witness_ladder_store :
  exists calc,
    In calc Seed.freightCalculations
    /\ Service.findFreightClassByDensity ladderStore 11
       = Some (Calc.assignedFreightClass calc)
    /\ Calc.assignedFreightClass calc = 925 # 10.
Proof.
  destruct (X7_seed_table_classifies_every_density ladderStore 11 eq_refl)
    as [[calc [Hin [_ [Hc _]]]] _].
  exists calc. split; [exact Hin|]. split; [exact Hc|].
  assert (E : Service.findFreightClassByDensity ladderStore 11 = Some (925 # 10))
    by (vm_compute; reflexivity).
  rewrite E in Hc. now injection Hc as <-.
Defined.

(** ** Boxes that pass the controller's check *)

Lemma firstIncomplete_none (boxes : list Box.t) :
  forall i, firstIncomplete i boxes = None ->
  Forall (fun b => boxIncomplete b = false) boxes.
Proof.
  induction boxes as [|b rest IH]; intros i H; [constructor|].
  cbn [firstIncomplete] in H.
  destruct (boxIncomplete b) eqn:E; [discriminate|].
  constructor; [exact E|now apply (IH (S i))].
Qed.

Lemma resolvePrice_errors (strapi : Strapi) (c distanceKm : Q) (band : string)
  (weight : Q) (e : error) :
  Refactored.resolvePrice strapi c distanceKm band weight = Throw e ->
  e = NoPricingData
  \/ exists nearest, e = NoPricingFound c nearest distanceKm band weight.
Proof.
  unfold Refactored.resolvePrice. cbv zeta.
  assert (Hnear :
    match JS.sortBy (fun c0 => c0)
            (distinct [] (map Pricing.freightClass (freightClassPricings strapi)))
    with
    | [] => Throw NoPricingData
    | first :: _ =>
        match Refactored.findPriceAndRateByClassAndDistance strapi
                (fold_left
                   (fun nearest current =>
                      if JS.ltb (JS.Math_abs (current - c))
                                (JS.Math_abs (nearest - c))
                      then current else nearest)
                   (JS.sortBy (fun c0 => c0)
                      (distinct [] (map Pricing.freightClass
                                      (freightClassPricings strapi))))
                   first) band weight with
        | None =>
            Throw (NoPricingFound c
                     (fold_left
                        (fun nearest current =>
                           if JS.ltb (JS.Math_abs (current - c))
                                     (JS.Math_abs (nearest - c))
                           then current else nearest)
                        (JS.sortBy (fun c0 => c0)
                           (distinct [] (map Pricing.freightClass
                                           (freightClassPricings strapi))))
                        first) distanceKm band weight)
        | Some r =>
            Ok (r,
                fold_left
                  (fun nearest current =>
                     if JS.ltb (JS.Math_abs (current - c))
                               (JS.Math_abs (nearest - c))
                     then current else nearest)
                  (JS.sortBy (fun c0 => c0)
                     (distinct [] (map Pricing.freightClass
                                     (freightClassPricings strapi))))
                  first)
        end
    end = Throw e ->
    e = NoPricingData
    \/ exists nearest, e = NoPricingFound c nearest distanceKm band weight).
  { destruct (JS.sortBy (fun c0 => c0)
               (distinct [] (map Pricing.freightClass (freightClassPricings strapi))))
      as [|first rest].
    - intros [= <-]. now left.
    - destruct (Refactored.findPriceAndRateByClassAndDistance strapi _ band weight);
        [discriminate|].
      intros [= <-]. right. eexists. reflexivity. }
  destruct (Refactored.findPriceAndRateByClassAndDistance strapi c band weight).
  - discriminate.
  - destruct (JS.fractional c); [|exact Hnear].
    destruct (Refactored.findPriceAndRateByClassAndDistance strapi
                (JS.Math_round c) band weight); [discriminate|exact Hnear].
Qed.

Lemma checked_box_errors (strapi : Strapi) (distanceKm : Q) (band : string)
  (box : Box.t) (e : error) :
  boxIncomplete box = false ->
  Refactored.quoteBox strapi distanceKm band box = Throw e ->
  match e with
  | NoFreightClass _ | NoPricingData | NoPricingFound _ _ _ _ _ => True
  | _ => False
  end.
Proof.
  intros Hbox. apply boxIncomplete_false in Hbox.
  destruct Hbox as [l [w [h [wt [-> [Hl [Hw [Hh Hwt]]]]]]]].
  apply truthy_true in Hl, Hw, Hh, Hwt.
  unfold Refactored.quoteBox. cbn [Box.length Box.width Box.height Box.weight].
  rewrite Hl, Hw, Hh, Hwt. cbn [andb negb]. cbv zeta.
  destruct (Refactored.findFreightClassByDensity strapi _) as [c|];
    [|intros [= <-]; exact I].
  destruct (JS.truthy c); cbn [negb]; [|intros [= <-]; exact I].
  destruct (Refactored.resolvePrice strapi c distanceKm band wt) as [[r used]|e']
    eqn:Er; cbn [bind]; [discriminate|].
  intros [= <-].
  destruct (resolvePrice_errors _ _ _ _ _ _ Er) as [->|[nearest ->]]; exact I.
Qed.

Lemma boxIncomplete_toImperial (box : Box.t) :
  boxIncomplete (toImperial box) = boxIncomplete box.
Proof.
  unfold boxIncomplete, toImperial, nonzero.
  cbn [Box.length Box.width Box.height Box.weight].
  destruct box as [[l|] [w|] [h|] [wt|]]; cbn [option_map Box.length Box.width
    Box.height Box.weight]; unfold Service.mmToInches, Service.gramsToPounds;
    rewrite ?truthy_scale by reflexivity; reflexivity.
Qed.

Lemma complete_boxes_loop (strapi : Strapi) (boxes : list Box.t)
  (distanceKm : Q) (band : string) (acc : list BoxQuote) (s : Q) (e : error) :
  Forall (fun b => boxIncomplete b = false) boxes ->
  (Service.forBoxes strapi distanceKm band boxes acc s = Throw e ->
   match e with
   | NoFreightClass _ | NoPricingData | NoPricingFound _ _ _ _ _ => True
   | _ => False
   end)
  /\ (Refactored.forBoxes strapi distanceKm band boxes acc s = Throw e ->
      match e with
      | NoFreightClass _ | NoPricingData | NoPricingFound _ _ _ _ _ => True
      | _ => False
      end).
Proof.
  intros Hchecked. rewrite Forall_forall in Hchecked. split; intros E.
  - destruct (Service_forBoxes_cases strapi distanceKm band boxes acc s)
      as [[lines [_ Hr]]|[pre [box [post [e' [Hb [_ [Hbox Hr]]]]]]]];
      rewrite Hr in E; [discriminate|]. injection E as ->.
    rewrite quoteBox_toImperial in Hbox.
    apply (checked_box_errors strapi distanceKm band (toImperial box) e);
      [|exact Hbox].
    rewrite boxIncomplete_toImperial. apply Hchecked. rewrite Hb. apply in_elt.
  - destruct (Refactored_forBoxes_cases strapi distanceKm band boxes acc s)
      as [[lines [_ Hr]]|[pre [box [post [e' [Hb [_ [Hbox Hr]]]]]]]];
      rewrite Hr in E; [discriminate|]. injection E as ->.
    apply (checked_box_errors strapi distanceKm band box e); [|exact Hbox].
    apply Hchecked. rewrite Hb. apply in_elt.
Qed.



(** ** Cart lines *)

Lemma toFixed_comp (k : nat) (x y : Q) : x == y -> JS.toFixed k x = JS.toFixed k y.
Proof.
  intros E. unfold JS.toFixed. cbv zeta.
  assert (Ef : Qfloor (Qabs x * inject_Z (10 ^ Z.of_nat k) + (1 # 2))
               = Qfloor (Qabs y * inject_Z (10 ^ Z.of_nat k) + (1 # 2))).
  { apply Qfloor_comp. now rewrite E. }
  assert (El : Qle_bool 0 x = Qle_bool 0 y).
  { destruct (Qle_bool 0 x) eqn:Ex, (Qle_bool 0 y) eqn:Ey; try reflexivity.
    - apply Qle_bool_iff in Ex. rewrite E in Ex. apply Qle_bool_iff in Ex. congruence.
    - apply Qle_bool_iff in Ey. rewrite <- E in Ey. apply Qle_bool_iff in Ey.
      congruence. }
  now rewrite Ef, El.
Qed.

Lemma iterations_negative (q : Q) : q < 0 -> iterations q = 0%nat.
Proof.
  intros H. unfold iterations.
  assert (Hc : (Qceiling q <= 0)%Z).
  { change 0%Z with (Qceiling 0). apply Qceiling_resp_le. now apply Qlt_le_weak. }
  destruct (Qceiling q); try reflexivity. lia.
Qed.

Lemma firstTruthy_plain (x : option Q) :
  JS.truthy (firstTruthy [x; None; None]) = nonzero x
  /\ (nonzero x = true -> x = Some (firstTruthy [x; None; None])).
Proof.
  cbn [firstTruthy]. destruct x as [q|]; cbn [nonzero].
  - destruct (JS.truthy q) eqn:E.
    + split; [exact E|reflexivity].
    + split; [reflexivity|discriminate].
  - split; [reflexivity|discriminate].
Qed.

(** X9: in [calculateShipping], the conversion of cart lines that carry
    their own measurements (no variant, no product) is the same in both
    copies of the service: the same boxes, or the same refusal. *)
Theorem X9_plain_items_convert_alike (items : list Item.t) (boxes : list Box.t) :
  Forall (fun item => Item.variant item = None /\ Item.product item = None) items ->
  Service.itemsToBoxes items boxes = Refactored.convertItemsToBoxes items boxes.
Proof.
  intros Hplain. revert boxes.
  induction Hplain as [|item rest [Hv Hp] _ IH]; intros boxes; [reflexivity|].
  cbn [Service.itemsToBoxes Refactored.convertItemsToBoxes]. cbv zeta.
  rewrite Hv, Hp.
  destruct (firstTruthy_plain (Box.length (Item.own item))) as [-> Hl].
  destruct (firstTruthy_plain (Box.width (Item.own item))) as [-> Hw].
  destruct (firstTruthy_plain (Box.height (Item.own item))) as [-> Hh].
  destruct (firstTruthy_plain (Box.weight (Item.own item))) as [-> Hwt].
  destruct (nonzero (Box.length (Item.own item))); [|reflexivity].
  destruct (nonzero (Box.width (Item.own item))); [|reflexivity].
  destruct (nonzero (Box.height (Item.own item))); [|reflexivity].
  destruct (nonzero (Box.weight (Item.own item))); [|reflexivity].
  cbn [andb negb].
  rewrite <- (Hl eq_refl), <- (Hw eq_refl), <- (Hh eq_refl), <- (Hwt eq_refl).
  rewrite IH. destruct (Item.own item). reflexivity.
Qed.

Lemma X9_witness_one_line :
  Service.itemsToBoxes [Item.mk (Some 2) pallet None None] []
  = Refactored.convertItemsToBoxes [Item.mk (Some 2) pallet None None] [].
Proof.
  apply (X9_plain_items_convert_alike [Item.mk (Some 2) pallet None None] []).
  apply Forall_cons; [split; reflexivity|apply Forall_nil].
Defined.

Lemma made_boxes_complete (items : list Item.t) :
  forall boxes made,
  Service.itemsToBoxes items boxes = Ok made ->
  exists added,
    made = (boxes ++ added)%list
    /\ Forall (fun b => boxIncomplete b = false) added.
Proof.
  induction items as [|item rest IH]; intros boxes made.
  - cbn [Service.itemsToBoxes]. intros [= <-]. exists [].
    split; [now rewrite app_nil_r|constructor].
  - cbn [Service.itemsToBoxes]. cbv zeta.
    match goal with
    | |- (if negb ?a then _ else _) = _ -> _ => destruct a eqn:Ec
    end; [|discriminate].
    cbn [negb]. intros H.
    destruct (IH _ _ H) as [added [-> Hall]].
    eexists. split; [now rewrite <- app_assoc|].
    apply Forall_app. split; [|exact Hall].
    apply Forall_forall. intros b Hb. apply repeat_spec in Hb. subst b.
    unfold boxIncomplete, nonzero.
    cbn [Box.length Box.width Box.height Box.weight]. now rewrite Ec.
Qed.

Lemma nonzero_cases (x : option Q) :
  (nonzero x = true /\ exists v, counts x v) \/ (nonzero x = false /\ blank x).
Proof.
  destruct x as [q|]; cbn [nonzero].
  - destruct (JS.truthy q) eqn:E.
    + left. split; [reflexivity|]. exists q. split; [reflexivity|].
      now apply truthy_true.
    + right. split; [reflexivity|]. right. exists q. split; [reflexivity|].
      now apply truthy_false.
  - right. split; [reflexivity|]. now left.
Qed.

Lemma counts_value (x : option Q) (v : Q) :
  counts x v -> match x with Some q => q | None => 0 end = v.
Proof. intros [-> _]. reflexivity. Qed.

(** The measurement the conversion takes is the line's, when it is not
    zero. *)
Lemma measure_of_line (f : Box.t -> option Q) (item : Item.t) :
  let taken :=
    firstTruthy [f (Item.own item);
                 match Item.variant item with Some v => f v | None => None end;
                 match Item.product item with Some v => f v | None => None end] in
  JS.truthy taken = true -> lineMeasure f item taken.
Proof.
  cbn [firstTruthy]. unfold lineMeasure.
  destruct (nonzero_cases (f (Item.own item))) as [[-> [v Hv]]|[-> Hown]].
  { intros _. left. now rewrite (counts_value _ _ Hv). }
  destruct (Item.variant item) as [bv|]; cbn [blankIn].
  - destruct (nonzero_cases (f bv)) as [[-> [v Hv]]|[-> Hvar]].
    { intros _. right. left. split; [exact Hown|]. exists bv.
      now rewrite (counts_value _ _ Hv). }
    destruct (Item.product item) as [bp|].
    + destruct (nonzero_cases (f bp)) as [[-> [v Hv]]|[-> Hpro]].
      * intros _. right. right. split; [exact Hown|]. split; [exact Hvar|].
        exists bp. now rewrite (counts_value _ _ Hv).
      * discriminate.
    + discriminate.
  - cbn [nonzero]. destruct (Item.product item) as [bp|].
    + destruct (nonzero_cases (f bp)) as [[-> [v Hv]]|[-> Hpro]].
      * intros _. right. right. split; [exact Hown|]. split; [exact I|].
        exists bp. now rewrite (counts_value _ _ Hv).
      * discriminate.
    + discriminate.
Qed.

(** The loop over the quantity runs as often as the line counts. *)
Lemma count_of_line (item : Item.t) :
  lineCount item (iterations (quantityOf item)).
Proof.
  unfold lineCount, quantityOf.
  destruct (Item.quantity item) as [q|]; cbn [nonzero]; [|reflexivity].
  destruct (JS.truthy q) eqn:Et.
  - apply truthy_true in Et.
    destruct (Qlt_le_dec q 0) as [Hneg|Hpos].
    + right. left. split; [exact Hneg|]. now apply iterations_negative.
    + right. right.
      assert (Hq : 0 < q).
      { apply Qle_lt_or_eq in Hpos. destruct Hpos as [H|H]; [exact H|].
        exfalso. apply Et. now symmetry. }
      split; [exact Hq|]. unfold iterations.
      assert (Hc : (0 <= Qceiling q)%Z).
      { rewrite Zle_Qle. apply Qle_trans with q; [exact Hpos|].
        apply Qle_ceiling. }
      rewrite Z2Nat.id by exact Hc. split; [|apply Qle_ceiling].
      assert (H := Qceiling_lt q). unfold Z.sub in H.
      rewrite inject_Z_plus in H. exact H.
  - left. split; [now apply truthy_false|reflexivity].
Qed.

(** X10: when the conversion of the cart lines succeeds, the boxes made
    are the boxes there were, followed line by line, in the order of the
    lines, by the boxes of each line: as many copies as the line counts
    (its quantity rounded up; one when the quantity is missing or zero,
    none when it is negative) of the box of the line's measurements,
    each measurement being the line's own when that is present and not
    zero, else its variant's, else its product's; and every box made of
    a line passes the box check. *)
Theorem X10_boxes_of_cart_lines (items : list Item.t) (boxes made : list Box.t) :
  Service.itemsToBoxes items boxes = Ok made ->
  exists groups,
    made = (boxes ++ List.concat groups)%list
    /\ Forall2 lineBoxes items groups
    /\ Forall (fun b => boxIncomplete b = false) (List.concat groups).
Proof.
  revert boxes. induction items as [|item rest IH]; intros boxes.
  - cbn [Service.itemsToBoxes]. intros [= <-]. exists [].
    split; [now rewrite app_nil_r|].
    split; constructor.
  - cbn [Service.itemsToBoxes]. cbv zeta.
    assert (Ml := measure_of_line Box.length item).
    assert (Mw := measure_of_line Box.width item).
    assert (Mh := measure_of_line Box.height item).
    assert (Mwt := measure_of_line Box.weight item).
    cbv zeta in Ml, Mw, Mh, Mwt.
    match goal with
    | |- context [(JS.truthy ?a && JS.truthy ?b && JS.truthy ?c && JS.truthy ?d)%bool] =>
        set (len := a) in *; set (wid := b) in *;
        set (hei := c) in *; set (wei := d) in *
    end.
    destruct (JS.truthy len) eqn:El; [|discriminate].
    destruct (JS.truthy wid) eqn:Ew; [|discriminate].
    destruct (JS.truthy hei) eqn:Eh; [|discriminate].
    destruct (JS.truthy wei) eqn:Ewt; [|discriminate].
    cbn [andb negb]. intros H.
    destruct (IH _ H) as [groups [-> [Hlines Hall]]].
    exists (repeat (Box.mk (Some len) (Some wid) (Some hei) (Some wei))
                   (iterations (quantityOf item)) :: groups).
    cbn [List.concat].
    split; [now rewrite app_assoc|]. split.
    + constructor; [|exact Hlines].
      exists len, wid, hei, wei, (iterations (quantityOf item)).
      split; [now apply Ml|]. split; [now apply Mw|].
      split; [now apply Mh|]. split; [now apply Mwt|].
      split; [apply count_of_line|reflexivity].
    + apply Forall_app. split; [|exact Hall].
      apply Forall_forall. intros b Hb. apply repeat_spec in Hb. subst b.
      unfold boxIncomplete, nonzero.
      cbn [Box.length Box.width Box.height Box.weight].
      now rewrite El, Ew, Eh, Ewt.
Qed.

(** A line of two and a half pallets gives three. *)
Lemma X10_witness_two_and_a_half :
  exists groups,
    repeat pallet 3 = ([] ++ List.concat groups)%list
    /\ Forall2 lineBoxes [Item.mk (Some (5 # 2)) pallet None None] groups
    /\ Forall (fun b => boxIncomplete b = false) (List.concat groups).
Proof.
  apply (X10_boxes_of_cart_lines [Item.mk (Some (5 # 2)) pallet None None] []
           (repeat pallet 3)).
  vm_compute. reflexivity.
Defined.

Lemma negative_lines_no_boxes (items : list Item.t) (boxes : list Box.t) :
  Forall (fun item =>
            (exists q, Item.quantity item = Some q /\ q < 0)
            /\ boxIncomplete (Item.own item) = false
            /\ Item.variant item = None /\ Item.product item = None) items ->
  Service.itemsToBoxes items boxes = Ok boxes
  /\ Refactored.convertItemsToBoxes items boxes = Ok boxes.
Proof.
  intros Hall. revert boxes.
  induction Hall as [|item rest [[q [Hq Hneg]] [Hown [Hv Hp]]] _ IH]; intros boxes;
    [split; reflexivity|].
  assert (Eq : quantityOf item = q).
  { unfold quantityOf. rewrite Hq. cbn [nonzero].
    assert (Ht : JS.truthy q = true).
    { apply truthy_true. intros E. rewrite E in Hneg. discriminate. }
    now rewrite Ht. }
  cbn [Service.itemsToBoxes Refactored.convertItemsToBoxes]. cbv zeta.
  rewrite Hv, Hp, Eq, (iterations_negative q Hneg). cbn [repeat].
  rewrite !app_nil_r.
  destruct (firstTruthy_plain (Box.length (Item.own item))) as [-> _].
  destruct (firstTruthy_plain (Box.width (Item.own item))) as [-> _].
  destruct (firstTruthy_plain (Box.height (Item.own item))) as [-> _].
  destruct (firstTruthy_plain (Box.weight (Item.own item))) as [-> _].
  unfold boxIncomplete in Hown. rewrite Hown. apply IH.
Qed.

(** X11: a cart without boxes whose lines all have a negative quantity
    gives no box at all.  For it [calculateShipping] of
    services/fulfillment.ts returns a quote without boxes whose subtotal
    and total are 0, where the refactored copy throws that items or boxes
    are required. *)
Theorem X11_negative_quantities_quote_nothing (strapi : Strapi)
  (calculateDistance : string -> string -> option Q) (cart : Cart.t)
  (address : Address.t) (item : Item.t) (more : list Item.t)
  (origin origin' : option string) (km km' : Q) :
  Cart.shipping_address cart = Some address ->
  present (Address.postal_code address) = true ->
  noEntries (Cart.boxes cart) = true ->
  Cart.items cart = Some (item :: more) ->
  Forall (fun item =>
            (exists q, Item.quantity item = Some q /\ q < 0)
            /\ boxIncomplete (Item.own item) = false
            /\ Item.variant item = None /\ Item.product item = None)
         (item :: more) ->
  Service.getOriginPostalCode strapi calculateDistance (Cart.sales_channel_id cart)
    (Address.postal_code address) (Cart.warehouse_id cart) = Ok origin ->
  calculateDistance (text origin ++ " CA") (text (Address.postal_code address) ++ " CA")
  = Some km ->
  Refactored.getOriginPostalCode strapi calculateDistance
    (Cart.sales_channel_id cart) (Address.postal_code address)
    (Cart.warehouse_id cart) = Ok origin' ->
  calculateDistance (text origin' ++ " CA")
    (text (Address.postal_code address) ++ " CA") = Some km' ->
  (exists q,
     Service.calculateShipping strapi calculateDistance cart = Ok q
     /\ q_boxes q = [] /\ q_subtotal q == 0 /\ q_total q == 0)
  /\ Refactored.calculateShipping strapi calculateDistance cart
     = Throw ItemsOrBoxesRequired.
Proof.
  intros Haddr Hdest Hboxes Hitems Hall Horigin Hkm Horigin' Hkm'.
  destruct (negative_lines_no_boxes (item :: more) [] Hall) as [Hs Hr].
  split.
  - unfold Service.calculateShipping.
    rewrite Haddr, Hdest. cbn [negb]. rewrite Horigin. cbn [bind].
    rewrite Hkm. cbv zeta.
    assert (Hq : exists q,
              Service.calculateShippingForBoxes strapi [] km
                (Service.mapDistanceToRange km) origin
                (text (Address.postal_code address))
                (if present (Address.country_code address)
                 then text (Address.country_code address) else "CA") = Ok q
              /\ q_boxes q = [] /\ q_subtotal q == 0 /\ q_total q == 0).
    { unfold Service.calculateShippingForBoxes. cbv zeta.
      cbn [Service.forBoxes bind]. eexists. split; [reflexivity|].
      cbn [q_boxes q_subtotal q_total]. split; [reflexivity|].
      split; [vm_compute; reflexivity|].
      rewrite (toFixed_comp 3 _ 0) by ring. vm_compute. reflexivity. }
    destruct (Cart.boxes cart) as [[|b bs]|]; try discriminate;
      rewrite Hitems, Hs; cbn [bind]; exact Hq.
  - unfold Refactored.calculateShipping.
    rewrite Haddr, Hdest. cbn [negb]. rewrite Horigin'. cbn [bind].
    rewrite Hkm'. cbv zeta.
    destruct (Cart.boxes cart) as [[|b bs]|]; try discriminate;
      rewrite Hitems, Hr; reflexivity.
Qed.

Lemma X11_witness_minus_one_pallet :
  (exists q,
     Service.calculateShipping scenarioStore scenarioDistance
       (Cart.mk None None (Some [Item.mk (Some (-1)) pallet None None]) None
                (Some (Address.mk (Some "M5V 2T6") None))) = Ok q
     /\ q_boxes q = [] /\ q_subtotal q == 0 /\ q_total q == 0)
  /\ Refactored.calculateShipping scenarioStore scenarioDistance
       (Cart.mk None None (Some [Item.mk (Some (-1)) pallet None None]) None
                (Some (Address.mk (Some "M5V 2T6") None)))
     = Throw ItemsOrBoxesRequired.
Proof.
  apply (X11_negative_quantities_quote_nothing scenarioStore scenarioDistance
           (Cart.mk None None (Some [Item.mk (Some (-1)) pallet None None]) None
                    (Some (Address.mk (Some "M5V 2T6") None)))
           (Address.mk (Some "M5V 2T6") None)
           (Item.mk (Some (-1)) pallet None None) []
           (Some "B2B 2B2") (Some "B2B 2B2") 30 30).
  - reflexivity.
  - reflexivity.
  - reflexivity.
  - reflexivity.
  - apply Forall_cons; [|apply Forall_nil].
    split; [exists (-1); split; reflexivity|].
    split; [vm_compute; reflexivity|split; reflexivity].
  - vm_compute. reflexivity.
  - vm_compute. reflexivity.
  - vm_compute. reflexivity.
  - vm_compute. reflexivity.
Defined.

(** ** The controller of freight-class-pricing *)

(** X12: [find] and [findOne] of the freight-class-pricing controller
    answer row for row: with the discount on, every row comes back in its
    place with its own price kept as [originalPrice], the percentage given
    and a price that is never negative; otherwise the framework's data
    comes back untouched; and [find] on one row is [findOne]. *)
Theorem X12_listing_keeps_rows (strapi : Strapi) (items : list Pricing.t)
  (row : Pricing.t) :
  (if PricingController.applyDiscount (discountSetting strapi)
   then exists rows,
          PricingController.find strapi (PricingController.Many items)
          = PricingController.DiscountedMany rows
          /\ map PricingController.item rows = items
          /\ Forall (fun r =>
                       PricingController.originalPrice r
                       = Pricing.price (PricingController.item r)
                       /\ PricingController.discountApplied r
                          = PricingController.percentage (discountSetting strapi)
                       /\ 0 <= PricingController.price r) rows
   else PricingController.find strapi (PricingController.Many items)
        = PricingController.Untouched (PricingController.Many items))
  /\ PricingController.find strapi (PricingController.One row)
     = PricingController.findOne strapi (Some row)
  /\ PricingController.find strapi PricingController.NoData
     = PricingController.findOne strapi None.
Proof.
  unfold PricingController.find, PricingController.findOne. cbv zeta.
  destruct (PricingController.applyDiscount (discountSetting strapi)).
  - split; [|split; reflexivity].
    eexists. split; [reflexivity|]. split.
    + rewrite map_map. cbn [PricingController.discount PricingController.item].
      apply map_id.
    + apply Forall_forall. intros r Hr. apply in_map_iff in Hr.
      destruct Hr as [p [<- _]].
      cbn [PricingController.discount PricingController.originalPrice
           PricingController.item PricingController.discountApplied
           PricingController.price].
      split; [reflexivity|]. split; [reflexivity|].
      unfold JS.Math_max.
      destruct (Qle_bool 0 _) eqn:E; [now apply Qle_bool_iff|apply Qle_refl].
  - split; [reflexivity|]. split; reflexivity.
Qed.

(** X13: the discounted price of a row whose price is not negative lies
    between 0 and the price for a percentage from 0 to 100; it is 0 from
    100 on; a negative percentage, which the controller applies as well,
    gives a price not below the original; and a larger percentage never
    gives a larger price.  The row keeps its price as [originalPrice] and
    tells the percentage. *)
Theorem X13_discounted_price_bounds (discountPercentage : Q) (row : Pricing.t) :
  0 <= Pricing.price row ->
  let discounted := PricingController.discount discountPercentage row in
  (0 <= discountPercentage <= 100 ->
   0 <= PricingController.price discounted <= Pricing.price row)
  /\ (100 <= discountPercentage -> PricingController.price discounted == 0)
  /\ (discountPercentage < 0 ->
      Pricing.price row <= PricingController.price discounted)
  /\ (forall larger,
        discountPercentage <= larger ->
        PricingController.price (PricingController.discount larger row)
        <= PricingController.price discounted)
  /\ PricingController.originalPrice discounted = Pricing.price row
  /\ PricingController.discountApplied discounted = discountPercentage.
Proof.
  intros Hprice. cbv zeta.
  cbn [PricingController.discount PricingController.price
       PricingController.originalPrice PricingController.discountApplied].
  set (p := Pricing.price row) in *.
  assert (Hmax : forall x, 0 <= JS.Math_max 0 x /\ x <= JS.Math_max 0 x
                           /\ (JS.Math_max 0 x == 0 \/ JS.Math_max 0 x == x)).
  { intros x. unfold JS.Math_max. destruct (Qle_bool 0 x) eqn:E.
    - apply Qle_bool_iff in E.
      repeat split; first [lra | right; reflexivity].
    - assert (x < 0).
      { apply Qnot_le_lt. intros L. apply Qle_bool_iff in L. congruence. }
      repeat split; first [lra | left; reflexivity]. }
  destruct (Hmax (p * (1 - discountPercentage / 100))) as [H0 [Hle Hor]].
  unfold Qdiv in *. change (/ 100) with (1 # 100) in *.
  split; [|split; [|split; [|split; [|split; reflexivity]]]].
  - intros [Hlow Hhigh]. split; [exact H0|].
    destruct Hor as [E|E]; rewrite E.
    + exact Hprice.
    + nra.
  - intros H100. destruct Hor as [E|E]; [exact E|].
    assert (p * (1 - discountPercentage * (1 # 100)) <= 0) by nra. lra.
  - intros Hneg. apply Qle_trans with (2 := Hle). nra.
  - intros larger Hlarger.
    destruct (Hmax (p * (1 - larger / 100))) as [_ [_ Hor']].
    unfold Qdiv in *. change (/ 100) with (1 # 100) in *.
    destruct Hor' as [E|E]; rewrite E.
    + exact H0.
    + apply Qle_trans with (2 := Hle). nra.
Qed.

(** Ten percent off the price 501 leaves a price between 0 and 501. *)
Lemma X13_witness_ten_percent :
  0 <= PricingController.price (PricingController.discount 10 (tier 500)) <= 501.
Proof.
  destruct (X13_discounted_price_bounds 10 (tier 500)) as [H _].
  - vm_compute. discriminate.
  - apply H. split; vm_compute; discriminate.
Defined.

(** ** The distance of two addresses *)

Lemma distance_km (key : bool) (reply : option Distance.Matrix) (d : Q) :
  Distance.calculateDistance key reply = Distance.Km d
  <-> key = true
      /\ exists matrix first others more,
           reply = Some matrix
           /\ Distance.rows matrix = (first :: others) :: more
           /\ Distance.status first = "OK"
           /\ d = Distance.value first / 1000.
Proof.
  unfold Distance.calculateDistance. split.
  - destruct key; cbn [negb Distance.wrap]; [|discriminate].
    destruct reply as [matrix|]; [|discriminate].
    destruct (Distance.rows matrix) as [|[|first others] more] eqn:Er;
      try discriminate.
    destruct (Distance.status first =? "OK")%string eqn:Es;
      cbn [negb Distance.wrap]; [|discriminate].
    intros [= <-]. split; [reflexivity|].
    exists matrix, first, others, more. apply String.eqb_eq in Es. auto.
  - intros [-> [matrix [first [others [more [-> [Er [Es ->]]]]]]]].
    cbn [negb]. rewrite Er. apply String.eqb_eq in Es. rewrite Es. reflexivity.
Qed.

Lemma distance_km_refactored (key : bool) (reply : option Distance.Matrix) (d : Q) :
  Distance.calculateDistanceRefactored key reply = Distance.Km d
  <-> key = true
      /\ exists matrix first others more,
           reply = Some matrix
           /\ Distance.rows matrix = (first :: others) :: more
           /\ Distance.status first = "OK"
           /\ d = Distance.value first / 1000.
Proof.
  unfold Distance.calculateDistanceRefactored. split.
  - destruct key; cbn [negb Distance.wrap]; [|discriminate].
    destruct reply as [matrix|]; [|discriminate].
    destruct (Distance.rows matrix) as [|[|first others] more] eqn:Er;
      try discriminate.
    destruct (Distance.status first =? "OK")%string eqn:Es;
      cbn [negb Distance.wrap]; [|discriminate].
    intros [= <-]. split; [reflexivity|].
    exists matrix, first, others, more. apply String.eqb_eq in Es. auto.
  - intros [-> [matrix [first [others [more [-> [Er [Es ->]]]]]]]].
    cbn [negb]. rewrite Er. apply String.eqb_eq in Es. rewrite Es. reflexivity.
Qed.

(** X14: both copies of [calculateDistance] return a distance in exactly
    the same case, the key being set and the first element of the first
    row of the reply having the status OK, and it is the element's metres
    by 1000; what services/fulfillment.ts throws is always the wrapped
    failure, where the refactored copy throws the missing key as it is. *)
Theorem X14_distance_of_first_element (key : bool) (reply : option Distance.Matrix) :
  (forall d,
     Distance.calculateDistance key reply = Distance.Km d
     <-> key = true
         /\ exists matrix first others more,
              reply = Some matrix
              /\ Distance.rows matrix = (first :: others) :: more
              /\ Distance.status first = "OK"
              /\ d = Distance.value first / 1000)
  /\ (forall d,
        Distance.calculateDistance key reply = Distance.Km d
        <-> Distance.calculateDistanceRefactored key reply = Distance.Km d)
  /\ (forall e,
        Distance.calculateDistance key reply = Distance.Thrown e ->
        exists cause, e = Distance.Failed cause)
  /\ (key = false ->
      Distance.calculateDistance key reply
      = Distance.Thrown (Distance.Failed Distance.KeyNotSet)
      /\ Distance.calculateDistanceRefactored key reply
         = Distance.Thrown Distance.KeyNotSet).
Proof.
  split; [intros d; apply distance_km|].
  split; [intros d; rewrite distance_km, distance_km_refactored; tauto|].
  split.
  - intros e. unfold Distance.calculateDistance.
    match goal with
    | |- Distance.wrap ?r = _ -> _ => destruct r as [km|cause]
    end; cbn [Distance.wrap]; [discriminate|].
    intros [= <-]. now exists cause.
  - intros ->. split; reflexivity.
Qed.

(** ** The seed script *)

Lemma withSub_app (db1 db2 : list Calc.t) (sub : Q) :
  Seed.withSub (db1 ++ db2) sub = (Seed.withSub db1 sub ++ Seed.withSub db2 sub)%list.
Proof. apply filter_app. Qed.

Lemma seedRows_appends (calculations : list Calc.t) :
  forall db, exists added,
    Seed.seedRows calculations db = (db ++ added)%list
    /\ forall row, In row added ->
         In row calculations /\ Seed.withSub db (Calc.sub row) = [].
Proof.
  induction calculations as [|c rest IH]; intros db.
  - exists []. split; [cbn; now rewrite app_nil_r|intros row []].
  - cbn [Seed.seedRows]. cbv zeta. rewrite length_zero.
    destruct (Seed.withSub db (Calc.sub c)) as [|x xs] eqn:E.
    + destruct (IH (db ++ [c])%list) as [added [-> Hadded]].
      exists (c :: added). split; [now rewrite <- app_assoc|].
      intros row [<-|Hrow]; [split; [now left|exact E]|].
      destruct (Hadded row Hrow) as [Hin Hnone]. split; [now right|].
      rewrite withSub_app in Hnone. now apply app_eq_nil in Hnone.
    + destruct (IH db) as [added [-> Hadded]].
      exists added. split; [reflexivity|].
      intros row Hrow. destruct (Hadded row Hrow). split; [now right|assumption].
Qed.

Lemma seedRows_present (calculations : list Calc.t) (row : Calc.t) :
  forall db, In row calculations ->
  Seed.withSub (Seed.seedRows calculations db) (Calc.sub row) <> [].
Proof.
  induction calculations as [|c rest IH]; intros db Hin; [destruct Hin|].
  cbn [Seed.seedRows]. cbv zeta. rewrite length_zero.
  assert (Hkeep : forall db0,
            Seed.withSub db0 (Calc.sub row) <> [] ->
            Seed.withSub (Seed.seedRows rest db0) (Calc.sub row) <> []).
  { intros db0 H0. destruct (seedRows_appends rest db0) as [added [-> _]].
    rewrite withSub_app. intros E. now apply app_eq_nil in E. }
  destruct Hin as [->|Hin].
  - destruct (Seed.withSub db (Calc.sub row)) as [|x xs] eqn:E.
    + apply Hkeep. rewrite withSub_app. unfold Seed.withSub at 2.
      cbn [filter]. unfold JS.eqb. rewrite (proj2 (Qeq_bool_iff _ _) (Qeq_refl _)).
      intros E'. apply app_eq_nil in E'. destruct E' as [_ E']. discriminate.
    + apply Hkeep. rewrite E. discriminate.
  - destruct (Seed.withSub db (Calc.sub c)); now apply IH.
Qed.

Lemma seedRows_fixed (calculations : list Calc.t) (db : list Calc.t) :
  (forall row, In row calculations -> Seed.withSub db (Calc.sub row) <> []) ->
  Seed.seedRows calculations db = db.
Proof.
  induction calculations as [|c rest IH]; intros H; [reflexivity|].
  cbn [Seed.seedRows]. cbv zeta. rewrite length_zero.
  destruct (Seed.withSub db (Calc.sub c)) eqn:E.
  - exfalso. now apply (H c (or_introl eq_refl)).
  - apply IH. intros row Hrow. apply H. now right.
Qed.

(** X15: the seed script only appends to the classification table: the
    rows it creates are rows of its list whose [sub] the table did not
    have; afterwards every [sub] of its list is in the table; a second
    run changes nothing; and on the empty table it creates its thirteen
    rows in their order. *)
Theorem X15_seeding_appends_missing_rows (db : list Calc.t) :
  (exists added,
     Seed.seedFreightCalculations db = (db ++ added)%list
     /\ forall row, In row added ->
          In row Seed.freightCalculations /\ Seed.withSub db (Calc.sub row) = [])
  /\ (forall row, In row Seed.freightCalculations ->
        Seed.withSub (Seed.seedFreightCalculations db) (Calc.sub row) <> [])
  /\ Seed.seedFreightCalculations (Seed.seedFreightCalculations db)
     = Seed.seedFreightCalculations db
  /\ Seed.seedFreightCalculations [] = Seed.freightCalculations.
Proof.
  unfold Seed.seedFreightCalculations.
  split; [apply seedRows_appends|].
  split; [intros row Hrow; now apply seedRows_present|].
  split; [|vm_compute; reflexivity].
  apply seedRows_fixed. intros row Hrow. now apply seedRows_present.
Qed.

Lemma permission_there (id : Z) (permissions : list Seed.Permission)
  (p : Seed.Permission) :
  In p permissions -> Seed.role p = id ->
  JS.includes (Seed.action p) Seed.uid = true ->
  Seed.setPublicPermissions (Some id) permissions = permissions.
Proof.
  intros Hin Hrole Hact. unfold Seed.setPublicPermissions. cbv zeta.
  rewrite length_zero.
  destruct (filter _ permissions) as [|x xs] eqn:E; [|reflexivity].
  exfalso.
  assert (Hp : In p (filter (fun p0 => ((Seed.role p0 =? id)%Z
                                        && JS.includes (Seed.action p0) Seed.uid)%bool)
                            permissions)).
  { apply filter_In. split; [exact Hin|].
    rewrite Hact, andb_true_r. now apply Z.eqb_eq. }
  rewrite E in Hp. destruct Hp.
Qed.

Lemma permissions_cases (id : Z) (permissions : list Seed.Permission) :
  Seed.setPublicPermissions (Some id) permissions = permissions
  \/ Seed.setPublicPermissions (Some id) permissions
     = (permissions
        ++ [ {| Seed.action := Seed.uid ++ ".find"; Seed.role := id |};
             {| Seed.action := Seed.uid ++ ".findOne"; Seed.role := id |} ])%list.
Proof.
  unfold Seed.setPublicPermissions. cbv zeta. rewrite length_zero.
  destruct (filter _ permissions); [right|left]; reflexivity.
Qed.

(** X16: [setPublicPermissions] only appends, and only the two
    permissions find and findOne of the public role; it adds nothing
    without a public role, nothing when the role has any permission whose
    action contains the content type's uid, were it one of the two only,
    and nothing on a second run. *)
Theorem X16_public_permissions_once (publicRole : option Z)
  (permissions : list Seed.Permission) :
  (Seed.setPublicPermissions publicRole permissions = permissions
   \/ exists id,
        publicRole = Some id
        /\ Seed.setPublicPermissions publicRole permissions
           = (permissions
              ++ [ {| Seed.action := Seed.uid ++ ".find"; Seed.role := id |};
                   {| Seed.action := Seed.uid ++ ".findOne"; Seed.role := id |} ])%list)
  /\ (forall id p,
        publicRole = Some id -> In p permissions -> Seed.role p = id ->
        JS.includes (Seed.action p) Seed.uid = true ->
        Seed.setPublicPermissions publicRole permissions = permissions)
  /\ Seed.setPublicPermissions None permissions = permissions
  /\ Seed.setPublicPermissions publicRole
       (Seed.setPublicPermissions publicRole permissions)
     = Seed.setPublicPermissions publicRole permissions.
Proof.
  split; [|split; [|split; [reflexivity|]]].
  - destruct publicRole as [id|]; [|now left].
    destruct (permissions_cases id permissions) as [H|H]; [now left|].
    right. exists id. now split.
  - intros id p ->. apply permission_there.
  - destruct publicRole as [id|]; [|reflexivity].
    destruct (permissions_cases id permissions) as [H|H]; rewrite H.
    + exact H.
    + apply (permission_there id _
               {| Seed.action := Seed.uid ++ ".find"; Seed.role := id |}).
      * apply in_or_app. right. now left.
      * reflexivity.
      * vm_compute. reflexivity.
Qed.

(** ** The polling of the rate API *)


(** ** The two bandings *)

(** X18: the bandings of the two copies give different bands exactly on
    the negative distances and on the distances from a row's [max] up to
    the next hundred, which the refactored copy gives to the top band;
    everywhere else they agree. *)
Theorem X18_bandings_differ_exactly (d : Q) :
  Service.mapDistanceToRange d <> Refactored.mapDistanceToRange d
  <-> d < 0
      \/ exists min max range,
           In (min, max, range) Refactored.ranges /\ max <= d < max + 1.
Proof.
  unfold Service.mapDistanceToRange, Refactored.mapDistanceToRange,
    Refactored.ranges.
  cbn [Refactored.firstRange].
  split_comparisons.
  all: split;
    [ intros Hne;
      first
        [ exfalso; apply Hne; reflexivity
        | left; lra
        | right;
          first
            [ exists 0, 99, "0-99km"; split; [cbn [In]; tauto|lra]
            | exists 100, 199, "100-199km"; split; [cbn [In]; tauto|lra]
            | exists 200, 299, "200-299km"; split; [cbn [In]; tauto|lra]
            | exists 300, 399, "300-399km"; split; [cbn [In]; tauto|lra]
            | exists 400, 499, "400-499km"; split; [cbn [In]; tauto|lra]
            | exists 500, 599, "500-599km"; split; [cbn [In]; tauto|lra]
            | exists 600, 699, "600-699km"; split; [cbn [In]; tauto|lra]
            | exists 700, 799, "700-799km"; split; [cbn [In]; tauto|lra]
            | exists 800, 899, "800-899km"; split; [cbn [In]; tauto|lra]
            | exists 900, 999, "900-999km"; split; [cbn [In]; tauto|lra] ] ]
    | intros [Hneg|[min [max [range [Hin Hgap]]]]];
      [ first [discriminate | exfalso; lra]
      | cbn [In] in Hin;
        repeat match goal with
        | K : _ \/ _ |- _ => destruct K as [K|K]
        | K : False |- _ => destruct K
        end;
        injection Hin as <- <- <-;
        first [discriminate | exfalso; lra] ] ].
Qed.

(** ** The controllers' checks and the service's *)

Lemma service_origin_errors (strapi : Strapi)
  (calculateDistance : string -> string -> option Q)
  (salesChannelId destinationPostalCode : option string)
  (warehouseId : option WarehouseId) (e : error) :
  Service.getOriginPostalCode strapi calculateDistance salesChannelId
    destinationPostalCode warehouseId = Throw e ->
  exists cause, e = FailedOrigin cause.
Proof.
  unfold Service.getOriginPostalCode. cbv zeta.
  match goal with
  | |- match ?a with Ok _ => _ | Throw _ => _ end = _ -> _ =>
      destruct a as [pc|cause]
  end; [discriminate|].
  intros [= <-]. now exists cause.
Qed.

Lemma refactored_origin_errors (strapi : Strapi)
  (calculateDistance : string -> string -> option Q)
  (salesChannelId destinationPostalCode : option string)
  (warehouseId : option WarehouseId) (e : error) :
  Refactored.getOriginPostalCode strapi calculateDistance salesChannelId
    destinationPostalCode warehouseId = Throw e ->
  e = NoWarehouses.
Proof.
  unfold Refactored.getOriginPostalCode. cbv zeta.
  repeat match goal with
  | |- match ?a with _ => _ end = _ -> _ => destruct a
  | |- (if ?a then _ else _) = _ -> _ => destruct a
  end; try discriminate; now intros [= <-].
Qed.

Lemma itemsToBoxes_errors (items : list Item.t) :
  forall boxes e,
  (Service.itemsToBoxes items boxes = Throw e -> e = ItemMissingFields)
  /\ (Refactored.convertItemsToBoxes items boxes = Throw e -> e = ItemMissingFields).
Proof.
  induction items as [|item rest IH]; intros boxes e;
    [split; discriminate|].
  cbn [Service.itemsToBoxes Refactored.convertItemsToBoxes]. cbv zeta.
  split.
  - match goal with
    | |- (if ?a then _ else _) = _ -> _ => destruct a
    end; [now intros [= <-]|apply IH].
  - match goal with
    | |- (if ?a then _ else _) = _ -> _ => destruct a
    end; [now intros [= <-]|apply IH].
Qed.

Lemma converted_boxes_complete (items : list Item.t) :
  forall boxes made,
  Refactored.convertItemsToBoxes items boxes = Ok made ->
  exists added,
    made = (boxes ++ added)%list
    /\ Forall (fun b => boxIncomplete b = false) added.
Proof.
  induction items as [|item rest IH]; intros boxes made.
  - cbn [Refactored.convertItemsToBoxes]. intros [= <-]. exists [].
    split; [now rewrite app_nil_r|constructor].
  - cbn [Refactored.convertItemsToBoxes]. cbv zeta.
    match goal with
    | |- (if negb ?a then _ else _) = _ -> _ => destruct a eqn:Ec
    end; [|discriminate].
    cbn [negb]. intros H.
    destruct (IH _ _ H) as [added [-> Hall]].
    eexists. split; [now rewrite <- app_assoc|].
    apply Forall_app. split; [|exact Hall].
    apply Forall_forall. intros b Hb. apply repeat_spec in Hb. subst b.
    unfold boxIncomplete. now rewrite Ec.
Qed.

Lemma checked_cart_errors (strapi : Strapi)
  (calculateDistance : string -> string -> option Q) (cart : Cart.t)
  (address : Address.t) (e : error) :
  Cart.shipping_address cart = Some address ->
  present (Address.postal_code address) = true ->
  (noEntries (Cart.items cart) && noEntries (Cart.boxes cart))%bool = false ->
  match Cart.boxes cart with
  | Some boxes => firstIncomplete 0 boxes
  | None => None
  end = None ->
  (Service.calculateShipping strapi calculateDistance cart = Throw e ->
   match e with
   | TypeError | MissingDestination | BoxMissingFields | ItemsOrBoxesRequired => False
   | _ => True
   end)
  /\ (Refactored.calculateShipping strapi calculateDistance cart = Throw e ->
      match e with
      | TypeError | MissingDestination | BoxMissingFields => False
      | _ => True
      end).
Proof.
  intros Haddr Hdest Hentries Hcheck.
  assert (Hpricing : forall boxes km band origin dest country,
            Forall (fun b => boxIncomplete b = false) boxes ->
            (Service.calculateShippingForBoxes strapi boxes km band origin dest country
             = Throw e ->
             match e with
             | NoFreightClass _ | NoPricingData | NoPricingFound _ _ _ _ _ => True
             | _ => False
             end)
            /\ (Refactored.calculateShippingForBoxes strapi boxes km band origin dest
                  country = Throw e ->
                match e with
                | NoFreightClass _ | NoPricingData | NoPricingFound _ _ _ _ _ => True
                | _ => False
                end)).
  { intros boxes km band origin dest country Hall.
    unfold Service.calculateShippingForBoxes, Refactored.calculateShippingForBoxes.
    cbv zeta. split.
    - destruct (Service.forBoxes strapi km band boxes [] 0) as [[rs sub]|e0] eqn:E;
        cbn [bind]; [discriminate|]. intros [= ->].
      now apply (proj1 (complete_boxes_loop strapi boxes km band [] 0 e Hall)).
    - destruct (Refactored.forBoxes strapi km band boxes [] 0) as [[rs sub]|e0] eqn:E;
        cbn [bind]; [discriminate|]. intros [= ->].
      now apply (proj2 (complete_boxes_loop strapi boxes km band [] 0 e Hall)). }
  split.
  - unfold Service.calculateShipping. rewrite Haddr, Hdest. cbn [negb].
    destruct (Service.getOriginPostalCode strapi calculateDistance _ _ _)
      as [origin|e0] eqn:Eo; cbn [bind].
    2:{ intros [= <-].
        destruct (service_origin_errors _ _ _ _ _ _ Eo) as [cause ->]. exact I. }
    destruct (calculateDistance _ _) as [km|]; [|now intros [= <-]].
    cbv zeta.
    destruct (Cart.boxes cart) as [[|b bs]|] eqn:Eb.
    + destruct (Cart.items cart) as [[|item more]|] eqn:Ei; try discriminate.
      destruct (Service.itemsToBoxes (item :: more) []) as [made|e1] eqn:Em;
        cbn [bind].
      * destruct (made_boxes_complete _ _ _ Em) as [added [-> Hall]].
        intros E. cbn [app] in E.
        apply (Hpricing _ _ _ _ _ _ Hall) in E. destruct e; first [exact I | destruct E].
      * intros [= <-].
        rewrite (proj1 (itemsToBoxes_errors _ _ _) Em). exact I.
    + intros E.
      apply (Hpricing _ _ _ _ _ _ (firstIncomplete_none _ 0 Hcheck)) in E.
      destruct e; first [exact I | destruct E].
    + destruct (Cart.items cart) as [[|item more]|] eqn:Ei; try discriminate.
      destruct (Service.itemsToBoxes (item :: more) []) as [made|e1] eqn:Em;
        cbn [bind].
      * destruct (made_boxes_complete _ _ _ Em) as [added [-> Hall]].
        intros E. cbn [app] in E.
        apply (Hpricing _ _ _ _ _ _ Hall) in E. destruct e; first [exact I | destruct E].
      * intros [= <-].
        rewrite (proj1 (itemsToBoxes_errors _ _ _) Em). exact I.
  - unfold Refactored.calculateShipping. rewrite Haddr, Hdest. cbn [negb].
    destruct (Refactored.getOriginPostalCode strapi calculateDistance _ _ _)
      as [origin|e0] eqn:Eo; cbn [bind].
    2:{ intros [= <-]. rewrite (refactored_origin_errors _ _ _ _ _ _ Eo). exact I. }
    destruct (calculateDistance _ _) as [km|]; [|now intros [= <-]].
    cbv zeta.
    assert (Hitems : forall items,
              match
                (boxes <- Refactored.convertItemsToBoxes items [] ;;
                 match boxes with
                 | [] => Throw ItemsOrBoxesRequired
                 | _ :: _ =>
                     Refactored.calculateShippingForBoxes strapi boxes km
                       (Refactored.mapDistanceToRange km) origin
                       (text (Address.postal_code address))
                       (if present (Address.country_code address)
                        then text (Address.country_code address) else "CA")
                 end)
              with
              | Throw e' =>
                  e' = e ->
                  match e with
                  | TypeError | MissingDestination | BoxMissingFields => False
                  | _ => True
                  end
              | Ok _ => True
              end).
    { intros items.
      destruct (Refactored.convertItemsToBoxes items []) as [made|e1] eqn:Em;
        cbn [bind].
      - destruct (converted_boxes_complete _ _ _ Em) as [added [-> Hall]].
        cbn [app]. destruct added as [|b bs]; [now intros <-|].
        destruct (Refactored.calculateShippingForBoxes strapi (b :: bs) km _ _ _ _)
          as [q|e2] eqn:Eq; [exact I|].
        intros ->. apply (Hpricing _ _ _ _ _ _ Hall) in Eq.
        destruct e; first [exact I | destruct Eq].
      - intros <-. rewrite (proj2 (itemsToBoxes_errors _ _ _) Em). exact I. }
    destruct (Cart.boxes cart) as [[|b bs]|] eqn:Eb.
    + intros E. specialize (Hitems
        (match Cart.items cart with Some items => items | None => [] end)).
      rewrite E in Hitems. now apply Hitems.
    + cbn [bind]. intros E.
      apply (Hpricing _ _ _ _ _ _ (firstIncomplete_none _ 0 Hcheck)) in E.
      destruct e; first [exact I | destruct E].
    + intros E. specialize (Hitems
        (match Cart.items cart with Some items => items | None => [] end)).
      rewrite E in Hitems. now apply Hitems.
Qed.

(** X19: what the controller of controllers/fulfillment.ts checks, its
    service does not refuse again: an internal error of that controller
    is never the service's missing destination, missing box measurement
    or missing items and boxes.  An internal error of the refactored
    controller is never the missing destination. *)
Theorem X19_checks_shield_the_service (strapi : Strapi)
  (calculateDistance : string -> string -> option Q) (medusa : Medusa.Session)
  (cart : option Cart.t) (e : error) :
  (Controller.calculateShipping strapi calculateDistance medusa cart
   = InternalError e ->
   e <> MissingDestination /\ e <> BoxMissingFields
   /\ e <> ItemsOrBoxesRequired)
  /\ (RefactoredController.calculateShipping strapi calculateDistance medusa cart
      = InternalError e ->
      e <> MissingDestination).
Proof.
  destruct cart as [cart|]; [|split; discriminate].
  split.
  - unfold Controller.calculateShipping.
    destruct (noEntries (Cart.items cart) && noEntries (Cart.boxes cart))%bool
      eqn:Hentries; [discriminate|].
    destruct (match Cart.boxes cart with
              | Some boxes => firstIncomplete 0 boxes
              | None => None
              end) eqn:Hcheck; [discriminate|].
    destruct (Cart.shipping_address cart) as [address|] eqn:Haddr; [|discriminate].
    destruct (present (Address.postal_code address)) eqn:Hdest;
      cbn [negb]; [|discriminate].
    destruct (Controller.originPostalCode strapi calculateDistance cart)
      as [origin|e0] eqn:Eo.
    + destruct (Controller.medusaAttempt strapi medusa) as [|attempt];
        [discriminate|].
      destruct (Service.calculateShipping strapi calculateDistance cart)
        as [q|e1] eqn:Es.
      * unfold respond. destruct attempt as [[]|]; discriminate.
      * intros [= <-].
        assert (H := proj1 (checked_cart_errors strapi calculateDistance cart
                              address e1 Haddr Hdest Hentries Hcheck) Es).
        repeat split; intros ->; exact H.
    + intros [= <-]. unfold Controller.originPostalCode in Eo.
      repeat match type of Eo with
      | match ?a with _ => _ end = _ => destruct a; try discriminate
      | (if ?a then _ else _) = _ => destruct a; try discriminate
      end.
      all: destruct (service_origin_errors _ _ _ _ _ _ Eo) as [cause ->];
        repeat split; discriminate.
  - unfold RefactoredController.calculateShipping.
    destruct (noEntries (Cart.items cart) && noEntries (Cart.boxes cart))%bool
      eqn:Hentries; [discriminate|].
    destruct (match Cart.boxes cart with
              | Some boxes => firstIncomplete 0 boxes
              | None => None
              end) eqn:Hcheck; [discriminate|].
    cbv zeta.
    destruct (Cart.shipping_address cart) as [address|] eqn:Haddr;
      [|cbn [present negb]; discriminate].
    destruct (present (Address.postal_code address)) eqn:Hdest;
      cbn [negb]; [|discriminate].
    destruct (Refactored.getOriginPostalCode strapi calculateDistance _ _ _)
      as [origin|e0] eqn:Eo.
    + destruct (RefactoredController.medusaAttempt strapi medusa) as [|attempt];
        [discriminate|].
      destruct (Refactored.calculateShipping strapi calculateDistance cart)
        as [q|e1] eqn:Es.
      * unfold respond. destruct attempt as [[]|]; discriminate.
      * intros [= <-].
        assert (H := proj2 (checked_cart_errors strapi calculateDistance cart
                              address e1 Haddr Hdest Hentries Hcheck) Es).
        intros ->; exact H.
    + intros [= <-]. rewrite (refactored_origin_errors _ _ _ _ _ _ Eo).
      discriminate.
Qed.

(** ** The total of a quote *)

Lemma scaled_floor_le (k : nat) (a b : Q) :
  a <= b ->
  inject_Z (Qfloor (a * inject_Z (10 ^ Z.of_nat k) + (1 # 2)))
    / inject_Z (10 ^ Z.of_nat k)
  <= inject_Z (Qfloor (b * inject_Z (10 ^ Z.of_nat k) + (1 # 2)))
     / inject_Z (10 ^ Z.of_nat k).
Proof.
  intros Hab.
  assert (Hs : 0 < inject_Z (10 ^ Z.of_nat k)).
  { change 0 with (inject_Z 0). rewrite <- Zlt_Qlt.
    apply Z.pow_pos_nonneg; lia. }
  unfold Qdiv. apply Qmult_le_compat_r.
  - rewrite <- Zle_Qle. apply Qfloor_resp_le.
    apply Qplus_le_compat; [|apply Qle_refl].
    apply Qmult_le_compat_r; [exact Hab|now apply Qlt_le_weak].
  - apply Qlt_le_weak. now apply Qinv_lt_0_compat.
Qed.

Lemma scaled_floor_nonneg (k : nat) (a : Q) :
  0 <= a ->
  0 <= inject_Z (Qfloor (a * inject_Z (10 ^ Z.of_nat k) + (1 # 2)))
       / inject_Z (10 ^ Z.of_nat k).
Proof.
  intros Ha.
  assert (H0 : inject_Z (Qfloor (0 * inject_Z (10 ^ Z.of_nat k) + (1 # 2)))
               / inject_Z (10 ^ Z.of_nat k) == 0).
  { assert (E : 0 * inject_Z (10 ^ Z.of_nat k) + (1 # 2) == 1 # 2) by ring.
    rewrite (Qfloor_comp _ _ E). change (Qfloor (1 # 2)) with 0%Z.
    unfold Qdiv. ring. }
  rewrite <- H0. now apply scaled_floor_le.
Qed.

Lemma toFixed_le (k : nat) (x y : Q) : x <= y -> JS.toFixed k x <= JS.toFixed k y.
Proof.
  intros Hxy. unfold JS.toFixed. cbv zeta.
  destruct (Qle_bool 0 x) eqn:Ex, (Qle_bool 0 y) eqn:Ey.
  - apply Qle_bool_iff in Ex, Ey.
    rewrite (Qabs_pos x Ex), (Qabs_pos y Ey). now apply scaled_floor_le.
  - apply Qle_bool_iff in Ex. exfalso.
    assert (Hy : 0 <= y) by (eapply Qle_trans; eassumption).
    apply Qle_bool_iff in Hy. congruence.
  - apply Qle_bool_iff in Ey.
    apply Qle_trans with 0.
    + assert (H := scaled_floor_nonneg k (Qabs x) (Qabs_nonneg x)). lra.
    + apply scaled_floor_nonneg, Qabs_nonneg.
  - assert (Hx : x < 0).
    { apply Qnot_le_lt. intros L. apply Qle_bool_iff in L. congruence. }
    assert (Hy : y < 0).
    { apply Qnot_le_lt. intros L. apply Qle_bool_iff in L. congruence. }
    rewrite (Qabs_neg x) by now apply Qlt_le_weak.
    rewrite (Qabs_neg y) by now apply Qlt_le_weak.
    assert (H := scaled_floor_le k (- y) (- x) ltac:(lra)). lra.
Qed.

Lemma toFixed_zero (k : nat) : JS.toFixed k 0 == 0.
Proof.
  unfold JS.toFixed. cbv zeta. change (Qle_bool 0 0) with true. cbv iota.
  assert (E : Qabs 0 * inject_Z (10 ^ Z.of_nat k) + (1 # 2) == 1 # 2)
    by (change (Qabs 0) with 0; ring).
  rewrite (Qfloor_comp _ _ E). change (Qfloor (1 # 2)) with 0%Z.
  unfold Qdiv. ring.
Qed.

Lemma findPrice_nonneg (strapi : Strapi) (c : Q) (band : string) (weight : Q)
  (r : PricingResult) :
  Forall (fun p => 0 <= Pricing.price p) (freightClassPricings strapi) ->
  0 <= weight ->
  Refactored.findPriceAndRateByClassAndDistance strapi c band weight = Some r ->
  0 <= price r.
Proof.
  intros Hprices Hw E. rewrite <- findPrice_same in E.
  destruct (priced_row _ _ _ _ _ E) as [p [Hp ->]].
  apply resolveBySpec_rows in Hp. destruct Hp as [Hin _]. cbn [price].
  rewrite Forall_forall in Hprices. specialize (Hprices p Hin).
  unfold Qdiv. change (/ 100) with (1 # 100).
  assert (0 <= weight * (1 # 100)) by lra. nra.
Qed.

Lemma resolvePrice_nonneg (strapi : Strapi) (c distanceKm : Q) (band : string)
  (weight : Q) (r : PricingResult) (used : Q) :
  Forall (fun p => 0 <= Pricing.price p) (freightClassPricings strapi) ->
  0 <= weight ->
  Refactored.resolvePrice strapi c distanceKm band weight = Ok (r, used) ->
  0 <= price r.
Proof.
  intros Hprices Hw. unfold Refactored.resolvePrice. cbv zeta.
  assert (Hnear :
    match JS.sortBy (fun c0 => c0)
            (distinct [] (map Pricing.freightClass (freightClassPricings strapi)))
    with
    | [] => Throw NoPricingData
    | first :: _ =>
        match Refactored.findPriceAndRateByClassAndDistance strapi
                (fold_left
                   (fun nearest current =>
                      if JS.ltb (JS.Math_abs (current - c))
                                (JS.Math_abs (nearest - c))
                      then current else nearest)
                   (JS.sortBy (fun c0 => c0)
                      (distinct [] (map Pricing.freightClass
                                      (freightClassPricings strapi))))
                   first) band weight with
        | None =>
            Throw (NoPricingFound c
                     (fold_left
                        (fun nearest current =>
                           if JS.ltb (JS.Math_abs (current - c))
                                     (JS.Math_abs (nearest - c))
                           then current else nearest)
                        (JS.sortBy (fun c0 => c0)
                           (distinct [] (map Pricing.freightClass
                                           (freightClassPricings strapi))))
                        first) distanceKm band weight)
        | Some r0 =>
            Ok (r0,
                fold_left
                  (fun nearest current =>
                     if JS.ltb (JS.Math_abs (current - c))
                               (JS.Math_abs (nearest - c))
                     then current else nearest)
                  (JS.sortBy (fun c0 => c0)
                     (distinct [] (map Pricing.freightClass
                                     (freightClassPricings strapi))))
                  first)
        end
    end = Ok (r, used) -> 0 <= price r).
  { destruct (JS.sortBy (fun c0 => c0)
               (distinct [] (map Pricing.freightClass (freightClassPricings strapi))))
      as [|first rest]; [discriminate|].
    destruct (Refactored.findPriceAndRateByClassAndDistance strapi _ band weight)
      as [r0|] eqn:E; [|discriminate].
    intros [= <- _]. now apply (findPrice_nonneg _ _ _ _ _ Hprices Hw E). }
  destruct (Refactored.findPriceAndRateByClassAndDistance strapi c band weight)
    as [r0|] eqn:E1.
  - intros [= <- _]. now apply (findPrice_nonneg _ _ _ _ _ Hprices Hw E1).
  - destruct (JS.fractional c); [|exact Hnear].
    destruct (Refactored.findPriceAndRateByClassAndDistance strapi
                (JS.Math_round c) band weight) as [r0|] eqn:E2; [|exact Hnear].
    intros [= <- _]. now apply (findPrice_nonneg _ _ _ _ _ Hprices Hw E2).
Qed.

Lemma quoteBox_nonneg (strapi : Strapi) (distanceKm : Q) (band : string)
  (box : Box.t) (line : BoxQuote * Q) :
  Forall (fun p => 0 <= Pricing.price p) (freightClassPricings strapi) ->
  match Box.weight box with Some weight => 0 <= weight | None => True end ->
  Refactored.quoteBox strapi distanceKm band box = Ok line ->
  0 <= snd line.
Proof.
  intros Hprices Hw. unfold Refactored.quoteBox.
  destruct (Box.length box) as [l|]; [|discriminate].
  destruct (Box.width box) as [w|]; [|discriminate].
  destruct (Box.height box) as [h|]; [|discriminate].
  destruct (Box.weight box) as [wt|]; [|discriminate].
  destruct (negb _); [discriminate|]. cbv zeta.
  destruct (Refactored.findFreightClassByDensity strapi _) as [c|]; [|discriminate].
  destruct (negb (JS.truthy c)); [discriminate|].
  destruct (Refactored.resolvePrice strapi c distanceKm band wt) as [[r used]|e]
    eqn:Er; cbn [bind]; [|discriminate].
  intros [= <-]. cbn [snd].
  now apply (resolvePrice_nonneg _ _ _ _ _ _ _ Hprices Hw Er).
Qed.

Lemma sum_nonneg (prices : list Q) :
  Forall (fun x => 0 <= x) prices ->
  forall s, 0 <= s -> 0 <= fold_left Qplus prices s.
Proof.
  induction 1 as [|x rest Hx _ IH]; intros s Hs; [exact Hs|].
  cbn [fold_left]. apply IH. lra.
Qed.

Lemma total_bounds (subtotal percent : Q) :
  0 <= subtotal -> 0 <= percent <= 100 ->
  0 <= JS.toFixed 3 (subtotal - subtotal * (percent / 100))
  /\ JS.toFixed 3 (subtotal - subtotal * (percent / 100)) <= JS.toFixed 3 subtotal.
Proof.
  intros Hs [H0 H100].
  assert (Hm : percent / 100 == percent * (1 # 100)) by (unfold Qdiv; reflexivity).
  split.
  - rewrite <- (toFixed_zero 3). apply toFixed_le. rewrite Hm. nra.
  - apply toFixed_le. rewrite Hm. nra.
Qed.

Lemma Refactored_total_bounds (strapi : Strapi) (boxes : list Box.t)
  (distanceKm : Q) (band : string) (origin : option string)
  (dest country : string) (q : Quote) :
  Forall (fun p => 0 <= Pricing.price p) (freightClassPricings strapi) ->
  Forall (fun b => match Box.weight b with
                   | Some weight => 0 <= weight
                   | None => True
                   end) boxes ->
  0 <= discountPercentOf (discountSetting strapi) <= 100 ->
  Refactored.calculateShippingForBoxes strapi boxes distanceKm band origin dest
    country = Ok q ->
  0 <= q_total q <= q_subtotal q.
Proof.
  intros Hprices Hweights Hpercent E.
  destruct (Refactored_quote_total _ _ _ _ _ _ _ _ E)
    as [lines [Hlines [_ Hq]]]. cbv zeta in Hq.
  destruct Hq as [-> [_ ->]].
  apply total_bounds; [|exact Hpercent].
  apply sum_nonneg; [|apply Qle_refl].
  clear E. revert Hweights.
  induction Hlines as [|b line bs ls Hb _ IH]; intros Hweights; [constructor|].
  inversion Hweights as [|? ? Hw Hrest]; subst.
  cbn [map]. constructor; [|now apply IH].
  now apply (quoteBox_nonneg strapi distanceKm band b line).
Qed.

(** X20: with prices and weights that are not negative and a discount
    percentage from 0 to 100, the total of a quote of either copy lies
    between 0 and the subtotal. *)
Theorem X20_total_between_zero_and_subtotal (strapi : Strapi)
  (boxes : list Box.t) (distanceKm : Q) (band : string)
  (origin : option string) (dest country : string) :
  Forall (fun p => 0 <= Pricing.price p) (freightClassPricings strapi) ->
  Forall (fun b => match Box.weight b with
                   | Some weight => 0 <= weight
                   | None => True
                   end) boxes ->
  0 <= discountPercentOf (discountSetting strapi) <= 100 ->
  match Service.calculateShippingForBoxes strapi boxes distanceKm band origin
          dest country with
  | Ok q => 0 <= q_total q <= q_subtotal q
  | Throw _ => True
  end
  /\ match Refactored.calculateShippingForBoxes strapi boxes distanceKm band origin
             dest country with
     | Ok q => 0 <= q_total q <= q_subtotal q
     | Throw _ => True
     end.
Proof.
  intros Hprices Hweights Hpercent. split.
  - destruct (Service.calculateShippingForBoxes strapi boxes distanceKm band origin
                dest country) as [q|e] eqn:E; [|exact I].
    assert (E' : Refactored.calculateShippingForBoxes strapi (map toImperial boxes)
                   distanceKm band origin dest country = Ok q).
    { rewrite <- E. unfold Service.calculateShippingForBoxes,
        Refactored.calculateShippingForBoxes.
      now rewrite forBoxes_toImperial. }
    apply (Refactored_total_bounds _ _ _ _ _ _ _ _ Hprices) in E';
      [exact E'| |exact Hpercent].
    apply Forall_forall. intros b' Hb'. apply in_map_iff in Hb'.
    destruct Hb' as [b [<- Hb]].
    rewrite Forall_forall in Hweights. specialize (Hweights b Hb).
    unfold toImperial. cbn [Box.weight].
    destruct (Box.weight b) as [wt|]; cbn [option_map]; [|exact I].
    unfold Service.gramsToPounds. nra.
  - destruct (Refactored.calculateShippingForBoxes strapi boxes distanceKm band
                origin dest country) as [q|e] eqn:E; [|exact I].
    now apply (Refactored_total_bounds _ _ _ _ _ _ _ _ Hprices Hweights Hpercent E).
Qed.

Lemma X20_witness_pallet_at_ten_percent :
  match Refactored.calculateShippingForBoxes (palletStore 10) [pallet] 250
          "200-299km" None "M5V 2T6" "CA" with
  | Ok q => 0 <= q_total q <= q_subtotal q
  | Throw _ => True
  end.
Proof.
  apply (X20_total_between_zero_and_subtotal (palletStore 10) [pallet] 250
           "200-299km" None "M5V 2T6" "CA").
  - apply Forall_cons; [vm_compute; discriminate|apply Forall_nil].
  - apply Forall_cons; [vm_compute; discriminate|apply Forall_nil].
  - split; vm_compute; discriminate.
Defined.

(** ** The pallets sent to the rate API *)

Lemma pallets_of_plain_lines (weightUnit cuboidUnit : string) (lines : list Item.t) :
  Forall (fun item => Item.variant item = None /\ Item.product item = None) lines ->
  Forall (fun p => RateRequest.measurements p
                   = Box.mk (Some 0) (Some 0) (Some 0) (Some 0))
         (flat_map (RateRequest.ofItem weightUnit cuboidUnit) lines)
  /\ List.length (flat_map (RateRequest.ofItem weightUnit cuboidUnit) lines)
     = list_sum (map (fun item => iterations (quantityOf item)) lines).
Proof.
  induction 1 as [|item rest [Hv Hp] _ [IHall IHlen]];
    [split; [constructor|reflexivity]|].
  cbn [flat_map map list_sum]. split.
  - apply Forall_app. split; [|exact IHall].
    unfold RateRequest.ofItem. cbv zeta. rewrite Hv, Hp.
    apply Forall_forall. intros p Hin. apply repeat_spec in Hin. subst p.
    reflexivity.
  - rewrite length_app, IHlen. unfold RateRequest.ofItem at 1. cbv zeta.
    now rewrite repeat_length.
Qed.

(** X21: for a cart without a boxes array whose lines carry their own
    measurements (no variant, no product), both controllers send the rate
    API one pallet for each unit of each line, and every one of these
    pallets measures 0 by 0 by 0 and weighs 0: the line's own measurements,
    which the services quote from, are never sent. *)
Theorem X21_plain_lines_sent_as_empty_pallets (cart : Cart.t) (lines : list Item.t) :
  Cart.boxes cart = None ->
  Cart.items cart = Some lines ->
  Forall (fun item => Item.variant item = None /\ Item.product item = None) lines ->
  Forall (fun p => RateRequest.measurements p
                   = Box.mk (Some 0) (Some 0) (Some 0) (Some 0))
         (RateRequest.ofController cart)
  /\ Forall (fun p => RateRequest.measurements p
                      = Box.mk (Some 0) (Some 0) (Some 0) (Some 0))
            (RateRequest.ofRefactoredController cart)
  /\ List.length (RateRequest.ofController cart)
     = list_sum (map (fun item => iterations (quantityOf item)) lines)
  /\ List.length (RateRequest.ofRefactoredController cart)
     = list_sum (map (fun item => iterations (quantityOf item)) lines).
Proof.
  intros Hboxes Hitems Hplain.
  unfold RateRequest.ofController, RateRequest.ofRefactoredController,
    RateRequest.items.
  rewrite Hboxes, Hitems.
  destruct (pallets_of_plain_lines "g" "mm" lines Hplain) as [Hall Hlen].
  destruct (pallets_of_plain_lines "lb" "in" lines Hplain) as [Hall' Hlen'].
  auto.
Qed.

Lemma X21_witness_two_pallets :
  Forall (fun p => RateRequest.measurements p
                   = Box.mk (Some 0) (Some 0) (Some 0) (Some 0))
         (RateRequest.ofController
            (Cart.mk None None (Some [Item.mk (Some 2) pallet None None]) None
                     (Some (Address.mk (Some "M5V 2T6") None))))
  /\ List.length
       (RateRequest.ofController
          (Cart.mk None None (Some [Item.mk (Some 2) pallet None None]) None
                   (Some (Address.mk (Some "M5V 2T6") None))))
     = 2%nat
  /\ Service.itemsToBoxes [Item.mk (Some 2) pallet None None] []
     = Ok [pallet; pallet].
Proof.
  destruct (X21_plain_lines_sent_as_empty_pallets
              (Cart.mk None None (Some [Item.mk (Some 2) pallet None None]) None
                       (Some (Address.mk (Some "M5V 2T6") None)))
              [Item.mk (Some 2) pallet None None])
    as [Hall [_ [Hlen _]]].
  - reflexivity.
  - reflexivity.
  - apply Forall_cons; [split; reflexivity|apply Forall_nil].
  - split; [exact Hall|]. split; [|vm_compute; reflexivity].
    rewrite Hlen. vm_compute. reflexivity.
Defined.

Lemma truthy_or_zero (x : option Q) :
  nonzero x = true -> Some (firstTruthy [x]) = x.
Proof.
  destruct x as [q|]; cbn [nonzero firstTruthy]; [|discriminate].
  intros ->. reflexivity.
Qed.

Lemma pallets_of_product_lines (weightUnit cuboidUnit : string)
  (lines : list Item.t) :
  Forall (fun item => Item.product item <> None \/ Item.variant item <> None) lines ->
  forall boxes made,
  Refactored.convertItemsToBoxes lines boxes = Ok made ->
  made = (boxes ++ map RateRequest.measurements
                       (flat_map (RateRequest.ofItem weightUnit cuboidUnit) lines))%list.
Proof.
  induction 1 as [|item rest Hsome _ IH]; intros boxes made.
  - cbn [Refactored.convertItemsToBoxes flat_map map]. intros [= <-].
    now rewrite app_nil_r.
  - cbn [Refactored.convertItemsToBoxes flat_map]. cbv zeta.
    unfold RateRequest.ofItem at 1. cbv zeta.
    assert (Hsame :
      match Item.product item, Item.variant item with
      | Some p, _ => p
      | None, Some v => v
      | None, None => Item.own item
      end
      = match Item.product item, Item.variant item with
        | Some p, _ => p
        | None, Some v => v
        | None, None => Box.mk None None None None
        end).
    { destruct (Item.product item), (Item.variant item); try reflexivity.
      destruct Hsome as [H|H]; now elim H. }
    rewrite Hsame.
    set (product := match Item.product item, Item.variant item with
                    | Some p, _ => p
                    | None, Some v => v
                    | None, None => Box.mk None None None None
                    end).
    destruct (nonzero (Box.length product)) eqn:El; [|discriminate].
    destruct (nonzero (Box.width product)) eqn:Ew; [|discriminate].
    destruct (nonzero (Box.height product)) eqn:Eh; [|discriminate].
    destruct (nonzero (Box.weight product)) eqn:Ewt; [|discriminate].
    cbn [andb negb]. intros E. rewrite (IH _ _ E).
    rewrite map_app, <- app_assoc. f_equal. f_equal.
    rewrite !truthy_or_zero by assumption.
    generalize (iterations (quantityOf item)). intros n.
    induction n as [|n IHn]; [reflexivity|].
    cbn [repeat map RateRequest.measurements]. rewrite <- IHn.
    destruct product. reflexivity.
Qed.

(** X22: with the refactored controller and service, when the cart's
    boxes are not an empty array and the lines used each have a product or
    a variant, the pallets sent to the rate API measure what the boxes
    quoted from the local tables measure, one for one and in their order. *)
Theorem X22_pallets_sent_are_the_boxes_quoted (cart : Cart.t) (made : list Box.t) :
  Cart.boxes cart <> Some [] ->
  (Cart.boxes cart = None ->
   Forall (fun item => Item.product item <> None \/ Item.variant item <> None)
          (match Cart.items cart with Some items => items | None => [] end)) ->
  match Cart.boxes cart with
  | Some (box :: more) => Ok (box :: more)
  | _ =>
      Refactored.convertItemsToBoxes
        (match Cart.items cart with Some items => items | None => [] end) []
  end = Ok made ->
  map RateRequest.measurements (RateRequest.ofRefactoredController cart) = made.
Proof.
  intros Hnot Hlines.
  unfold RateRequest.ofRefactoredController, RateRequest.items.
  destruct (Cart.boxes cart) as [[|box more]|].
  - now elim Hnot.
  - intros [= <-]. rewrite map_map.
    rewrite <- (map_id (box :: more)) at 2. apply map_ext.
    intros [l w h wt]. reflexivity.
  - intros E.
    now rewrite (pallets_of_product_lines "lb" "in" _ (Hlines eq_refl) [] made E).
Qed.

Lemma X22_witness_product_line :
  map RateRequest.measurements
    (RateRequest.ofRefactoredController
       (Cart.mk None None
                (Some [Item.mk (Some 2) (Box.mk None None None None) None
                               (Some pallet)])
                None (Some (Address.mk (Some "M5V 2T6") None))))
  = [pallet; pallet].
Proof.
  apply (X22_pallets_sent_are_the_boxes_quoted
           (Cart.mk None None
                    (Some [Item.mk (Some 2) (Box.mk None None None None) None
                                   (Some pallet)])
                    None (Some (Address.mk (Some "M5V 2T6") None)))
           [pallet; pallet]).
  - discriminate.
  - intros _. apply Forall_cons; [left; discriminate|apply Forall_nil].
  - vm_compute. reflexivity.
Defined.
